(** * Mantra: the editable table, its undo history and the image pipeline

    A shallow embedding of [mantra.py]: the table model [DataFrameModel]
    (lines 221-398), the four undo commands (lines 115-203), the
    clipboard paste and the delete entry points of [CSVMatcherApp]
    (lines 2298-2352) and the worker [ImageProcessor.run] (lines 644-749).

    The program mutates one shared model object from several places (the
    commands keep a reference to the model, the model keeps a reference to
    the undo stack, the stack owns the commands).  That shared store is the
    record [World]; every method is a function on it in a small
    state-and-exception monad. *)

From Stdlib Require Import ZArith String Ascii List Bool Lia.
From Stdlib Require Import PrimFloat Uint63 FloatOps SpecFloat.
From Stdlib Require DecimalString.
From stdpp Require Import base decidable option list strings.

Local Open Scope string_scope.
Local Open Scope Z_scope.

(* ===================================================================== *)
(** ** Cell values *)
(* ===================================================================== *)

(** What a cell of the data frame, or the [value] argument of [setData],
    can be: a missing value ([pd.NA], or the NaN that a column of dtype
    str keeps for it), a Python [str], a number, or the null [QVariant()]
    that [data] answers for an invalid index.

    The frame is a grid of Python objects: this is pandas on columns of
    dtype object (and, for texts and missing values, of dtype str), where
    [iloc] stores and returns the object unchanged.  See [text_columns]
    below for the columns of numbers. *)
Inductive value : Type :=
  | NA
  | Str (s : string)
  | Num (z : Z)
  | QVariantNull.

#[global] Instance value_eq_dec : EqDecision value.
Proof. solve_decision. Defined.

(** [pd.isna(v)] on a scalar. *)
Definition isna (v : value) : bool :=
  match v with NA => true | _ => false end.

(** The literal the program treats as "no field value" (lines 275, 328). *)
Definition no_field_value : string := "(필드 값 없음)".

(** [str(v)].  The rendering of a null QVariant carries a memory address
    in Python; it is never computed on a reachable path (a null QVariant is
    never stored in the frame) and stands here without the address. *)
Definition str_of (v : value) : string :=
  match v with
  | NA => "<NA>"
  | Str s => s
  | Num z => DecimalString.NilZero.string_of_int (Z.to_int z)
  | QVariantNull => "<PyQt5.QtCore.QVariant object>"
  end.

(* ===================================================================== *)
(** ** The data frame and model indexes *)
(* ===================================================================== *)

Record DataFrame : Type := mkDataFrame {
  columns : list string;
  rows : list (list value)
}.

(** Every row has one value per column (pandas keeps frames rectangular). *)
Definition wf_df (d : DataFrame) : Prop :=
  Forall (fun r => length r = length (columns d)) (rows d).

Definition in_range (d : DataFrame) (r c : nat) : bool :=
  (r <? length (rows d))%nat && (c <? length (columns d))%nat.

(** [df.iloc[r, c]] for non-negative positions; [None] is [IndexError]. *)
Definition iloc_get (d : DataFrame) (r c : nat) : option value :=
  if in_range d r c then rows d !! r ≫= (fun l => l !! c) else None.

(** [df.iloc[r, c] = v] for non-negative positions; [None] is
    [IndexError] (iloc cannot enlarge the frame).  One entry of the grid
    is replaced, as pandas does in a column of dtype object. *)
Definition iloc_set (d : DataFrame) (r c : nat) (v : value) : option DataFrame :=
  if in_range d r c
  then Some (mkDataFrame (columns d) (alter (fun l => <[c := v]> l) r (rows d)))
  else None.

(** A [QModelIndex]: the invalid one has row and column -1. *)
Record QModelIndex : Type := mkIndex { row : Z; column : Z }.

#[global] Instance QModelIndex_eq_dec : EqDecision QModelIndex.
Proof. solve_decision. Defined.

Definition invalid_index : QModelIndex := mkIndex (-1) (-1).

(** [index.isValid()]: Qt tests row >= 0 and column >= 0 (the model pointer
    is always this model). *)
Definition isValid (i : QModelIndex) : bool :=
  (0 <=? row i) && (0 <=? column i).

Definition rowCount (d : DataFrame) : Z := Z.of_nat (length (rows d)).
Definition columnCount (d : DataFrame) : Z := Z.of_nat (length (columns d)).

(** [QAbstractItemModel.hasIndex(r, c)]. *)
Definition hasIndex (d : DataFrame) (r c : Z) : bool :=
  (0 <=? r) && (0 <=? c) && (r <? rowCount d) && (c <? columnCount d).

(** [model.index(r, c)] of a [QAbstractTableModel]: a valid index exactly
    when [hasIndex], the invalid index otherwise. *)
Definition model_index (d : DataFrame) (r c : Z) : QModelIndex :=
  if hasIndex d r c then mkIndex r c else invalid_index.

(** The index points into the frame. *)
Definition in_bounds (d : DataFrame) (i : QModelIndex) : bool :=
  hasIndex d (row i) (column i).

(* ===================================================================== *)
(** ** Commands, the undo stack and the shared world *)
(* ===================================================================== *)

(** The four [QUndoCommand] subclasses with the fields their constructors
    set.  [old_values] is a Python dict keyed by index: an association list
    in insertion order. *)
Inductive Command : Type :=
  | EditCellCommand (index : QModelIndex) (old_value new_value : value)
  | DeleteCellsCommand (selected_indexes : list QModelIndex)
      (old_values : list (QModelIndex * value))
  | PasteCellsCommand (paste_data : list (list string))
      (start_index : QModelIndex) (old_values : list (QModelIndex * value))
  | PasteMultipleCellsCommand (indexes : list QModelIndex) (val : string)
      (old_values : list (QModelIndex * value)).

(** Qt's [QUndoStack] (PyQt5, not part of this repository): the list of
    commands, the position of the next command to redo, and the undo limit
    (0 means unlimited). *)
Record QUndoStack : Type := mkStack {
  command_list : list Command;
  stack_index : nat;
  undo_limit : nat
}.

(** Signals of the model: [dataChanged(topLeft, bottomRight, roles)] and
    the model's own [dataChangedSignal]. *)
Inductive signal : Type :=
  | dataChanged (topLeft bottomRight : QModelIndex)
  | dataChangedSignal.

(** The model object, the application's undo stack and the signals emitted
    so far.  [CSVMatcherApp.__init__] creates the stack once (line 997) and
    hands the same object to the model (line 1004); [model_undo_stack] says
    whether [self.undo_stack] of the model is that object or still [None]. *)
Record World : Type := mkWorld {
  _df : DataFrame;
  ignore_undo : bool;
  model_undo_stack : bool;
  undo_stack : QUndoStack;
  emitted : list signal
}.

Definition set_df (d : DataFrame) (w : World) : World :=
  mkWorld d (ignore_undo w) (model_undo_stack w) (undo_stack w) (emitted w).
Definition set_ignore_undo (b : bool) (w : World) : World :=
  mkWorld (_df w) b (model_undo_stack w) (undo_stack w) (emitted w).
Definition set_undo_stack (s : QUndoStack) (w : World) : World :=
  mkWorld (_df w) (ignore_undo w) (model_undo_stack w) s (emitted w).
Definition emit (s : list signal) (w : World) : World :=
  mkWorld (_df w) (ignore_undo w) (model_undo_stack w) (undo_stack w)
    (emitted w ++ s)%list.

(** *** The monad: state, Python exceptions, and fuel *)

Inductive exn : Type := IndexError.

Inductive outcome (A : Type) : Type :=
  | Ok (a : A) (w : World)
  | Raise (e : exn) (w : World)
  | OutOfFuel.
Arguments Ok {A} a w.
Arguments Raise {A} e w.
Arguments OutOfFuel {A}.

Definition M (A : Type) : Type := World -> outcome A.

Definition ret {A} (a : A) : M A := fun w => Ok a w.

Definition bind {A B} (m : M A) (k : A -> M B) : M B :=
  fun w =>
    match m w with
    | Ok a w' => k a w'
    | Raise e w' => Raise e w'
    | OutOfFuel => OutOfFuel
    end.

Notation "x <- m ;; k" := (bind m (fun x => k))
  (at level 100, m at next level, right associativity).
Notation "m ;;; k" := (bind m (fun _ => k))
  (at level 100, right associativity).

(** [for x in l: f(x)], the results dropped. *)
Fixpoint for_each {A} (f : A -> M unit) (l : list A) : M unit :=
  match l with
  | [] => ret tt
  | x :: l' => f x ;;; for_each f l'
  end.

(** [for i, x in enumerate(l, start): f(i, x)]. *)
Fixpoint for_enumerate {A} (f : Z -> A -> M unit) (start : Z) (l : list A) : M unit :=
  match l with
  | [] => ret tt
  | x :: l' => f start x ;;; for_enumerate f (start + 1) l'
  end.

(* ===================================================================== *)
(** ** DataFrameModel *)
(* ===================================================================== *)

(** [DataFrameModel.data(index, Qt.DisplayRole)], lines 240-248. *)
Definition data (i : QModelIndex) : M value :=
  fun w =>
    if negb (isValid i) then Ok QVariantNull w
    else match iloc_get (_df w) (Z.to_nat (row i)) (Z.to_nat (column i)) with
         | None => Raise IndexError w
         | Some v => if isna v then Ok (Str "") w else Ok (Str (str_of v)) w
         end.

(** What lines 274-283 (and again 328-331) store for a given argument: a
    string that is empty or the "no field value" literal becomes [pd.NA],
    anything else is stored as it is. *)
Definition stored (v : value) : value :=
  match v with
  | Str s => if bool_decide (s = "") || bool_decide (s = no_field_value)
             then NA else Str s
  | _ => v
  end.

(** Lines 295-300: the new value as the comparison sees it. *)
Definition new_value_of (v : value) : value :=
  if isna v then NA
  else match v with
       | Str s => if bool_decide (s = "") then NA else Str s
       | _ => v
       end.

(** Lines 303-309 ([!=] on two non-missing scalars is structural here). *)
Definition values_differ (old new : value) : bool :=
  if isna old && isna new then false
  else if isna old || isna new then true
  else negb (bool_decide (old = new)).

(** Lines 276-286 and 328-334: store, emit both signals, answer [True];
    the [except] of either block answers [False] and changes nothing.
    The assignment raises for a position outside the frame; that it can
    also raise for a value the column's dtype refuses is outside the
    model (see [text_columns]). *)
Definition store_and_emit (i : QModelIndex) (v : value) : M bool :=
  fun w =>
    match iloc_set (_df w) (Z.to_nat (row i)) (Z.to_nat (column i)) (stored v) with
    | Some d => Ok true (emit [dataChanged i i; dataChangedSignal] (set_df d w))
    | None => Ok false w
    end.

Section SetData.
(** [self.undo_stack.push]: the stack of the application. *)
Variable push : Command -> M unit.

(** [DataFrameModel.setData(index, value, Qt.EditRole)], lines 262-339.
    Every caller in the program passes [Qt.EditRole]. *)
Definition setData_with (i : QModelIndex) (v : value) : M bool :=
  fun w =>
    if negb (isValid i) then Ok false w
    else if ignore_undo w then store_and_emit i v w
    else
      match iloc_get (_df w) (Z.to_nat (row i)) (Z.to_nat (column i)) with
      | None => Raise IndexError w
      | Some old_value =>
          let new_value := new_value_of v in
          if values_differ old_value new_value then
            if model_undo_stack w && negb (ignore_undo w) then
              match push (EditCellCommand i old_value new_value) w with
              | Ok _ w' => Ok true w'
              | Raise _ w' => Ok false w'
              | OutOfFuel => OutOfFuel
              end
            else store_and_emit i new_value w
          else Ok false w
      end.
End SetData.

(* ===================================================================== *)
(** ** The commands' undo and redo *)
(* ===================================================================== *)

Section Commands.
(** [self.model.setData]. *)
Variable setData : QModelIndex -> value -> M bool.

Definition set_flag (b : bool) : M unit := fun w => Ok tt (set_ignore_undo b w).

Definition call_setData (i : QModelIndex) (v : value) : M unit :=
  setData i v ;;; ret tt.

(** [for index, value in self.old_values.items(): setData(index, value)]. *)
Definition restore_old_values (old_values : list (QModelIndex * value)) : M unit :=
  for_each (fun iv => call_setData (fst iv) (snd iv)) old_values.

(** The body of [PasteCellsCommand.redo], lines 177-181. *)
Definition paste_rows (paste_data : list (list string)) (start_index : QModelIndex) : M unit :=
  for_enumerate (fun r line =>
    for_enumerate (fun c s =>
      fun w =>
        let index := model_index (_df w) (row start_index + r) (column start_index + c) in
        if isValid index then call_setData index (Str s) w else Ok tt w)
      0 line)
    0 paste_data.

(** [undo()] of each command class. *)
Definition cmd_undo_with (cmd : Command) : M unit :=
  set_flag true ;;;
  match cmd with
  | EditCellCommand index old_value _ => call_setData index old_value
  | DeleteCellsCommand _ old_values => restore_old_values old_values
  | PasteCellsCommand _ _ old_values => restore_old_values old_values
  | PasteMultipleCellsCommand _ _ old_values => restore_old_values old_values
  end ;;;
  set_flag false.

(** [redo()] of each command class. *)
Definition cmd_redo_with (cmd : Command) : M unit :=
  set_flag true ;;;
  match cmd with
  | EditCellCommand index _ new_value => call_setData index new_value
  | DeleteCellsCommand selected_indexes _ =>
      for_each (fun index => call_setData index (Str "")) selected_indexes
  | PasteCellsCommand paste_data start_index _ => paste_rows paste_data start_index
  | PasteMultipleCellsCommand indexes v _ =>
      for_each (fun index => call_setData index (Str v)) indexes
  end ;;;
  set_flag false.
End Commands.

(* ===================================================================== *)
(** ** QUndoStack *)
(* ===================================================================== *)

(** The entries a stack keeps once [cmd] is appended: the commands above
    the current position are deleted, [cmd] is appended, and while an undo
    limit is set and exceeded the oldest commands are deleted
    ([QUndoStackPrivate::checkUndoLimit]). *)
Definition stack_record (cmd : Command) (s : QUndoStack) : QUndoStack :=
  let l := (take (stack_index s) (command_list s) ++ [cmd])%list in
  let del := if (0 <? undo_limit s)%nat && (undo_limit s <? length l)%nat
             then (length l - undo_limit s)%nat else 0%nat in
  mkStack (drop del l) (stack_index s - del + 1)%nat (undo_limit s).

Section Stack.
Variable cmd_redo cmd_undo : Command -> M unit.

(** [QUndoStack::push(cmd)]: Qt first executes [cmd->redo()], then
    records the command (the commands define no [id()], so nothing is
    merged). *)
Definition QUndoStack_push (cmd : Command) : M unit :=
  cmd_redo cmd ;;;
  fun w => Ok tt (set_undo_stack (stack_record cmd (undo_stack w)) w).

(** [QUndoStack::undo()]. *)
Definition QUndoStack_undo : M unit :=
  fun w =>
    let s := undo_stack w in
    match stack_index s with
    | O => Ok tt w
    | S k =>
        match command_list s !! k with
        | None => Ok tt w  (* not reached: the position is within the list *)
        | Some cmd =>
            (cmd_undo cmd ;;;
             fun w' => Ok tt (set_undo_stack
               (mkStack (command_list (undo_stack w')) k (undo_limit (undo_stack w'))) w')) w
        end
    end.

(** [QUndoStack::redo()]. *)
Definition QUndoStack_redo : M unit :=
  fun w =>
    let s := undo_stack w in
    match command_list s !! stack_index s with
    | None => Ok tt w
    | Some cmd =>
        (cmd_redo cmd ;;;
         fun w' => Ok tt (set_undo_stack
           (mkStack (command_list (undo_stack w')) (S (stack_index s))
              (undo_limit (undo_stack w'))) w')) w
    end.
End Stack.

(** *** Tying the knot

    [setData] pushes on the stack, the stack runs the command's [redo], and
    [redo] calls [setData] again.  The recursion is cut by fuel: a call of
    [setData] that pushes needs one unit. *)
Fixpoint setData (fuel : nat) : QModelIndex -> value -> M bool :=
  setData_with
    (match fuel with
     | O => fun _ _ => OutOfFuel
     | S n => QUndoStack_push (cmd_redo_with (setData n))
     end).

Definition cmd_redo (fuel : nat) : Command -> M unit := cmd_redo_with (setData fuel).
Definition cmd_undo (fuel : nat) : Command -> M unit := cmd_undo_with (setData fuel).
Definition push (fuel : nat) : Command -> M unit := QUndoStack_push (cmd_redo fuel).
Definition undo (fuel : nat) : M unit := QUndoStack_undo (cmd_undo fuel).
Definition redo (fuel : nat) : M unit := QUndoStack_redo (cmd_redo fuel).

(* ===================================================================== *)
(** ** Command constructors *)
(* ===================================================================== *)

(** [d[k] = v] on a dict: an existing key keeps its place. *)
Fixpoint dict_set (k : QModelIndex) (v : value) (d : list (QModelIndex * value))
  : list (QModelIndex * value) :=
  match d with
  | [] => [(k, v)]
  | (k', v') :: d' =>
      if bool_decide (k = k') then (k', v) :: d' else (k', v') :: dict_set k v d'
  end.

(** [{index: self.model.data(index, Qt.DisplayRole) for index in indexes}]
    (lines 140 and 191), continuing from the entries in [acc]. *)
Fixpoint capture_old_values (indexes : list QModelIndex)
    (acc : list (QModelIndex * value)) : M (list (QModelIndex * value)) :=
  match indexes with
  | [] => ret acc
  | i :: l => v <- data i ;; capture_old_values l (dict_set i v acc)
  end.

(** Lines 164-167: the cells of one pasted row. *)
Fixpoint capture_row (start_index : QModelIndex) (r c : Z) (line : list string)
    (acc : list (QModelIndex * value)) : M (list (QModelIndex * value)) :=
  match line with
  | [] => ret acc
  | _ :: line' =>
      fun w =>
        let index := model_index (_df w) (row start_index + r) (column start_index + c) in
        if isValid index
        then (v <- data index ;; capture_row start_index r (c + 1) line' (dict_set index v acc)) w
        else capture_row start_index r (c + 1) line' acc w
  end.

(** Lines 163-167: all rows. *)
Fixpoint capture_rows (start_index : QModelIndex) (r : Z) (paste_data : list (list string))
    (acc : list (QModelIndex * value)) : M (list (QModelIndex * value)) :=
  match paste_data with
  | [] => ret acc
  | line :: rest =>
      acc' <- capture_row start_index r 0 line acc ;;
      capture_rows start_index (r + 1) rest acc'
  end.

Definition new_DeleteCellsCommand (selected_indexes : list QModelIndex) : M Command :=
  old_values <- capture_old_values selected_indexes [] ;;
  ret (DeleteCellsCommand selected_indexes old_values).

Definition new_PasteCellsCommand (paste_data : list (list string))
    (start_index : QModelIndex) : M Command :=
  old_values <- capture_rows start_index 0 paste_data [] ;;
  ret (PasteCellsCommand paste_data start_index old_values).

Definition new_PasteMultipleCellsCommand (indexes : list QModelIndex) (v : string)
    : M Command :=
  old_values <- capture_old_values indexes [] ;;
  ret (PasteMultipleCellsCommand indexes v old_values).

(* ===================================================================== *)
(** ** Python string helpers used by the clipboard parser *)
(* ===================================================================== *)

(** A [string] holds the UTF-8 bytes of a Python [str].

    [str.isspace] on one character of the ASCII range: tab to carriage
    return, the four separators 28 to 31, and the space. *)
Definition is_space (a : ascii) : bool :=
  let n := nat_of_ascii a in
  ((9 <=? n) && (n <=? 13) || (28 <=? n) && (n <=? 32))%nat.

(** The white space of Python outside ASCII, by its UTF-8 bytes.  Two
    bytes: U+0085 and U+00A0. *)
Definition is_space2 (a b : ascii) : bool :=
  let x := nat_of_ascii a in
  let y := nat_of_ascii b in
  ((x =? 194) && ((y =? 133) || (y =? 160)))%nat.

(** Three bytes: U+1680, U+2000 to U+200A, U+2028, U+2029, U+202F,
    U+205F and U+3000. *)
Definition is_space3 (a b c : ascii) : bool :=
  let x := nat_of_ascii a in
  let y := nat_of_ascii b in
  let z := nat_of_ascii c in
  ((x =? 225) && (y =? 154) && (z =? 128)
   || (x =? 226) && (y =? 128)
      && ((128 <=? z) && (z <=? 138) || (z =? 168) || (z =? 169) || (z =? 175))
   || (x =? 226) && (y =? 129) && (z =? 159)
   || (x =? 227) && (y =? 128) && (z =? 128))%nat.

(** [s.lstrip()]: the white-space characters at the front are dropped. *)
Fixpoint lstrip (s : string) : string :=
  match s with
  | EmptyString => EmptyString
  | String a s1 =>
      if is_space a then lstrip s1
      else match s1 with
           | EmptyString => s
           | String b s2 =>
               if is_space2 a b then lstrip s2
               else match s2 with
                    | EmptyString => s
                    | String c s3 => if is_space3 a b c then lstrip s3 else s
                    end
           end
  end.

(** [s.rstrip()]: the string is cut where nothing but white space
    follows. *)
Fixpoint rstrip (s : string) : string :=
  match s with
  | EmptyString => EmptyString
  | String a s' =>
      if bool_decide (lstrip s = EmptyString) then EmptyString else String a (rstrip s')
  end.

(** [s.strip()]. *)
Definition strip (s : string) : string := lstrip (rstrip s).

(** Two of the white-space characters outside ASCII: U+00A0, the
    no-break space, and U+3000, the ideographic space. *)
Definition no_break_space : string :=
  String (ascii_of_nat 194) (String (ascii_of_nat 160) EmptyString).
Definition ideographic_space : string :=
  String (ascii_of_nat 227) (String (ascii_of_nat 128) (String (ascii_of_nat 128) EmptyString)).

(** [s.split(sep)] for a one-character separator. *)
Fixpoint split (sep : ascii) (s : string) : list string :=
  match s with
  | EmptyString => [EmptyString]
  | String a s' =>
      if bool_decide (a = sep) then EmptyString :: split sep s'
      else match split sep s' with
           | h :: t => String a h :: t
           | [] => [String a EmptyString]
           end
  end.

Definition newline : ascii := "010"%char.
Definition tab : ascii := "009"%char.

(** Lines 2324-2325: the rows of the clipboard text, blank rows dropped. *)
Definition parse_clipboard (clipboard_text : string) : list (list string) :=
  map (split tab)
    (filter (fun line => strip line <> EmptyString) (split newline (strip clipboard_text))).

(* ===================================================================== *)
(** ** CSVMatcherApp: delete and paste *)
(* ===================================================================== *)

(** [try: body except Exception: (message box)]. *)
Definition try_except (body : M unit) : M unit :=
  fun w =>
    match body w with
    | Raise _ w' => Ok tt w'
    | r => r
    end.

(** [selected_indexes[0]]. *)
Definition first_index (selected_indexes : list QModelIndex) : M QModelIndex :=
  fun w =>
    match selected_indexes with
    | i :: _ => Ok i w
    | [] => Raise IndexError w
    end.

(** [CSVMatcherApp.clear_selected_cells], lines 2298-2311.  The stack of
    the application is never [None] (line 997), so the branch taken is the
    one that pushes. *)
Definition clear_selected_cells (fuel : nat) (selected_indexes : list QModelIndex) : M unit :=
  try_except
    (command <- new_DeleteCellsCommand selected_indexes ;;
     push fuel command).

(** [CSVMatcherApp.paste_clipboard_data], lines 2313-2352, the clipboard
    text passed in.  The message boxes are not modelled. *)
Definition paste_clipboard_data (fuel : nat) (selected_indexes : list QModelIndex)
    (clipboard_text : string) : M unit :=
  try_except
    (if bool_decide (clipboard_text = EmptyString) then ret tt
     else
       let data_matrix := parse_clipboard clipboard_text in
       match data_matrix with
       | [] => ret tt
       | _ =>
           command <-
             (match data_matrix with
              | [[paste_value]] =>
                  new_PasteMultipleCellsCommand selected_indexes paste_value
              | _ =>
                  start_index <- first_index selected_indexes ;;
                  fun w =>
                    new_PasteCellsCommand data_matrix
                      (model_index (_df w) (row start_index) (column start_index)) w
              end) ;;
           push fuel command
       end).

(** [TextEditDelegate.setModelData] (line 218) and [handle_update_cell]
    (line 2234): one call of [setData] with a string. *)
Definition edit_cell (fuel : nat) (i : QModelIndex) (text : string) : M bool :=
  setData fuel i (Str text).

(* ===================================================================== *)
(** ** A small table for the examples *)
(* ===================================================================== *)

Definition frame3x3 : DataFrame :=
  mkDataFrame ["a"; "b"; "c"]
    [ [Str "a0"; Str "b0"; Str "c0"];
      [Str "a1"; NA;       Str ""  ];
      [Num 7;    Str "b2"; Str no_field_value] ].

(** The state after [CSVMatcherApp.__init__] (undo limit 50, line 1000)
    and a load of [d]. *)
Definition loaded (d : DataFrame) : World :=
  mkWorld d false true (mkStack [] 0 50) [].

(* ===================================================================== *)
(** * Functions the statements are written with *)
(* ===================================================================== *)

(** ** What [setData] does while [ignore_undo] is set *)

(** One flagged call of [setData], as a function on the frame... *)
Definition write_cell (d : DataFrame) (iv : QModelIndex * value) : DataFrame :=
  if isValid (fst iv) then
    match iloc_set d (Z.to_nat (row (fst iv))) (Z.to_nat (column (fst iv))) (stored (snd iv)) with
    | Some d' => d'
    | None => d
    end
  else d.

(** ... and on the world (the frame and the signals). *)
Definition flagged_step (w : World) (iv : QModelIndex * value) : World :=
  if isValid (fst iv) then
    match iloc_set (_df w) (Z.to_nat (row (fst iv))) (Z.to_nat (column (fst iv))) (stored (snd iv)) with
    | Some d' => emit [dataChanged (fst iv) (fst iv); dataChangedSignal] (set_df d' w)
    | None => w
    end
  else w.

Definition writes (d : DataFrame) (l : list (QModelIndex * value)) : DataFrame :=
  fold_left write_cell l d.

Definition flagged_steps (w : World) (l : list (QModelIndex * value)) : World :=
  fold_left flagged_step l w.

(** *** The cells a command writes *)

(** The cells of one pasted row that [model.index] accepts, with the text
    each receives. *)
Fixpoint row_targets (d : DataFrame) (start_index : QModelIndex) (r c : Z)
    (line : list string) : list (QModelIndex * value) :=
  match line with
  | [] => []
  | s :: line' =>
      let index := model_index d (row start_index + r) (column start_index + c) in
      (if isValid index then [(index, Str s)] else [])
        ++ row_targets d start_index r (c + 1) line'
  end.

Fixpoint paste_targets (d : DataFrame) (start_index : QModelIndex) (r : Z)
    (paste_data : list (list string)) : list (QModelIndex * value) :=
  match paste_data with
  | [] => []
  | line :: rest =>
      row_targets d start_index r 0 line ++ paste_targets d start_index (r + 1) rest
  end.

(** The calls of [setData] a command's [redo] makes, in order. *)
Definition redo_writes (d : DataFrame) (cmd : Command) : list (QModelIndex * value) :=
  match cmd with
  | EditCellCommand index _ new_value => [(index, new_value)]
  | DeleteCellsCommand selected_indexes _ => map (fun i => (i, Str "")) selected_indexes
  | PasteCellsCommand paste_data start_index _ => paste_targets d start_index 0 paste_data
  | PasteMultipleCellsCommand indexes v _ => map (fun i => (i, Str v)) indexes
  end.

(** The calls of [setData] a command's [undo] makes, in order. *)
Definition undo_writes (cmd : Command) : list (QModelIndex * value) :=
  match cmd with
  | EditCellCommand index old_value _ => [(index, old_value)]
  | DeleteCellsCommand _ old_values => old_values
  | PasteCellsCommand _ _ old_values => old_values
  | PasteMultipleCellsCommand _ _ old_values => old_values
  end.

(** *** Running a command with any [setData] that obeys the flag *)

(** The world after a command's redo (or undo) in terms of its writes. *)
Definition apply_writes (w : World) (l : list (QModelIndex * value)) : World :=
  set_ignore_undo false (flagged_steps (set_ignore_undo true w) l).

Definition stack_at (k : nat) (s : QUndoStack) : QUndoStack :=
  mkStack (command_list s) k (undo_limit s).

(** ** Reading a cell after a run of flagged writes *)

(** The value stored at the position of an index. *)
Definition cell_at (d : DataFrame) (i : QModelIndex) : option value :=
  iloc_get d (Z.to_nat (row i)) (Z.to_nat (column i)).

(** The write [(i, _)] lands on position [(r, c)]. *)
Definition targets (i : QModelIndex) (r c : nat) : bool :=
  isValid i && (Z.to_nat (row i) =? r)%nat && (Z.to_nat (column i) =? c)%nat.

(** The argument of the last write of [l] that lands on [(r, c)]. *)
Fixpoint last_write (l : list (QModelIndex * value)) (r c : nat) : option value :=
  match l with
  | [] => None
  | iv :: l' =>
      match last_write l' r c with
      | Some x => Some x
      | None => if targets (fst iv) r c then Some (snd iv) else None
      end
  end.

(** ** Tables of text columns *)

(** The column [c] holds a [str] in some row.  Such a column is of dtype
    object or str: an assignment of a [str] or of a missing value
    replaces that entry and nothing else, as [iloc_set] does.  A column of
    numbers only (int64 or float64, as [read_csv] and [read_excel] type
    it) behaves otherwise: the assignment of [pd.NA] retypes the whole
    column, and the assignment of a [str] is refused from pandas 3 on and
    swallowed by the [except] of [setData].  The frame of the model does
    not follow a dtype, so what is proved about the values cells hold
    after a write is stated for tables of text columns. *)
Definition text_column (d : DataFrame) (c : nat) : bool :=
  existsb (fun r => match r !! c with Some (Str _) => true | _ => false end) (rows d).

(** Every column of the table is a text column. *)
Definition text_columns (d : DataFrame) : bool :=
  forallb (text_column d) (seq 0 (length (columns d))).

(** A value that a text column takes whatever its dtype: a [str] or a
    missing value. *)
Definition text_value (v : value) : bool :=
  match v with
  | NA | Str _ => true
  | _ => false
  end.

(** The values the command's [redo] writes are texts or missing: for
    the three multi-cell commands they always are. *)
Definition text_command (cmd : Command) : bool :=
  match cmd with
  | EditCellCommand _ _ new_value => text_value new_value
  | _ => true
  end.

(** ** The old values a command captures *)

(** What [data] shows for a stored value: blank for a missing one. *)
Definition display_of (v : value) : string :=
  if isna v then "" else str_of v.

(** The answer of [data] on a frame, when it does not raise. *)
Definition data_of (d : DataFrame) (i : QModelIndex) : value :=
  if isValid i then
    match cell_at d i with
    | Some v => Str (display_of v)
    | None => QVariantNull
    end
  else QVariantNull.

(** The index is the invalid one or points into the frame: what a view's
    selection and [model.index] produce. *)
Definition index_ok (d : DataFrame) (i : QModelIndex) : bool :=
  negb (isValid i) || in_bounds d i.

Definition captured (d : DataFrame) (indexes : list QModelIndex)
    (acc : list (QModelIndex * value)) : list (QModelIndex * value) :=
  fold_left (fun acc i => dict_set i (data_of d i) acc) indexes acc.

(** *** The stack after a push *)

(** The position never exceeds the number of commands. *)
Definition wf_stack (s : QUndoStack) : Prop :=
  (stack_index s <= length (command_list s))%nat.

(** ** Deleting cells and undoing it *)

(** What a cell holds once its display value has been written back by an
    undo: the display string, or [pd.NA] when that string is empty or the
    "no field value" literal. *)
Definition restored (v : value) : value := stored (Str (display_of v)).

(** A value that survives being written back: missing, or a string that is
    neither empty nor the "no field value" literal. *)
Definition plain (v : value) : Prop :=
  v = NA \/ exists s, v = Str s /\ s <> "" /\ s <> no_field_value.

(** The world after pushing [cmd]. *)
Definition pushed (cmd : Command) (w : World) : World :=
  set_undo_stack (stack_record cmd (undo_stack w))
    (apply_writes w (redo_writes (_df w) cmd)).

(** The world after undoing [cmd], the position moving to [k]. *)
Definition undone (k : nat) (cmd : Command) (w : World) : World :=
  set_undo_stack (stack_at k (undo_stack w)) (apply_writes w (undo_writes cmd)).

(** ** Region paste *)

(** The text the block [paste_data], anchored at [start_index], holds for
    the frame position [(r, c)], if the block covers it. *)
Definition block_value (paste_data : list (list string)) (start_index : QModelIndex)
    (r c : nat) : option string :=
  let dr := Z.of_nat r - row start_index in
  let dc := Z.of_nat c - column start_index in
  if (0 <=? dr) && (0 <=? dc)
  then paste_data !! Z.to_nat dr ≫= (fun line => line !! Z.to_nat dc)
  else None.

(** ** Scalar paste *)

Definition selection3x3 : list QModelIndex :=
  [ mkIndex 0 0; mkIndex 0 1; mkIndex 0 2;
    mkIndex 1 0; mkIndex 1 1; mkIndex 1 2;
    mkIndex 2 0; mkIndex 2 1; mkIndex 2 2 ].

(** ** The suppression flag *)

(** A [setData] that gets stuck if it is ever called while the flag is
    down: running a command with it shows that every call the command
    makes happens under the flag. *)
Definition only_flagged (sd : QModelIndex -> value -> M bool) : QModelIndex -> value -> M bool :=
  fun i v w => if ignore_undo w then sd i v w else OutOfFuel.

(** A stack whose [push] gets stuck: running code with it shows that the
    code never pushes. *)
Definition never_push : Command -> M unit := fun _ _ => OutOfFuel.

(** ** The set-cell path and [push] *)


(** ** Undo and redo, several times *)

(** [m] run [n] times in a row. *)
Fixpoint times (n : nat) (m : M unit) : M unit :=
  match n with
  | O => ret tt
  | S n' => m ;;; times n' m
  end.

(** Every cell a command's undo writes is a cell its redo writes. *)
Definition covered (d : DataFrame) (cmd : Command) : Prop :=
  forall r c, in_range d r c = true ->
    last_write (undo_writes cmd) r c <> None ->
    last_write (redo_writes d cmd) r c <> None.

(** The frame shows, in every cell, the last write of the commands in
    [cmds] (and of each of its suffixes) that lands on the cell. *)
Definition consistent (d : DataFrame) (cmds : list Command) : Prop :=
  forall k r c v, in_range d r c = true ->
    last_write (flat_map (redo_writes d) (drop k cmds)) r c = Some v ->
    iloc_get d r c = Some (stored v).

(** ** The history that edits build *)

(** What holds of the world between user actions once only pushes have
    happened: the pointer is at the end of the list of commands, the frame
    shows the last write of the recorded commands, and every recorded
    command undoes only cells it redoes. *)
Definition history_ok (w : World) : Prop :=
  wf_df (_df w)
  /\ ignore_undo w = false
  /\ model_undo_stack w = true
  /\ stack_index (undo_stack w) = length (command_list (undo_stack w))
  /\ consistent (_df w) (command_list (undo_stack w))
  /\ Forall (covered (_df w)) (command_list (undo_stack w)).

(** A run of user edits: each one is [setData] with the editor's text. *)
Definition edit_cells (fuel : nat) (edits : list (QModelIndex * string)) : M unit :=
  for_each (fun e => edit_cell fuel (fst e) (snd e) ;;; ret tt) edits.

(** ** Redo then undo of one command *)

(** The command is as the program builds it on the frame [d]: an
    [EditCell] holds the cell's value ([setData], line 319), the other
    three hold what their constructors capture. *)
Definition built_on (d : DataFrame) (cmd : Command) : Prop :=
  match cmd with
  | EditCellCommand i old_value _ => cell_at d i = Some old_value
  | DeleteCellsCommand sel old_values => old_values = captured d sel []
  | PasteCellsCommand paste_data start_index old_values =>
      old_values = captured d (map fst (paste_targets d start_index 0 paste_data)) []
  | PasteMultipleCellsCommand sel _ old_values => old_values = captured d sel []
  end.

(** The cells the command's [redo] writes. *)
Definition affected (d : DataFrame) (cmd : Command) : list QModelIndex :=
  map fst (redo_writes d cmd).

(** What the command's [undo] leaves in a cell that held [v]: an
    [EditCell] writes the value back, the others its display string. *)
Definition undo_value (cmd : Command) (v : value) : value :=
  match cmd with
  | EditCellCommand _ _ _ => stored v
  | _ => restored v
  end.

(** [rounds]: redo then undo, [k] times over. *)
Fixpoint rounds (fuel : nat) (cmd : Command) (k : nat) : M unit :=
  match k with
  | O => ret tt
  | S k' => cmd_redo fuel cmd ;;; cmd_undo fuel cmd ;;; rounds fuel cmd k'
  end.

(* ===================================================================== *)
(** * ImageProcessor *)
(* ===================================================================== *)

(** A cell's markup as the worker uses it: the [img] elements in document
    order with their [src] attribute ([None] when absent), the rest of the
    markup as opaque text in between. *)
Inductive node : Type :=
  | Txt (s : string)
  | Img (src : option string).

(** The library functions the worker calls.  They live outside the
    repository (bs4, urllib, os.path, base64, the file system, the clock)
    and are parameters of the model. *)
Record Env : Type := mkEnv {
  BeautifulSoup : string -> option (list node);   (* [None]: the parser raised *)
  soup_str : list node -> string;                 (* [str(soup)] *)
  urlparse : string -> option (string * string);  (* scheme and path; [None]: ValueError *)
  os_path_basename : string -> string;
  os_path_splitext_ext : string -> string;        (* [os.path.splitext(p)[1]] *)
  os_path_join : string -> string -> string;
  urlretrieve : string -> string -> bool;         (* [false]: the fetch raised *)
  b64decode_to_file : string -> string -> bool;   (* decode and write; [false]: raised *)
  time_ms : nat -> Z                              (* [int(time.time() * 1000)], by call *)
}.

(** The arguments of [ImageProcessor.__init__] besides the selection and
    the model. *)
Record Config : Type := mkConfig {
  new_path : string;
  download_images : bool;
  download_folder : string;
  base64_download_folder : string
}.

(** The texts the worker logs, without the exception's own text. *)
Inductive message : Type :=
  | base64_saved (i : QModelIndex) (file_path : string)
  | src_changed (i : QModelIndex) (src new_src : string)
  | base64_failed (i : QModelIndex)
  | scheme_added (src : string)
  | downloaded (i : QModelIndex) (image_path : string)
  | image_failed (i : QModelIndex)
  | cell_failed (i : QModelIndex).

(** The signals of [ImageProcessor] (lines 629-633). *)
Inductive worker_signal : Type :=
  | progress (percent : Z)
  | log (m : message)
  | error (m : message)
  | update_cell (i : QModelIndex) (new_data : string)
  | finished.

(** [int(x)] of a float: truncation toward zero. *)
Definition int_of_float (x : float) : Z :=
  match Prim2SF x with
  | S754_finite s m e =>
      let a := if (0 <=? e)%Z then Z.shiftl (Zpos m) e else Z.shiftr (Zpos m) (- e) in
      if s then - a else a
  | _ => 0
  end.

(** [int((i / total) * 100)], line 740, in binary64 arithmetic (the counts
    are far below 2^53, where the conversion to float is exact). *)
Definition progress_percent (i total : Z) : Z :=
  int_of_float
    (PrimFloat.mul
       (PrimFloat.div (PrimFloat.of_uint63 (Uint63.of_Z i))
                      (PrimFloat.of_uint63 (Uint63.of_Z total)))
       (PrimFloat.of_uint63 (Uint63.of_Z 100))).

(** [s.replace('\\', '/')]. *)
Fixpoint replace_backslash (s : string) : string :=
  match s with
  | EmptyString => EmptyString
  | String a s' =>
      String (if bool_decide (a = ascii_of_nat 92) then ascii_of_nat 47 else a)
             (replace_backslash s')
  end.

(** [s.split(sep, 1)] unpacked into two names: [None] when there is no
    separator (the unpacking raises ValueError). *)
Fixpoint split_once (sep : ascii) (s : string) : option (string * string) :=
  match s with
  | EmptyString => None
  | String a s' =>
      if bool_decide (a = sep) then Some (EmptyString, s')
      else match split_once sep s' with
           | Some (h, t) => Some (String a h, t)
           | None => None
           end
  end.

(** [header.split('/')[1].split(';')[0]], line 668; [None] is IndexError. *)
Definition media_subtype (header : string) : option string :=
  match split "/"%char header with
  | _ :: x :: _ =>
      match split ";"%char x with
      | y :: _ => Some y
      | [] => None
      end
  | _ => None
  end.

Section Worker.
Variable env : Env.
Variable cfg : Config.

(** Lines 666-695: one embedded image.  The loop over [imgs] carries the
    signals emitted so far and the number of clock readings made; the
    answer is the [src] attribute the element has afterwards. *)
Definition process_base64 (index : QModelIndex) (attr : option string) (src : string)
    (st : list worker_signal * nat) : option string * (list worker_signal * nat) :=
  let failed := (attr, (fst st ++ [log (base64_failed index); error (base64_failed index)], snd st)%list) in
  match split_once ","%char src with
  | None => failed
  | Some (header, encoded) =>
      match media_subtype header with
      | None => failed
      | Some file_ext =>
          let timestamp := time_ms env (snd st) in
          let st := (fst st, S (snd st)) in
          let failed := (attr, (fst st ++ [log (base64_failed index); error (base64_failed index)], snd st)%list) in
          let file_name :=
            "img_" ++ str_of (Num (row index)) ++ "_" ++ str_of (Num (column index))
            ++ "_" ++ str_of (Num timestamp) ++ "." ++ file_ext in
          let file_name :=
            if bool_decide (os_path_splitext_ext env file_name = "")
            then file_name ++ ".jpg" else file_name in
          let file_path := os_path_join env (base64_download_folder cfg) file_name in
          if b64decode_to_file env encoded file_path then
            let new_src := replace_backslash (os_path_join env (new_path cfg) file_name) in
            (Some new_src,
             (fst st ++ [log (base64_saved index file_path);
                         log (src_changed index src new_src)], snd st)%list)
          else failed
      end
  end.

(** Lines 698-731: one remote image. *)
Definition process_url (index : QModelIndex) (attr : option string) (src : string)
    (st : list worker_signal * nat) : option string * (list worker_signal * nat) :=
  match urlparse env src with
  | None => (attr, (fst st ++ [log (image_failed index); error (image_failed index)], snd st)%list)
  | Some (scheme, _) =>
      let src' := if bool_decide (scheme = "") then "https:" ++ src else src in
      let st := if bool_decide (scheme = "")
                then ((fst st ++ [log (scheme_added src')])%list, snd st) else st in
      let failed := (attr, (fst st ++ [log (image_failed index); error (image_failed index)], snd st)%list) in
      match urlparse env src' with
      | None => failed
      | Some (_, path) =>
          let file_name := os_path_basename env path in
          if bool_decide (file_name = "") then (attr, st)
          else
            let file_name :=
              if bool_decide (os_path_splitext_ext env file_name = "")
              then file_name ++ ".jpg" else file_name in
            let new_src := replace_backslash (os_path_join env (new_path cfg) file_name) in
            let rewritten (st : list worker_signal * nat) :=
              (Some new_src, (fst st ++ [log (src_changed index src' new_src)], snd st)%list) in
            if download_images cfg then
              let image_path := os_path_join env (download_folder cfg) file_name in
              if urlretrieve env src' image_path
              then rewritten ((fst st ++ [log (downloaded index image_path)])%list, snd st)
              else failed
            else rewritten st
      end
  end.

(** The body of [for img in imgs], lines 663-731. *)
Definition process_img (index : QModelIndex) (attr : option string)
    (st : list worker_signal * nat) : option string * (list worker_signal * nat) :=
  let src := match attr with Some s => s | None => "" end in
  if String.prefix "data:image" src
  then process_base64 index attr src st
  else process_url index attr src st.

(** [for img in imgs: ...] over the elements of the soup, in place. *)
Fixpoint process_imgs (index : QModelIndex) (soup : list node)
    (st : list worker_signal * nat) : list node * (list worker_signal * nat) :=
  match soup with
  | [] => ([], st)
  | Txt s :: rest =>
      let '(rest', st') := process_imgs index rest st in (Txt s :: rest', st')
  | Img attr :: rest =>
      let '(attr', st1) := process_img index attr st in
      let '(rest', st2) := process_imgs index rest st1 in
      (Img attr' :: rest', st2)
  end.

(** [soup.find_all('img')] is not empty. *)
Definition has_img (soup : list node) : bool :=
  existsb (fun n => match n with Img _ => true | Txt _ => false end) soup.

(** What the worker does with the [i]-th cell, lines 652-747. *)
Definition process_cell (w : World) (total i : Z) (index : QModelIndex)
    (st : list worker_signal * nat) : list worker_signal * nat :=
  let failed := ((fst st ++ [log (cell_failed index); error (cell_failed index)])%list, snd st) in
  match data index w with
  | Ok (Str current_data) _ =>
      if bool_decide (current_data = "") then st
      else match BeautifulSoup env current_data with
           | None => failed
           | Some soup =>
               if negb (has_img soup) then st
               else
                 let '(soup', st') := process_imgs index soup st in
                 ((fst st' ++ [update_cell index (soup_str env soup');
                               progress (progress_percent i total)])%list, snd st')
           end
  | _ => failed
  end.

(** [for i, index in enumerate(self.selected_indexes, 1)]. *)
Fixpoint process_cells (w : World) (total i : Z) (indexes : list QModelIndex)
    (st : list worker_signal * nat) : list worker_signal * nat :=
  match indexes with
  | [] => st
  | index :: rest => process_cells w total (i + 1) rest (process_cell w total i index st)
  end.

(** [ImageProcessor.run], lines 644-749: the signals it emits, the model
    read as it is when the worker starts. *)
Definition run (selected_indexes : list QModelIndex) (w : World) : list worker_signal :=
  let total := Z.of_nat (length selected_indexes) in
  if total =? 0 then [progress 100; finished]
  else (fst (process_cells w total 1 selected_indexes ([], 0%nat)) ++ [finished])%list.
End Worker.

(** [handle_update_cell] (line 2230) is the only slot that touches the
    model: the signals of a run, delivered in order. *)
Definition deliver (fuel : nat) (signals : list worker_signal) : M unit :=
  for_each (fun s =>
      match s with
      | update_cell i new_data => edit_cell fuel i new_data ;;; ret tt
      | _ => ret tt
      end) signals.

(** The progress values among a list of signals. *)
Definition progress_values (signals : list worker_signal) : list Z :=
  flat_map (fun s => match s with progress p => [p] | _ => [] end) signals.

Definition count_finished (signals : list worker_signal) : nat :=
  length (flat_map (fun s => match s with finished => [tt] | _ => [] end) signals).

(** ** An environment for the examples *)

Definition dquote : string := String (ascii_of_nat 34) EmptyString.

(** The markup of one [img] element as bs4 prints it. *)
Definition img_tag (src : string) : string :=
  "<img src=" ++ dquote ++ src ++ dquote ++ "/>".

Fixpoint assoc {A} (k : string) (l : list (string * A)) : option A :=
  match l with
  | [] => None
  | (k', a) :: l' => if bool_decide (k = k') then Some a else assoc k l'
  end.

(** The answers of the library functions on the strings of the examples:
    the pages bs4 parses, the URLs urllib parses (any other string makes
    [urlparse] raise), the URLs that can be fetched, POSIX paths. *)
Definition table_env (pages : list (string * list node))
    (urls : list (string * (string * string))) (reachable : list string) : Env :=
  mkEnv
    (fun s => Some (match assoc s pages with Some soup => soup | None => [Txt s] end))
    (fun soup => String.concat ""
       (map (fun n => match n with
                      | Txt s => s
                      | Img (Some u) => img_tag u
                      | Img None => "<img/>"
                      end) soup))
    (fun s => assoc s urls)
    (fun p => List.last (split "/"%char p) "")
    (fun p => match rev (split "."%char p) with
              | ext :: _ :: _ => "." ++ ext
              | _ => ""
              end)
    (fun a b => a ++ "/" ++ b)
    (fun url _ => bool_decide (url ∈ reachable))
    (fun _ _ => true)
    (fun n => 1700000000000 + Z.of_nat n).

Definition url_a : string := "http://example.com/a.png".
Definition url_b : string := "http://example.com/b.png".
Definition url_c : string := "http://[example.com/c.png".
Definition url_d : string := "http://example.com/d.png".
Definition url_e : string := "http://example.com/e.png".

(** [urlparse(url_c)] raises ValueError (an unclosed bracket in the host);
    the table has no entry for it. *)
Definition example_env (reachable : list string) : Env :=
  table_env
    (map (fun u => (img_tag u, [Img (Some u)])) [url_a; url_b; url_c; url_d; url_e])
    [ (url_a, ("http", "/a.png")); (url_b, ("http", "/b.png"));
      (url_d, ("http", "/d.png")); (url_e, ("http", "/e.png")) ]
    reachable.

(** Five cells with one image each (the third one malformed) and a sixth
    cell with no markup. *)
Definition gallery : DataFrame :=
  mkDataFrame ["content"]
    [ [Str (img_tag url_a)]; [Str (img_tag url_b)]; [Str (img_tag url_c)];
      [Str (img_tag url_d)]; [Str (img_tag url_e)]; [Str "plain text"] ].

(** One cell with two images. *)
Definition two_images : string := img_tag url_a ++ img_tag url_b.

Definition album_env (reachable : list string) : Env :=
  table_env
    [ (two_images, [Img (Some url_a); Img (Some url_b)]) ]
    [ (url_a, ("http", "/a.png")); (url_b, ("http", "/b.png")) ]
    reachable.

Definition album : DataFrame :=
  mkDataFrame ["content"] [ [Str two_images] ].

Definition example_cfg (download : bool) : Config :=
  mkConfig "images" download "downloads" "base64".

Definition column0 (n : nat) : list QModelIndex :=
  map (fun r => mkIndex (Z.of_nat r) 0) (seq 0 n).

(** ** One remote reference *)

(** The file name a remote reference resolves to, with the source as the
    fetch sees it (lines 700-713): [None] when [urlparse] raises or no
    file name can be derived. *)
Definition remote_target (env : Env) (src : string) : option (string * string) :=
  match urlparse env src with
  | None => None
  | Some (scheme, _) =>
      let src' := if bool_decide (scheme = "") then "https:" ++ src else src in
      match urlparse env src' with
      | None => None
      | Some (_, path) =>
          let file_name := os_path_basename env path in
          if bool_decide (file_name = "") then None
          else Some (src',
                     if bool_decide (os_path_splitext_ext env file_name = "")
                     then file_name ++ ".jpg" else file_name)
      end
  end.

(** ** Progress *)

(** The cell is one the worker processes to the end: its text is not
    empty, bs4 parses it, and it has at least one [img] element. *)
Definition processed (env : Env) (w : World) (index : QModelIndex) : bool :=
  match data index w with
  | Ok (Str current_data) _ =>
      negb (bool_decide (current_data = ""))
      && match BeautifulSoup env current_data with
         | Some soup => has_img soup
         | None => false
         end
  | _ => false
  end.

(** The positions (counted from [i]) of the processed cells. *)
Fixpoint processed_positions (env : Env) (w : World) (i : Z)
    (indexes : list QModelIndex) : list Z :=
  match indexes with
  | [] => []
  | index :: rest =>
      (if processed env w index then [i] else []) ++ processed_positions env w (i + 1) rest
  end.

(** Signals that are log lines or error reports. *)
Definition only_logs (signals : list worker_signal) : Prop :=
  Forall (fun s => match s with log _ | error _ => True | _ => False end) signals.

Ltac appended_logs :=
  eexists; split;
  [ first [ rewrite <- !app_assoc; reflexivity
          | reflexivity
          | symmetry; apply app_nil_r ]
  | repeat constructor ].

(* ===================================================================== *)
(** * More of CSVMatcherApp: the other entry points on the model *)
(* ===================================================================== *)

(** The function the context menu passes to [front_space_selected_cells]
    (line 2021): [lambda x: ' ' + x]. *)
Definition add_front_space (x : string) : string := " " ++ x.

(** The body of the loop of [front_space_selected_cells], lines
    2285-2291.  [data] answers a [str] or a null [QVariant]; the latter
    fails the [isinstance] test. *)
Definition front_space_cell (fuel : nat) (transform_function : string -> string)
    (index : QModelIndex) : M unit :=
  current_data <- data index ;;
  match current_data with
  | Str s =>
      if bool_decide (strip s <> "")
      then call_setData (setData fuel) index (Str (transform_function s))
      else ret tt
  | _ => ret tt
  end.

(** [CSVMatcherApp.front_space_selected_cells], lines 2278-2296: every
    selected cell whose text is not blank is set to the transformed text.
    The message boxes are not modelled. *)
Definition front_space_selected_cells (fuel : nat) (selected_indexes : list QModelIndex)
    (transform_function : string -> string) : M unit :=
  try_except
    (for_each (front_space_cell fuel transform_function) selected_indexes).

(** What the user can do to the table: commit an editor (line 218),
    delete or paste or prefix the selection (lines 2014-2022, 1540-1548),
    undo and redo (lines 1553, 1559). *)
Inductive action : Type :=
  | UserEdit (index : QModelIndex) (text : string)
  | UserClear (selected_indexes : list QModelIndex)
  | UserPaste (selected_indexes : list QModelIndex) (clipboard_text : string)
  | UserFrontSpace (selected_indexes : list QModelIndex)
  | UserUndo
  | UserRedo.

Definition perform (fuel : nat) (a : action) : M unit :=
  match a with
  | UserEdit index text => edit_cell fuel index text ;;; ret tt
  | UserClear selected_indexes => clear_selected_cells fuel selected_indexes
  | UserPaste selected_indexes clipboard_text =>
      paste_clipboard_data fuel selected_indexes clipboard_text
  | UserFrontSpace selected_indexes =>
      front_space_selected_cells fuel selected_indexes add_front_space
  | UserUndo => undo fuel
  | UserRedo => redo fuel
  end.

(** The editor of the view only ever commits to a cell of the table. *)
Definition action_ok (d : DataFrame) (a : action) : Prop :=
  match a with
  | UserEdit index _ => index_ok d index = true
  | _ => True
  end.

(** The action records commands only (it is not an undo or a redo). *)
Definition records (a : action) : Prop :=
  match a with
  | UserUndo | UserRedo => False
  | _ => True
  end.

(** The model between two user actions: a rectangular frame, the flag
    down, the stack attached. *)
Definition ready (w : World) : Prop :=
  wf_df (_df w) /\ ignore_undo w = false /\ model_undo_stack w = true.

(** ... and the history within its bounds. *)
Definition steady (w : World) : Prop :=
  ready w
  /\ wf_stack (undo_stack w)
  /\ ((0 < undo_limit (undo_stack w))%nat ->
      (length (command_list (undo_stack w)) <= undo_limit (undo_stack w))%nat).

(** The frames of the two worlds have the same columns and as many rows. *)
Definition same_shape (w w' : World) : Prop :=
  columns (_df w') = columns (_df w)
  /\ length (rows (_df w')) = length (rows (_df w)).

(** The value is one that [setData] stores: not the empty string and
    not the "no field value" literal. *)
Definition normalised (v : value) : Prop :=
  v <> Str "" /\ v <> Str no_field_value.

(** [w'] is [w] after a number of pushes of commands, each built on the
    frame it is pushed on. *)
Inductive pushes : World -> World -> Prop :=
  | pushes_refl w : pushes w w
  | pushes_step w cmd w' :
      built_on (_df w) cmd -> pushes (pushed cmd w) w' -> pushes w w'.

(* ===================================================================== *)
(** * DataFrameModel.clear_selected_cells_bulk *)
(* ===================================================================== *)

(** A position as [iloc] reads an integer: a negative one counts from the
    end; [None] is [IndexError]. *)
Definition iloc_position (n : nat) (k : Z) : option nat :=
  if (0 <=? k) && (k <? Z.of_nat n) then Some (Z.to_nat k)
  else if (k <? 0) && (- Z.of_nat n <=? k) then Some (Z.to_nat (Z.of_nat n + k))
  else None.

(** [df.iloc[r, c] = v] for any two integers. *)
Definition iloc_set_z (d : DataFrame) (r c : Z) (v : value) : option DataFrame :=
  match iloc_position (length (rows d)) r, iloc_position (length (columns d)) c with
  | Some r', Some c' => iloc_set d r' c' v
  | _, _ => None
  end.

(** [cells_by_row[row].append(col)] on the [defaultdict(list)]. *)
Fixpoint append_to (r c : Z) (cells_by_row : list (Z * list Z)) : list (Z * list Z) :=
  match cells_by_row with
  | [] => [(r, [c])]
  | (r', cols) :: rest =>
      if bool_decide (r' = r) then (r', (cols ++ [c])%list) :: rest
      else (r', cols) :: append_to r c rest
  end.

(** Lines 366-368. *)
Definition group_by_row (selected_indexes : list QModelIndex) : list (Z * list Z) :=
  fold_left (fun acc index => append_to (row index) (column index) acc) selected_indexes [].

(** [sorted(cols)] on integers. *)
Fixpoint insert_sorted (x : Z) (l : list Z) : list Z :=
  match l with
  | [] => [x]
  | y :: l' => if x <=? y then x :: l else y :: insert_sorted x l'
  end.

Definition sorted (l : list Z) : list Z := fold_right insert_sorted [] l.

(** Lines 375-381: the loop over [sorted_cols[1:]], from [start] and
    [end] on, and the last [append]. *)
Fixpoint contiguous_ranges (start end_ : Z) (cols : list Z) : list (Z * Z) :=
  match cols with
  | [] => [(start, end_)]
  | col :: rest =>
      if col =? end_ + 1 then contiguous_ranges start col rest
      else (start, end_) :: contiguous_ranges col col rest
  end.

(** [range(a, b)]. *)
Definition range (a b : Z) : list Z :=
  map (fun k => a + Z.of_nat k) (seq 0 (Z.to_nat (b - a))).

(** Lines 386-389: one cell. *)
Definition clear_cell (r c : Z) : M unit :=
  fun w =>
    if (r <? rowCount (_df w)) && (c <? columnCount (_df w)) then
      match iloc_set_z (_df w) r c (Str "") with
      | Some d => Ok tt (set_df d w)
      | None => Raise IndexError w
      end
    else Ok tt w.

(** Lines 384-392: one range of one row. *)
Definition clear_range (r : Z) (rg : Z * Z) : M unit :=
  for_each (clear_cell r) (range (fst rg) (snd rg + 1)) ;;;
  fun w => Ok tt (emit [dataChanged (model_index (_df w) r (fst rg))
                                    (model_index (_df w) r (snd rg))] w).

(** Lines 371-392: one row of the dict ([sorted_cols[0]] on an empty
    list is an [IndexError]). *)
Definition clear_row (rc : Z * list Z) : M unit :=
  match sorted (snd rc) with
  | [] => fun w => Raise IndexError w
  | c :: rest => for_each (clear_range (fst rc)) (contiguous_ranges c c rest)
  end.

(** [DataFrameModel.clear_selected_cells_bulk], lines 356-398. *)
Definition clear_selected_cells_bulk (selected_indexes : list QModelIndex) : M unit :=
  try_except
    (match selected_indexes with
     | [] => ret tt
     | _ => for_each clear_row (group_by_row selected_indexes)
     end).

(** The cells the loops visit, in order. *)
Definition range_cells (r : Z) (rg : Z * Z) : list (Z * Z) :=
  map (pair r) (range (fst rg) (snd rg + 1)).

Definition row_cells (rc : Z * list Z) : list (Z * Z) :=
  match sorted (snd rc) with
  | [] => []
  | c :: rest => flat_map (range_cells (fst rc)) (contiguous_ranges c c rest)
  end.

Definition bulk_cells (selected_indexes : list QModelIndex) : list (Z * Z) :=
  flat_map row_cells (group_by_row selected_indexes).

(** [w'] is [w] with the cells [cells] of the frame set to the empty
    string, and nothing else changed but [dataChanged] signals emitted. *)
Definition cleared_by (cells : list (Z * Z)) (w w' : World) : Prop :=
  wf_df (_df w')
  /\ (forall a b, hasIndex (_df w') a b = hasIndex (_df w) a b)
  /\ undo_stack w' = undo_stack w
  /\ ignore_undo w' = ignore_undo w
  /\ model_undo_stack w' = model_undo_stack w
  /\ (exists signals, emitted w' = (emitted w ++ signals)%list
                      /\ Forall (fun s => s <> dataChangedSignal) signals)
  /\ forall r c, hasIndex (_df w) r c = true ->
       cell_at (_df w') (mkIndex r c)
       = if bool_decide ((r, c) ∈ cells) then Some (Str "")
         else cell_at (_df w) (mkIndex r c).

(* ===================================================================== *)
(** * Predicates on strings *)
(* ===================================================================== *)

(** The character occurs in the string. *)
Fixpoint has_char (a : ascii) (s : string) : bool :=
  match s with
  | EmptyString => false
  | String x s' => bool_decide (x = a) || has_char a s'
  end.

(** The byte is of the ASCII range. *)
Definition low (a : ascii) : bool := (nat_of_ascii a <? 128)%nat.

(** The string without the white-space character it begins with, if it
    begins with one: one step of [lstrip]. *)
Definition skip_space (s : string) : option string :=
  match s with
  | EmptyString => None
  | String a s1 =>
      if is_space a then Some s1
      else match s1 with
           | EmptyString => None
           | String b s2 =>
               if is_space2 a b then Some s2
               else match s2 with
                    | EmptyString => None
                    | String c s3 => if is_space3 a b c then Some s3 else None
                    end
           end
  end.

Ltac bools :=
  repeat match goal with
  | H : _ && _ = true |- _ => apply andb_true_iff in H; destruct H
  | H : _ || _ = true |- _ => apply orb_true_iff in H; destruct H
  | H : (_ =? _)%nat = true |- _ => apply Nat.eqb_eq in H
  | H : (_ <=? _)%nat = true |- _ => apply Nat.leb_le in H
  | H : (_ <? _)%nat = true |- _ => apply Nat.ltb_lt in H
  | H : (_ <? _)%nat = false |- _ => apply Nat.ltb_ge in H
  end.



(* ===================================================================== *)
(** * CSVMatcherApp.copy_selected_cells *)
(* ===================================================================== *)

(** The order of the key [(x.row(), x.column())]. *)
Definition index_le (i j : QModelIndex) : bool :=
  (row i <? row j) || ((row i =? row j) && (column i <=? column j)).

Fixpoint insert_index (i : QModelIndex) (l : list QModelIndex) : list QModelIndex :=
  match l with
  | [] => [i]
  | j :: l' => if index_le i j then i :: l else j :: insert_index i l'
  end.

(** [sorted(selected_indexes, key=lambda x: (x.row(), x.column()))]. *)
Definition sorted_indexes (l : list QModelIndex) : list QModelIndex :=
  fold_right insert_index [] l.

(** A dict with integer keys: [d[k] = v] and [d[k]]. *)
Fixpoint dict_put {V} (k : Z) (v : V) (d : list (Z * V)) : list (Z * V) :=
  match d with
  | [] => [(k, v)]
  | (k', v') :: d' =>
      if bool_decide (k' = k) then (k', v) :: d' else (k', v') :: dict_put k v d'
  end.

Fixpoint dict_get {V} (k : Z) (d : list (Z * V)) : option V :=
  match d with
  | [] => None
  | (k', v') :: d' => if bool_decide (k' = k) then Some v' else dict_get k d'
  end.

(** Lines 2115-2119: the dict of the rows; [None] when [data] raises. *)
Fixpoint collect_rows (w : World) (indexes : list QModelIndex)
    (rows : list (Z * list (Z * value))) : option (list (Z * list (Z * value))) :=
  match indexes with
  | [] => Some rows
  | index :: rest =>
      match data index w with
      | Ok v _ =>
          let inner := default [] (dict_get (row index) rows) in
          collect_rows w rest (dict_put (row index) (dict_put (column index) v inner) rows)
      | _ => None
      end
  end.

(** Lines 2122-2124: [row_data] for every row, in the order of the keys. *)
Definition rows_data (rows : list (Z * list (Z * value))) : list (list value) :=
  map (fun r =>
         let inner := default [] (dict_get r rows) in
         map (fun c => default NA (dict_get c inner)) (sorted (map fst inner)))
      (sorted (map fst rows)).

(** The items of a [join]: all of them must be [str]. *)
Definition str_items (l : list value) : option (list string) :=
  mapM (fun v => match v with Str s => Some s | _ => None end) l.

Inductive copy_outcome : Type :=
  | nothing_selected
  | copied (clipboard_text : string)
  | raised_IndexError
  | raised_TypeError.

(** [sep.join(items)]. *)
Definition join (sep : ascii) (items : list string) : string :=
  String.concat (String sep EmptyString) items.

(** [CSVMatcherApp.copy_selected_cells], lines 2102-2128: what goes to
    the clipboard.  Nothing catches the [IndexError] of [data] or the
    [TypeError] of a [join] over the null [QVariant] of an invalid index. *)
Definition copy_selected_cells (selected_indexes : list QModelIndex) (w : World)
    : copy_outcome :=
  match selected_indexes with
  | [] => nothing_selected
  | _ =>
      match collect_rows w (sorted_indexes selected_indexes) [] with
      | None => raised_IndexError
      | Some rows =>
          match mapM str_items (rows_data rows) with
          | None => raised_TypeError
          | Some clipboard_rows => copied (join newline (map (join tab) clipboard_rows))
          end
      end
  end.

(** The rows of texts a copy joins, when it gets that far. *)
Definition copied_rows (selected_indexes : list QModelIndex) (w : World)
    : option (list (list string)) :=
  match collect_rows w (sorted_indexes selected_indexes) [] with
  | None => None
  | Some rows => mapM str_items (rows_data rows)
  end.

(** A text that survives the clipboard: not empty, no white space at
    either end, no tab and no line feed inside. *)
Definition pastable (s : string) : Prop :=
  s <> "" /\ strip s = s
  /\ has_char tab s = false /\ has_char newline s = false.

(* ===================================================================== *)
(** * More of the worker: the cells a run updates *)
(* ===================================================================== *)

(** The cells named by the [update_cell] signals among a list of signals,
    in order. *)
Definition updated_cells (signals : list worker_signal) : list QModelIndex :=
  flat_map (fun s => match s with update_cell i _ => [i] | _ => [] end) signals.

(** The signal logs a changed [src]; the signal reports an error. *)
Definition is_src_changed (s : worker_signal) : bool :=
  match s with log (src_changed _ _ _) => true | _ => false end.

Definition is_error (s : worker_signal) : bool :=
  match s with error _ => true | _ => false end.

Definition backslash : ascii := ascii_of_nat 92.

(** What one image adds to the signals and what becomes of its [src]:
    the attribute is as it was and no change is logged, or it is a new
    value without backslashes, the change is the last thing logged, and no
    error is reported. *)
Definition img_outcome (index : QModelIndex) (attr : option string)
    (st : list worker_signal * nat)
    (r : option string * (list worker_signal * nat)) : Prop :=
  exists extra,
    fst (snd r) = (fst st ++ extra)%list
    /\ ((fst r = attr /\ existsb is_src_changed extra = false)
        \/ (exists src new_src,
              fst r = Some new_src
              /\ List.last extra finished = log (src_changed index src new_src)
              /\ existsb is_error extra = false
              /\ has_char backslash new_src = false)).

Ltac img_unchanged :=
  eexists; split;
  [ first [ rewrite <- !app_assoc; reflexivity | reflexivity | symmetry; apply app_nil_r ]
  | left; split; reflexivity ].

Ltac img_rewritten :=
  eexists; split;
  [ first [ rewrite <- !app_assoc; reflexivity | reflexivity ]
  | right; eexists; eexists; split; [reflexivity|];
    split; [reflexivity|]; split; [reflexivity|] ].

(** The element is a text node; the two soups have the same nodes but
    for the [src] attributes of their [img] elements. *)
Definition same_markup (soup soup' : list node) : Prop :=
  Forall2 (fun n n' =>
             match n, n' with
             | Txt s, Txt s' => s = s'
             | Img _, Img _ => True
             | _, _ => False
             end) soup soup'.

(* ===================================================================== *)
(** * Loading a table *)
(* ===================================================================== *)

(** [DataFrameModel.set_dataframe], lines 345-349: the frame is replaced
    (the copy has a fresh range index, which the frame of this model
    always has).  Neither the model nor its caller [display_data] (line
    1960) touches the undo stack.  The reset signals of the view are not
    among the signals of [World]. *)
Definition set_dataframe (df : DataFrame) : M unit :=
  fun w => Ok tt (set_df df w).

(** [self._original_order] as [set_dataframe] records it, line 347: the
    labels of the fresh range index. *)
Definition original_order (df : DataFrame) : list nat :=
  seq 0 (length (rows df)).

(** [df.loc[labels]] on a frame with a range index: the rows with those
    labels, in the order given; [None] is [KeyError]. *)
Definition loc_rows (labels : list nat) (df : DataFrame) : option DataFrame :=
  match mapM (fun k => rows df !! k) labels with
  | Some rs => Some (mkDataFrame (columns df) rs)
  | None => None
  end.

(** [DataFrameModel.sort_original_order], lines 351-354, with the order
    recorded by the last [set_dataframe].  The one exception of the monad
    stands for the [KeyError] of a missing label. *)
Definition sort_original_order (_original_order : list nat) : M unit :=
  fun w =>
    match loc_rows _original_order (_df w) with
    | Some df => Ok tt (set_df df w)
    | None => Raise IndexError w
    end.

(** ** Column names *)

Definition carriage_return : ascii := "013"%char.
Definition space : ascii := " "%char.

(** [s.replace(a, b)] for one-character strings. *)
Fixpoint replace_char (a b : ascii) (s : string) : string :=
  match s with
  | EmptyString => EmptyString
  | String x s' => String (if bool_decide (x = a) then b else x) (replace_char a b s')
  end.

(** [re.sub(' +', ' ', s)]: every run of spaces becomes one space. *)
Fixpoint collapse_spaces (s : string) : string :=
  match s with
  | EmptyString => EmptyString
  | String x s' =>
      let t := collapse_spaces s' in
      if bool_decide (x = space) then
        match t with
        | String y _ => if bool_decide (y = space) then t else String x t
        | EmptyString => String x t
        end
      else String x t
  end.

(** The four assignments of [clean_column_names] (lines 1696-1699, and
    964-967) on one column name. *)
Definition clean_name (name : string) : string :=
  collapse_spaces
    (replace_char carriage_return space (replace_char newline space (strip name))).



(** [CSVMatcherApp.clean_column_names], lines 1692-1704: the columns of
    the frame are renamed in place; the frame after the call. *)
Definition clean_column_names (df : DataFrame) : DataFrame :=
  mkDataFrame (map clean_name (columns df)) (rows df).

(** ** The custom HTML format *)

(** A [td] element as the parser reads it: its [class] attribute (a list
    in bs4, empty when absent) and [get_text(strip=True)]. *)
Record td : Type := mkTd { td_class : list string; get_text : string }.

(** What the program asks of the libraries when it loads a file. *)
Inductive read_outcome : Type :=
  | Read (df : DataFrame)
  | UnicodeDecodeError
  | FileNotFoundError
  | ParserError
  | OtherError.

Record Files : Type := mkFiles {
  (* [pd.read_csv(file_path, encoding=enc, index_col=None)] *)
  read_csv : string -> string -> read_outcome;
  (* [pd.read_excel(file_path, engine=engine, index_col=None)]; [None]: raised *)
  read_excel : string -> string -> option DataFrame;
  (* [open(file_path, 'r', encoding='utf-8', errors='ignore').read(1024)] *)
  read_head : string -> option string;
  (* [open(file_path, 'r', encoding='utf-8', errors='ignore').read()] *)
  read_text : string -> option string;
  (* the same without [errors='ignore'] *)
  read_text_strict : string -> option string;
  (* [BeautifulSoup(html_content, 'html.parser').find('table')], then
     [find_all('tr')] on it and [find_all('td')] on each row; the outer
     [None]: the parser raised, the inner one: no table *)
  find_table : string -> option (option (list (list td)));
  (* [pd.read_html(str(soup), header=0)]; [None]: raised *)
  read_html : string -> option (list DataFrame)
}.

(** Lines 1626-1629: a short row is padded with empty strings, a long one
    is cut. *)
Definition fit_row (n : nat) (row : list value) : list value :=
  if (length row <? n)%nat then (row ++ replicate (n - length row) (Str ""))%list
  else if (n <? length row)%nat then take n row
  else row.

(** Lines 1591-1636, from the table found on. *)
Definition frame_of_table (table : option (list (list td))) : option DataFrame :=
  match table with
  | None => None
  | Some [] => None
  | Some (header_tds :: rest) =>
      match header_tds with
      | [] => None
      | first_td :: _ =>
          if negb (bool_decide ("title" ∈ td_class first_td)) then None
          else
            let columns := map get_text header_tds in
            let data :=
              flat_map (fun tds =>
                match tds with
                | [] => []
                | _ => [fit_row (length columns) (map (fun c => Str (get_text c)) tds)]
                end) rest in
            Some (mkDataFrame columns data)
      end
  end.

(** The rows after the header that have at least one [td]. *)
Definition data_rows (rest : list (list td)) : list (list td) :=
  List.filter (fun tds => match tds with [] => false | _ => true end) rest.

(** [CSVMatcherApp.parse_custom_html_xls], lines 1586-1641 (the message
    boxes are not modelled): [None] also when the parser raises. *)
Definition parse_custom_html_xls (files : Files) (html_content : string) : option DataFrame :=
  match find_table files html_content with
  | None => None
  | Some table => frame_of_table table
  end.

(** ** CSV and Excel *)

Definition encodings : list string := ["utf-8-sig"; "utf-8"; "cp949"; "ISO-8859-1"].

(** The entries of [l] at the positions where [mask] is not set. *)
Fixpoint drop_where {A} (mask : list bool) (l : list A) : list A :=
  match mask, l with
  | m :: mask', x :: l' => if m then drop_where mask' l' else x :: drop_where mask' l'
  | _, _ => l
  end.

(** [df.drop(columns=[name])]: every column with that label goes. *)
Definition drop_columns (name : string) (df : DataFrame) : DataFrame :=
  let mask := map (fun c => bool_decide (c = name)) (columns df) in
  mkDataFrame (drop_where mask (columns df)) (map (drop_where mask) (rows df)).

(** Lines 1718-1722 (and 1751-1755). *)
Definition drop_unnamed (df : DataFrame) : DataFrame :=
  if bool_decide ("Unnamed: 0" ∈ columns df) then drop_columns "Unnamed: 0" df else df.

(** The loop of [load_csv], lines 1711-1738. *)
Fixpoint load_csv_from (files : Files) (file_path : string) (encs : list string)
    : option DataFrame :=
  match encs with
  | [] => None
  | enc :: rest =>
      match read_csv files file_path enc with
      | Read df => Some (drop_unnamed df)
      | UnicodeDecodeError => load_csv_from files file_path rest
      | _ => None
      end
  end.

(** [CSVMatcherApp.load_csv], lines 1706-1742. *)
Definition load_csv (files : Files) (file_path : string) : option DataFrame :=
  load_csv_from files file_path encodings.

(** [CSVMatcherApp.load_excel], lines 1744-1763. *)
Definition load_excel (files : Files) (file_path engine : string) : option DataFrame :=
  match read_excel files file_path engine with
  | Some df => Some (drop_unnamed df)
  | None => None
  end.

(** [s.lower()] on the ASCII range; the bytes of the other characters
    are left as they are (none of them lowers to a character of the text
    [<html], the one thing the program looks for in the result). *)
Fixpoint lower (s : string) : string :=
  match s with
  | EmptyString => EmptyString
  | String x s' =>
      let n := nat_of_ascii x in
      String (if (65 <=? n)%nat && (n <=? 90)%nat then ascii_of_nat (n + 32) else x) (lower s')
  end.

(** [p in s] on strings. *)
Fixpoint contains (p s : string) : bool :=
  String.prefix p s
  || match s with
     | EmptyString => false
     | String _ s' => contains p s'
     end.

(** ** DataLoaderThread *)

Module DataLoaderThread.

(** The texts the thread reports, without the exception's own text. *)
Inductive message : Type :=
  | file_not_found
  | csv_parser_error
  | unknown_error
  | no_encoding_worked
  | excel_failed
  | no_table
  | no_tr
  | no_header_td
  | no_title_class
  | html_failed
  | no_content_column
  | unsupported_format
  | load_failed
  | exception_text.

(** The signals of the thread (lines 752-754); [progress] is declared
    and never emitted. *)
Inductive signal : Type :=
  | finished (df : DataFrame)
  | error (m : message).

(** A local variable of [run]: not yet assigned, or holding [None] or a
    frame. *)
Inductive local : Type :=
  | Unbound
  | Bound (v : option DataFrame).

(** [DataLoaderThread.load_csv], lines 796-832. *)
Fixpoint load_csv_from (files : Files) (file_path : string) (encs : list string)
    : option DataFrame * list signal :=
  match encs with
  | [] => (None, [error no_encoding_worked])
  | enc :: rest =>
      match read_csv files file_path enc with
      | Read df => (Some (drop_unnamed df), [])
      | UnicodeDecodeError => load_csv_from files file_path rest
      | FileNotFoundError => (None, [error file_not_found])
      | ParserError => (None, [error csv_parser_error])
      | OtherError => (None, [error unknown_error])
      end
  end.

Definition load_csv (files : Files) (file_path : string) : option DataFrame * list signal :=
  load_csv_from files file_path encodings.

(** [DataLoaderThread.load_excel], lines 834-853. *)
Definition load_excel (files : Files) (file_path engine : string)
    : option DataFrame * list signal :=
  match read_excel files file_path engine with
  | Some df => (Some (drop_unnamed df), [])
  | None => (None, [error excel_failed])
  end.

(** [DataLoaderThread.parse_custom_html_xls], lines 855-910. *)
Definition parse_custom_html_xls (files : Files) (html_content : string)
    : option DataFrame * list signal :=
  match find_table files html_content with
  | None => (None, [error html_failed])
  | Some None => (None, [error no_table])
  | Some (Some []) => (None, [error no_tr])
  | Some (Some ([] :: _)) => (None, [error no_header_td])
  | Some (Some ((first_td :: header_tds) :: rest)) =>
      match frame_of_table (Some ((first_td :: header_tds) :: rest)) with
      | None => (None, [error no_title_class])
      | Some df => (Some df, [])
      end
  end.

(** [DataLoaderThread.clean_column_names], lines 959-971: the columns are
    renamed in place, and the method has no [return]: the frame after the
    call, and the value of the call, which can only be [None]. *)
Definition clean_column_names (df : DataFrame) : DataFrame * unit :=
  (mkDataFrame (map clean_name (columns df)) (rows df), tt).

(** [DataLoaderThread.parse_html], lines 912-957.  Line 925 assigns the
    value of [clean_column_names] to [df], and line 928 reads
    [df.columns] of it: an [AttributeError], which the [except] of line
    954 reports.  The lines after 928 never run. *)
Definition parse_html (files : Files) (html_content : string)
    : option DataFrame * list signal :=
  match find_table files html_content with
  | None => (None, [error html_failed])
  | Some _ =>
      match read_html files html_content with
      | None => (None, [error html_failed])
      | Some [] => (None, [error no_table])
      | Some (df :: _) =>
          let '(_, tt) := clean_column_names df in
          (None, [error html_failed])
      end
  end.

(** The end of [run], lines 789-792: [df] is read. *)
Definition report (df : local) : list signal :=
  match df with
  | Unbound => [error exception_text]
  | Bound (Some d) => [finished d]
  | Bound None => [error load_failed]
  end.

(** [DataLoaderThread.run], lines 761-794: the signals emitted. *)
Definition run (files : Files) (file_path file_ext : string) : list signal :=
  if bool_decide (file_ext = ".csv") then
    let '(df, signals) := load_csv files file_path in
    (signals ++ report (Bound df))%list
  else if bool_decide (file_ext ∈ [".xlsx"; ".xls"]) then
    if bool_decide (file_ext = ".xlsx") then
      (* only [engine] is assigned *)
      report Unbound
    else
      match read_head files file_path with
      | None => [error exception_text]
      | Some content =>
          if contains "<html" (lower content) then
            match read_text files file_path with
            | None => [error exception_text]
            | Some html_content =>
                let '(df, signals) := parse_custom_html_xls files html_content in
                match df with
                | Some d =>
                    let '(_, tt) := clean_column_names d in
                    (signals ++ report (Bound None))%list
                | None => (signals ++ report (Bound None))%list
                end
            end
          else
            let '(df, signals) := load_excel files file_path "xlrd" in
            (signals ++ report (Bound df))%list
      end
  else if bool_decide (file_ext = ".html") then
    match read_text_strict files file_path with
    | None => [error exception_text]
    | Some content =>
        let '(df, signals) := parse_html files content in
        (signals ++ report (Bound df))%list
    end
  else [error unsupported_format].

End DataLoaderThread.

(* ===================================================================== *)
(** * CSVMatcherApp.create_a_file: applying the mapping *)
(* ===================================================================== *)

(** The positions of the columns with a given label, from [k] on. *)
Fixpoint positions_from (k : nat) (name : string) (cols : list string) : list nat :=
  match cols with
  | [] => []
  | c :: cols' =>
      ((if bool_decide (c = name) then [k] else []) ++ positions_from (S k) name cols')%list
  end.

Definition column_positions (name : string) (cols : list string) : list nat :=
  positions_from 0 name cols.

(** [df[pos] = series] where the series has the labels [0 .. len-1]: a
    frame without rows first takes the labels of a series that has
    some (pandas' [_ensure_valid_index]), its other columns missing; then
    the values are matched by label, a label the series lacks giving a
    missing value. *)
Definition set_column_series (pos : nat) (vals : list value) (d : DataFrame) : DataFrame :=
  match rows d, vals with
  | [], _ :: _ =>
      mkDataFrame (columns d)
        (map (fun v => <[pos := v]> (replicate (length (columns d)) NA)) vals)
  | _, _ =>
      mkDataFrame (columns d)
        (imap (fun k r => <[pos := default NA (vals !! k)]> r) (rows d))
  end.

(** [df[pos] = v] for a scalar. *)
Definition set_column_scalar (pos : nat) (v : value) (d : DataFrame) : DataFrame :=
  mkDataFrame (columns d) (map (fun r => <[pos := v]> r) (rows d)).

(** Line 1817: the source column is named and exists. *)
Definition is_mapped (df_source : DataFrame) (b_col : string) : bool :=
  negb (bool_decide (b_col = "")) && bool_decide (b_col ∈ columns df_source).

(** One turn of the loop, lines 1816-1825.  [None]: the source has
    several columns with the label, [df_source[b_col]] is a frame and the
    assignment raises [ValueError] (nothing catches it). *)
Definition map_column (df_source : DataFrame) (df_target : option DataFrame)
    (ab : string * string) : option DataFrame :=
  match df_target with
  | None => None
  | Some df_target =>
      match column_positions (fst ab) (columns df_target) with
      | [pos] =>
          if is_mapped df_source (snd ab) then
            match column_positions (snd ab) (columns df_source) with
            | [pos_b] =>
                Some (set_column_series pos
                        (map (fun r => default NA (r !! pos_b)) (rows df_source)) df_target)
            | _ => None
            end
          else Some (set_column_scalar pos NA df_target)
      | _ => None  (* not reached: the keys of a dict are distinct *)
      end
  end.

(** Lines 1813-1825 of [create_a_file]: the target frame, from the
    mapping ([a_col] to [b_col], in the order of the dict) and the frame
    of the model. *)
Definition apply_mapping (mapping : list (string * string)) (df_source : DataFrame)
    : option DataFrame :=
  fold_left (map_column df_source) mapping
    (Some (mkDataFrame (map fst mapping) [])).

(** [MappingEditorDialog.reset_mapping], lines 589-590, on the mapping:
    every key is mapped to the empty string. *)
Definition reset_mapping (mapping : list (string * string)) : list (string * string) :=
  map (fun ab => (fst ab, "")) mapping.

(** The value of the source column labelled [b_col] in row [r]. *)
Definition source_value (df_source : DataFrame) (r : nat) (b_col : string) : value :=
  match column_positions b_col (columns df_source) with
  | [pos_b] => default NA (rows df_source !! r ≫= (fun row => row !! pos_b))
  | _ => NA
  end.

(** The target frame after the first [j] turns of the loop. *)
Definition mapping_done (mapping : list (string * string)) (df_source : DataFrame)
    (j : nat) (t : DataFrame) : Prop :=
  columns t = map fst mapping
  /\ Forall (fun r => length r = length mapping) (rows t)
  /\ length (rows t)
     = (if existsb (fun ab => is_mapped df_source (snd ab)) (take j mapping)
        then length (rows df_source) else 0%nat)
  /\ forall r k ab row,
       mapping !! k = Some ab -> rows t !! r = Some row ->
       row !! k = Some (if (k <? j)%nat && is_mapped df_source (snd ab)
                        then source_value df_source r (snd ab) else NA).

(** Signals of the thread that are all error reports. *)
Definition only_errors (signals : list DataLoaderThread.signal) : Prop :=
  Forall (fun s => match s with
                   | DataLoaderThread.error _ => True
                   | DataLoaderThread.finished _ => False
                   end) signals.

(** ** Files for the examples *)

(** A table in the custom format: a header of three cells, a short row,
    a row without cells and a long row. *)
Definition example_table : list (list td) :=
  [ [mkTd ["title"] "name"; mkTd [] "price"; mkTd [] "memo"];
    [mkTd [] "pen"; mkTd [] "3"];
    [];
    [mkTd [] "ink"; mkTd [] "9"; mkTd [] "blue"; mkTd [] "extra"] ].

Definition sales : DataFrame :=
  mkDataFrame ["Unnamed: 0"; "name"; "price"]
    [ [Num 0; Str "pen"; Num 3]; [Num 1; Str "ink"; Num 9] ].

(** [sales.csv] is in cp949 and does not decode as UTF-8; [sheet.xls] is
    the table above in HTML; no other file exists. *)
Definition example_files : Files :=
  mkFiles
    (fun file_path enc =>
       if bool_decide (file_path = "sales.csv") then
         if bool_decide (enc = "cp949") || bool_decide (enc = "ISO-8859-1")
         then Read sales else UnicodeDecodeError
       else FileNotFoundError)
    (fun _ _ => None)
    (fun file_path =>
       if bool_decide (file_path = "sheet.xls") then Some "<HTML><table>" else None)
    (fun file_path =>
       if bool_decide (file_path = "sheet.xls") then Some "<HTML><table>...</table></HTML>"
       else None)
    (fun _ => None)
    (fun html_content =>
       if bool_decide (html_content = "<HTML><table>...</table></HTML>")
       then Some (Some example_table) else Some None)
    (fun _ => None).

(* ===================================================================== *)
(** * Properties *)
(* ===================================================================== *)

(** ** The frame: reading after writing *)

Lemma iloc_set_columns d r c v d' :
  iloc_set d r c v = Some d' -> columns d' = columns d.
Proof.
  unfold iloc_set. destruct (in_range d r c); [|discriminate].
  intros [= <-]. reflexivity.
Qed.

Lemma iloc_set_rows_length d r c v d' :
  iloc_set d r c v = Some d' -> length (rows d') = length (rows d).
Proof.
  unfold iloc_set. destruct (in_range d r c); [|discriminate].
  intros [= <-]. simpl. apply length_alter.
Qed.

Lemma iloc_set_in_range d r c v d' r' c' :
  iloc_set d r c v = Some d' -> in_range d' r' c' = in_range d r' c'.
Proof.
  intros H. unfold in_range.
  rewrite (iloc_set_columns _ _ _ _ _ H), (iloc_set_rows_length _ _ _ _ _ H).
  reflexivity.
Qed.

Lemma iloc_set_wf d r c v d' :
  wf_df d -> iloc_set d r c v = Some d' -> wf_df d'.
Proof.
  unfold wf_df, iloc_set. intros Hwf.
  destruct (in_range d r c); [|discriminate]. intros [= <-]. simpl.
  rewrite Forall_lookup in Hwf |- *. intros k l Hk.
  rewrite list_lookup_alter in Hk.
  destruct (decide (r = k)) as [->|Hne].
  - destruct (rows d !! k) as [l0|] eqn:E; simpl in Hk; [|discriminate].
    injection Hk as <-. rewrite length_insert. eauto.
  - eauto.
Qed.

Lemma iloc_set_is_Some d r c v :
  in_range d r c = true -> exists d', iloc_set d r c v = Some d'.
Proof. unfold iloc_set. intros ->. eauto. Qed.

Lemma iloc_get_set_eq d r c v d' :
  wf_df d -> iloc_set d r c v = Some d' -> iloc_get d' r c = Some v.
Proof.
  intros Hwf H. unfold iloc_get. rewrite (iloc_set_in_range _ _ _ _ _ r c H).
  unfold iloc_set in H. destruct (in_range d r c) eqn:E; [|discriminate].
  injection H as <-. simpl.
  unfold in_range in E. apply andb_true_iff in E as [Er Ec].
  apply Nat.ltb_lt in Er, Ec.
  destruct (lookup_lt_is_Some_2 (rows d) r Er) as [l Hl].
  rewrite list_lookup_alter, decide_True by reflexivity. rewrite Hl. simpl.
  apply list_lookup_insert_eq.
  unfold wf_df in Hwf. rewrite Forall_lookup in Hwf.
  rewrite (Hwf _ _ Hl). exact Ec.
Qed.

Lemma iloc_get_set_ne d r c v d' r' c' :
  iloc_set d r c v = Some d' -> (r, c) <> (r', c') ->
  iloc_get d' r' c' = iloc_get d r' c'.
Proof.
  intros H Hne. unfold iloc_get. rewrite (iloc_set_in_range _ _ _ _ _ r' c' H).
  destruct (in_range d r' c'); [|reflexivity].
  unfold iloc_set in H. destruct (in_range d r c); [|discriminate].
  injection H as <-. simpl. rewrite list_lookup_alter.
  destruct (decide (r = r')) as [->|Hr]; [|reflexivity].
  destruct (rows d !! r') as [l|]; simpl; [|reflexivity].
  apply list_lookup_insert_ne. congruence.
Qed.

Lemma iloc_get_in_range d r c v :
  iloc_get d r c = Some v -> in_range d r c = true.
Proof. unfold iloc_get. destruct (in_range d r c); [reflexivity|discriminate]. Qed.

Lemma iloc_get_is_Some d r c :
  wf_df d -> in_range d r c = true -> exists v, iloc_get d r c = Some v.
Proof.
  intros Hwf E. unfold iloc_get. rewrite E.
  unfold in_range in E. apply andb_true_iff in E as [Er Ec].
  apply Nat.ltb_lt in Er, Ec.
  destruct (lookup_lt_is_Some_2 (rows d) r Er) as [l Hl]. rewrite Hl. simpl.
  unfold wf_df in Hwf. rewrite Forall_lookup in Hwf.
  apply lookup_lt_is_Some_2. rewrite (Hwf _ _ Hl). exact Ec.
Qed.

(** An index in bounds is valid and its position is in range. *)
Lemma in_bounds_spec d i :
  in_bounds d i = true <->
  isValid i = true /\ in_range d (Z.to_nat (row i)) (Z.to_nat (column i)) = true.
Proof.
  unfold in_bounds, hasIndex, isValid, in_range, rowCount, columnCount.
  rewrite !andb_true_iff, !Z.leb_le, !Z.ltb_lt, !Nat.ltb_lt. lia.
Qed.

(** ** What [setData] does while [ignore_undo] is set *)

Lemma flagged_step_df w iv : _df (flagged_step w iv) = write_cell (_df w) iv.
Proof.
  unfold flagged_step, write_cell. destruct (isValid (fst iv)); [|reflexivity].
  destruct (iloc_set _ _ _ _); reflexivity.
Qed.

Lemma flagged_step_ignore_undo w iv : ignore_undo (flagged_step w iv) = ignore_undo w.
Proof.
  unfold flagged_step. destruct (isValid (fst iv)); [|reflexivity].
  destruct (iloc_set _ _ _ _); reflexivity.
Qed.

Lemma flagged_step_undo_stack w iv : undo_stack (flagged_step w iv) = undo_stack w.
Proof.
  unfold flagged_step. destruct (isValid (fst iv)); [|reflexivity].
  destruct (iloc_set _ _ _ _); reflexivity.
Qed.

Lemma flagged_step_model_undo_stack w iv :
  model_undo_stack (flagged_step w iv) = model_undo_stack w.
Proof.
  unfold flagged_step. destruct (isValid (fst iv)); [|reflexivity].
  destruct (iloc_set _ _ _ _); reflexivity.
Qed.

Lemma flagged_steps_df l : forall w, _df (flagged_steps w l) = writes (_df w) l.
Proof.
  unfold flagged_steps, writes.
  induction l as [|iv l IH]; intros w; simpl; [reflexivity|].
  rewrite IH, flagged_step_df. reflexivity.
Qed.

Lemma flagged_steps_ignore_undo l : forall w,
  ignore_undo (flagged_steps w l) = ignore_undo w.
Proof.
  unfold flagged_steps.
  induction l as [|iv l IH]; intros w; simpl; [reflexivity|].
  rewrite IH. apply flagged_step_ignore_undo.
Qed.

Lemma flagged_steps_undo_stack l : forall w,
  undo_stack (flagged_steps w l) = undo_stack w.
Proof.
  unfold flagged_steps.
  induction l as [|iv l IH]; intros w; simpl; [reflexivity|].
  rewrite IH. apply flagged_step_undo_stack.
Qed.

Lemma flagged_steps_model_undo_stack l : forall w,
  model_undo_stack (flagged_steps w l) = model_undo_stack w.
Proof.
  unfold flagged_steps.
  induction l as [|iv l IH]; intros w; simpl; [reflexivity|].
  rewrite IH. apply flagged_step_model_undo_stack.
Qed.

Lemma flagged_steps_app w l1 l2 :
  flagged_steps w (l1 ++ l2) = flagged_steps (flagged_steps w l1) l2.
Proof. apply fold_left_app. Qed.

Lemma writes_app d l1 l2 : writes d (l1 ++ l2) = writes (writes d l1) l2.
Proof. apply fold_left_app. Qed.

(** While the flag is set, [setData] is the flagged step whatever [push]
    is: the branch that pushes is not reached. *)
Lemma setData_with_flagged p i v w :
  ignore_undo w = true ->
  exists b, setData_with p i v w = Ok b (flagged_step w (i, v)).
Proof.
  intros Hf. unfold setData_with, flagged_step, store_and_emit. simpl.
  destruct (isValid i); simpl; [|eauto].
  rewrite Hf. destruct (iloc_set _ _ _ _); eauto.
Qed.

(** *** The shape of the frame never changes *)

Lemma write_cell_in_range d iv r c :
  in_range (write_cell d iv) r c = in_range d r c.
Proof.
  unfold write_cell. destruct (isValid (fst iv)); [|reflexivity].
  destruct (iloc_set _ _ _ _) eqn:E; [|reflexivity].
  eapply iloc_set_in_range; eauto.
Qed.

Lemma write_cell_hasIndex d iv r c :
  hasIndex (write_cell d iv) r c = hasIndex d r c.
Proof.
  unfold write_cell. destruct (isValid (fst iv)); [|reflexivity].
  destruct (iloc_set _ _ _ _) eqn:E; [|reflexivity].
  unfold hasIndex, rowCount, columnCount.
  rewrite (iloc_set_columns _ _ _ _ _ E), (iloc_set_rows_length _ _ _ _ _ E).
  reflexivity.
Qed.

Lemma write_cell_wf d iv : wf_df d -> wf_df (write_cell d iv).
Proof.
  intros Hwf. unfold write_cell. destruct (isValid (fst iv)); [|assumption].
  destruct (iloc_set _ _ _ _) eqn:E; [|assumption].
  eapply iloc_set_wf; eauto.
Qed.

Lemma writes_in_range l : forall d r c, in_range (writes d l) r c = in_range d r c.
Proof.
  unfold writes. induction l as [|iv l IH]; intros d r c; simpl; [reflexivity|].
  rewrite IH. apply write_cell_in_range.
Qed.

Lemma writes_hasIndex l : forall d r c, hasIndex (writes d l) r c = hasIndex d r c.
Proof.
  unfold writes. induction l as [|iv l IH]; intros d r c; simpl; [reflexivity|].
  rewrite IH. apply write_cell_hasIndex.
Qed.

Lemma writes_wf l : forall d, wf_df d -> wf_df (writes d l).
Proof.
  unfold writes. induction l as [|iv l IH]; intros d Hwf; simpl; [assumption|].
  apply IH, write_cell_wf, Hwf.
Qed.

Lemma writes_model_index l d r c : model_index (writes d l) r c = model_index d r c.
Proof. unfold model_index. rewrite writes_hasIndex. reflexivity. Qed.

Lemma writes_in_bounds l d i : in_bounds (writes d l) i = in_bounds d i.
Proof. apply writes_hasIndex. Qed.

(** *** The cells a command writes *)

Lemma row_targets_shape d d' start_index r line :
  (forall a b, hasIndex d' a b = hasIndex d a b) ->
  forall c, row_targets d' start_index r c line = row_targets d start_index r c line.
Proof.
  intros H. induction line as [|s line IH]; intros c; simpl; [reflexivity|].
  unfold model_index. rewrite H, IH. reflexivity.
Qed.

Lemma paste_targets_shape d d' start_index paste_data :
  (forall a b, hasIndex d' a b = hasIndex d a b) ->
  forall r, paste_targets d' start_index r paste_data = paste_targets d start_index r paste_data.
Proof.
  intros H. induction paste_data as [|line rest IH]; intros r; simpl; [reflexivity|].
  rewrite IH, (row_targets_shape d d'); auto.
Qed.

(** *** Running a command with any [setData] that obeys the flag *)

Section FlaggedCalls.
Variable sd : QModelIndex -> value -> M bool.
Hypothesis sd_flagged : forall i v w,
  ignore_undo w = true -> exists b, sd i v w = Ok b (flagged_step w (i, v)).

Lemma call_flagged i v w :
  ignore_undo w = true ->
  call_setData sd i v w = Ok tt (flagged_step w (i, v)).
Proof.
  intros Hf. unfold call_setData, bind.
  destruct (sd_flagged i v w Hf) as [b ->]. reflexivity.
Qed.

Lemma restore_flagged l : forall w,
  ignore_undo w = true ->
  restore_old_values sd l w = Ok tt (flagged_steps w l).
Proof.
  unfold restore_old_values, flagged_steps.
  induction l as [|[i v] l IH]; intros w Hf; simpl; [reflexivity|].
  unfold bind at 1. simpl. rewrite (call_flagged i v w Hf).
  apply IH. rewrite flagged_step_ignore_undo. exact Hf.
Qed.

Lemma for_each_const_flagged v l : forall w,
  ignore_undo w = true ->
  for_each (fun i => call_setData sd i v) l w
  = Ok tt (flagged_steps w (map (fun i => (i, v)) l)).
Proof.
  unfold flagged_steps.
  induction l as [|i l IH]; intros w Hf; simpl; [reflexivity|].
  unfold bind at 1. rewrite (call_flagged i v w Hf).
  apply IH. rewrite flagged_step_ignore_undo. exact Hf.
Qed.

Lemma paste_row_flagged start_index r line : forall c w,
  ignore_undo w = true ->
  for_enumerate (fun c s => fun w =>
      if isValid (model_index (_df w) (row start_index + r) (column start_index + c))
      then call_setData sd
             (model_index (_df w) (row start_index + r) (column start_index + c)) (Str s) w
      else Ok tt w)
    c line w
  = Ok tt (flagged_steps w (row_targets (_df w) start_index r c line)).
Proof.
  induction line as [|s line IH]; intros c w Hf; simpl; [reflexivity|].
  unfold bind at 1.
  destruct (isValid (model_index (_df w) (row start_index + r) (column start_index + c))) eqn:Ev.
  - rewrite (call_flagged _ _ w Hf).
    rewrite IH by (rewrite flagged_step_ignore_undo; exact Hf).
    rewrite flagged_step_df. simpl.
    rewrite (row_targets_shape (_df w)) by (intros; apply write_cell_hasIndex).
    reflexivity.
  - rewrite IH by exact Hf. reflexivity.
Qed.

Lemma paste_rows_flagged start_index paste_data : forall r w,
  ignore_undo w = true ->
  for_enumerate (fun r line =>
      for_enumerate (fun c s => fun w =>
          if isValid (model_index (_df w) (row start_index + r) (column start_index + c))
          then call_setData sd
                 (model_index (_df w) (row start_index + r) (column start_index + c)) (Str s) w
          else Ok tt w)
        0 line)
    r paste_data w
  = Ok tt (flagged_steps w (paste_targets (_df w) start_index r paste_data)).
Proof.
  induction paste_data as [|line rest IH]; intros r w Hf;
    cbn [for_enumerate paste_targets]; [reflexivity|].
  unfold bind at 1. cbv beta.
  rewrite (paste_row_flagged start_index r line 0 w Hf).
  rewrite IH by (rewrite flagged_steps_ignore_undo; exact Hf).
  rewrite flagged_steps_df, flagged_steps_app.
  rewrite (paste_targets_shape (_df w)) by (intros; apply writes_hasIndex).
  reflexivity.
Qed.

Lemma paste_rows_eq paste_data start_index w :
  ignore_undo w = true ->
  paste_rows sd paste_data start_index w
  = Ok tt (flagged_steps w (paste_targets (_df w) start_index 0 paste_data)).
Proof. intros Hf. exact (paste_rows_flagged start_index paste_data 0 w Hf). Qed.

(** The command's [redo]: the flag goes up, the cells are written, the
    flag goes down. *)
Lemma cmd_redo_flagged cmd w :
  cmd_redo_with sd cmd w
  = Ok tt (set_ignore_undo false
             (flagged_steps (set_ignore_undo true w) (redo_writes (_df w) cmd))).
Proof.
  unfold cmd_redo_with, bind, set_flag.
  assert (Hf : ignore_undo (set_ignore_undo true w) = true) by reflexivity.
  destruct cmd as [i o n|sel old|pd st old|idx v old]; cbv beta iota.
  - rewrite (call_flagged i n _ Hf). reflexivity.
  - rewrite (for_each_const_flagged (Str "") sel _ Hf). reflexivity.
  - rewrite (paste_rows_eq pd st _ Hf). reflexivity.
  - rewrite (for_each_const_flagged (Str v) idx _ Hf). reflexivity.
Qed.

Lemma cmd_undo_flagged cmd w :
  cmd_undo_with sd cmd w
  = Ok tt (set_ignore_undo false
             (flagged_steps (set_ignore_undo true w) (undo_writes cmd))).
Proof.
  unfold cmd_undo_with, bind, set_flag.
  assert (Hf : ignore_undo (set_ignore_undo true w) = true) by reflexivity.
  destruct cmd as [i o n|sel old|pd st old|idx v old]; simpl;
    try (rewrite (restore_flagged old _ Hf); reflexivity).
  rewrite (call_flagged i o _ Hf). reflexivity.
Qed.
End FlaggedCalls.

(** A command's [redo] and [undo], whatever [push] is. *)
Lemma cmd_redo_with_eq p cmd w :
  cmd_redo_with (setData_with p) cmd w
  = Ok tt (set_ignore_undo false
             (flagged_steps (set_ignore_undo true w) (redo_writes (_df w) cmd))).
Proof. apply cmd_redo_flagged. intros. apply setData_with_flagged. assumption. Qed.

Lemma cmd_undo_with_eq p cmd w :
  cmd_undo_with (setData_with p) cmd w
  = Ok tt (set_ignore_undo false
             (flagged_steps (set_ignore_undo true w) (undo_writes cmd))).
Proof. apply cmd_undo_flagged. intros. apply setData_with_flagged. assumption. Qed.

Lemma setData_unfold fuel :
  setData fuel = setData_with
    (match fuel with
     | O => fun _ _ => OutOfFuel
     | S n => QUndoStack_push (cmd_redo_with (setData n))
     end).
Proof. destruct fuel; reflexivity. Qed.

Lemma cmd_redo_eq fuel cmd w :
  cmd_redo fuel cmd w
  = Ok tt (set_ignore_undo false
             (flagged_steps (set_ignore_undo true w) (redo_writes (_df w) cmd))).
Proof. unfold cmd_redo. rewrite setData_unfold. apply cmd_redo_with_eq. Qed.

Lemma cmd_undo_eq fuel cmd w :
  cmd_undo fuel cmd w
  = Ok tt (set_ignore_undo false
             (flagged_steps (set_ignore_undo true w) (undo_writes cmd))).
Proof. unfold cmd_undo. rewrite setData_unfold. apply cmd_undo_with_eq. Qed.

Lemma apply_writes_df w l : _df (apply_writes w l) = writes (_df w) l.
Proof. unfold apply_writes. simpl. rewrite flagged_steps_df. reflexivity. Qed.

Lemma apply_writes_undo_stack w l : undo_stack (apply_writes w l) = undo_stack w.
Proof. unfold apply_writes. simpl. rewrite flagged_steps_undo_stack. reflexivity. Qed.

Lemma apply_writes_model_undo_stack w l :
  model_undo_stack (apply_writes w l) = model_undo_stack w.
Proof. unfold apply_writes. simpl. rewrite flagged_steps_model_undo_stack. reflexivity. Qed.

Lemma apply_writes_ignore_undo w l : ignore_undo (apply_writes w l) = false.
Proof. reflexivity. Qed.

(** [push], [undo] and [redo] of the stack, for any fuel. *)
Lemma push_eq fuel cmd w :
  push fuel cmd w
  = Ok tt (set_undo_stack (stack_record cmd (undo_stack w))
             (apply_writes w (redo_writes (_df w) cmd))).
Proof.
  unfold push, QUndoStack_push, bind. rewrite cmd_redo_eq.
  fold (apply_writes w (redo_writes (_df w) cmd)).
  rewrite apply_writes_undo_stack. reflexivity.
Qed.

Lemma undo_eq fuel w k cmd :
  stack_index (undo_stack w) = S k ->
  command_list (undo_stack w) !! k = Some cmd ->
  undo fuel w
  = Ok tt (set_undo_stack (stack_at k (undo_stack w))
             (apply_writes w (undo_writes cmd))).
Proof.
  intros Hi Hc. unfold undo, QUndoStack_undo. rewrite Hi, Hc.
  unfold bind. fold (cmd_undo fuel). rewrite cmd_undo_eq.
  fold (apply_writes w (undo_writes cmd)).
  rewrite apply_writes_undo_stack. reflexivity.
Qed.

Lemma undo_at_bottom fuel w :
  stack_index (undo_stack w) = O -> undo fuel w = Ok tt w.
Proof. intros Hi. unfold undo, QUndoStack_undo. rewrite Hi. reflexivity. Qed.

Lemma redo_eq fuel w cmd :
  command_list (undo_stack w) !! stack_index (undo_stack w) = Some cmd ->
  redo fuel w
  = Ok tt (set_undo_stack (stack_at (S (stack_index (undo_stack w))) (undo_stack w))
             (apply_writes w (redo_writes (_df w) cmd))).
Proof.
  intros Hc. unfold redo, QUndoStack_redo. rewrite Hc.
  unfold bind. fold (cmd_redo fuel). rewrite cmd_redo_eq.
  fold (apply_writes w (redo_writes (_df w) cmd)).
  rewrite apply_writes_undo_stack. reflexivity.
Qed.

(** ** Reading a cell after a run of flagged writes *)

Lemma get_write_cell d iv r c :
  wf_df d -> in_range d r c = true ->
  iloc_get (write_cell d iv) r c
  = if targets (fst iv) r c then Some (stored (snd iv)) else iloc_get d r c.
Proof.
  intros Hwf Hr. unfold write_cell, targets.
  destruct (isValid (fst iv)); simpl; [|reflexivity].
  destruct (Nat.eqb_spec (Z.to_nat (row (fst iv))) r) as [<-|Hne]; simpl.
  - destruct (Nat.eqb_spec (Z.to_nat (column (fst iv))) c) as [<-|Hne]; simpl.
    + destruct (iloc_set_is_Some d _ _ (stored (snd iv)) Hr) as [d' Hd'].
      rewrite Hd'. eapply iloc_get_set_eq; eauto.
    + destruct (iloc_set _ _ _ _) eqn:E; [|reflexivity].
      eapply iloc_get_set_ne; eauto. congruence.
  - destruct (iloc_set _ _ _ _) eqn:E; [|reflexivity].
    eapply iloc_get_set_ne; eauto. congruence.
Qed.

Lemma get_writes l : forall d r c,
  wf_df d -> in_range d r c = true ->
  iloc_get (writes d l) r c
  = match last_write l r c with
    | Some v => Some (stored v)
    | None => iloc_get d r c
    end.
Proof.
  induction l as [|iv l IH]; intros d r c Hwf Hr; [reflexivity|].
  change (writes d (iv :: l)) with (writes (write_cell d iv) l).
  rewrite IH by (auto using write_cell_wf; rewrite write_cell_in_range; exact Hr).
  simpl. destruct (last_write l r c); [reflexivity|].
  rewrite get_write_cell by assumption.
  destruct (targets (fst iv) r c); reflexivity.
Qed.

Lemma last_write_app l1 l2 r c :
  last_write (l1 ++ l2) r c
  = match last_write l2 r c with
    | Some x => Some x
    | None => last_write l1 r c
    end.
Proof.
  induction l1 as [|iv l1 IH]; simpl.
  - destruct (last_write l2 r c); reflexivity.
  - rewrite IH. destruct (last_write l2 r c); reflexivity.
Qed.

Lemma last_write_Some l r c y :
  last_write l r c = Some y ->
  exists iv, In iv l /\ targets (fst iv) r c = true /\ snd iv = y.
Proof.
  induction l as [|iv l IH]; simpl; [discriminate|].
  destruct (last_write l r c) as [z|] eqn:E.
  - intros [= ->]. destruct (IH eq_refl) as [iv1 [? [? ?]]]. eauto 6.
  - destruct (targets (fst iv) r c) eqn:Et; [|discriminate].
    intros [= <-]. eauto 6.
Qed.

Lemma last_write_None l r c :
  last_write l r c = None ->
  forall iv, In iv l -> targets (fst iv) r c = false.
Proof.
  induction l as [|iv l IH]; simpl; [intros _ ? []|].
  destruct (last_write l r c) as [z|] eqn:E; [discriminate|].
  destruct (targets (fst iv) r c) eqn:Et; [discriminate|].
  intros _ iv0 [<-|Hin]; auto.
Qed.

(** If every write that lands on [(r, c)] carries [x], and one does land
    there, the last one carries [x]. *)
Lemma last_write_all l r c x :
  (forall iv, In iv l -> targets (fst iv) r c = true -> snd iv = x) ->
  (exists iv, In iv l /\ targets (fst iv) r c = true) ->
  last_write l r c = Some x.
Proof.
  intros Hall [iv0 [Hin Ht]].
  destruct (last_write l r c) as [y|] eqn:E.
  - destruct (last_write_Some _ _ _ _ E) as [iv1 [Hin1 [Ht1 <-]]].
    f_equal. auto.
  - rewrite (last_write_None _ _ _ E _ Hin) in Ht. discriminate.
Qed.

(** A valid index lands on its own position, and on no other valid
    index's. *)
Lemma targets_self i : isValid i = true ->
  targets i (Z.to_nat (row i)) (Z.to_nat (column i)) = true.
Proof. intros H. unfold targets. rewrite H, !Nat.eqb_refl. reflexivity. Qed.

Lemma targets_inj i j :
  isValid j = true ->
  targets i (Z.to_nat (row j)) (Z.to_nat (column j)) = true -> i = j.
Proof.
  unfold targets, isValid. rewrite !andb_true_iff, !Z.leb_le, !Nat.eqb_eq.
  destruct i as [ri ci], j as [rj cj]; simpl. intros [? ?] [[[? ?] ?] ?].
  f_equal; lia.
Qed.

Lemma in_bounds_valid d i : in_bounds d i = true -> isValid i = true.
Proof. intros H. apply in_bounds_spec in H. tauto. Qed.

Lemma in_bounds_in_range d i :
  in_bounds d i = true ->
  in_range d (Z.to_nat (row i)) (Z.to_nat (column i)) = true.
Proof. intros H. apply in_bounds_spec in H. tauto. Qed.

(** Reading the cell of an in-bounds index after a run of writes. *)
Lemma cell_at_writes d l i :
  wf_df d -> in_bounds d i = true ->
  cell_at (writes d l) i
  = match last_write l (Z.to_nat (row i)) (Z.to_nat (column i)) with
    | Some v => Some (stored v)
    | None => cell_at d i
    end.
Proof. intros Hwf Hb. apply get_writes; auto using in_bounds_in_range. Qed.

Lemma cell_at_is_Some d i :
  wf_df d -> in_bounds d i = true -> exists v, cell_at d i = Some v.
Proof. intros Hwf Hb. apply iloc_get_is_Some; auto using in_bounds_in_range. Qed.

(** ** The old values a command captures *)

Lemma data_eq w i :
  wf_df (_df w) -> index_ok (_df w) i = true ->
  data i w = Ok (data_of (_df w) i) w.
Proof.
  intros Hwf Hok. unfold data, data_of, index_ok in *.
  destruct (isValid i) eqn:Ev; simpl in *; [|reflexivity].
  destruct (cell_at_is_Some _ _ Hwf Hok) as [v Hv].
  unfold cell_at in Hv |- *. rewrite Hv.
  unfold display_of. destruct (isna v); reflexivity.
Qed.

Lemma capture_old_values_eq w indexes : forall acc,
  wf_df (_df w) -> Forall (fun i => index_ok (_df w) i = true) indexes ->
  capture_old_values indexes acc w = Ok (captured (_df w) indexes acc) w.
Proof.
  induction indexes as [|i l IH]; intros acc Hwf Hall; [reflexivity|].
  inversion Hall as [|? ? Hi Hl]; subst.
  simpl. unfold bind. rewrite data_eq by assumption. apply IH; assumption.
Qed.

Lemma dict_set_In k v d kv :
  In kv (dict_set k v d) -> kv = (k, v) \/ In kv d.
Proof.
  induction d as [|[k' v'] d IH]; simpl.
  - intros [<-|[]]. auto.
  - destruct (bool_decide (k = k')) eqn:E.
    + apply bool_decide_eq_true in E. subst k'.
      intros [<-|Hin]; auto.
    + intros [<-|Hin]; auto. destruct (IH Hin); auto.
Qed.

Lemma dict_set_has_key k v d : exists v', In (k, v') (dict_set k v d).
Proof.
  induction d as [|[k' v'] d [x IH]]; simpl.
  - eauto.
  - destruct (bool_decide (k = k')) eqn:E.
    + apply bool_decide_eq_true in E. subst k'. simpl. eauto.
    + simpl. eauto.
Qed.

Lemma dict_set_keeps_key k v d k0 v0 :
  In (k0, v0) d -> exists v', In (k0, v') (dict_set k v d).
Proof.
  induction d as [|[k' v'] d IH]; simpl; [intros []|].
  destruct (bool_decide (k = k')) eqn:E.
  - apply bool_decide_eq_true in E. subst k'.
    intros [[= <- <-]|Hin]; simpl; eauto.
  - intros [[= <- <-]|Hin]; simpl; eauto.
    destruct (IH Hin) as [x Hx]. eauto.
Qed.

(** Every entry of the captured dict is the display value of its key ... *)
Lemma captured_sound d indexes : forall acc,
  (forall kv, In kv acc -> snd kv = data_of d (fst kv)) ->
  forall kv, In kv (captured d indexes acc) -> snd kv = data_of d (fst kv).
Proof.
  unfold captured.
  induction indexes as [|i l IH]; intros acc Hacc kv Hin; simpl in Hin; [auto|].
  eapply IH; [|exact Hin].
  intros kv' Hin'. destruct (dict_set_In _ _ _ _ Hin') as [->|]; auto.
Qed.

(** ... and every key comes from the list of indexes ... *)
Lemma captured_keys d indexes : forall acc kv,
  In kv (captured d indexes acc) ->
  In (fst kv) indexes \/ In (fst kv) (map fst acc).
Proof.
  unfold captured.
  induction indexes as [|i l IH]; intros acc kv Hin; simpl in Hin.
  - right. apply in_map. exact Hin.
  - destruct (IH _ _ Hin) as [?|Hk]; [left; right; assumption|].
    apply in_map_iff in Hk as [kv' [Hfst Hin']].
    destruct (dict_set_In _ _ _ _ Hin') as [->|Hold].
    + left. left. exact Hfst.
    + right. rewrite <- Hfst. apply in_map. exact Hold.
Qed.

(** ... and every index has an entry. *)
Lemma captured_complete d indexes : forall acc i,
  In i indexes \/ In i (map fst acc) ->
  exists v, In (i, v) (captured d indexes acc).
Proof.
  unfold captured.
  induction indexes as [|j l IH]; intros acc i Hin; simpl.
  - destruct Hin as [[]|Hin]. apply in_map_iff in Hin as [[k v] [<- Hin]]. eauto.
  - apply IH. destruct Hin as [[->|Hin]|Hin]; auto.
    + right. destruct (dict_set_has_key i (data_of d i) acc) as [x Hx].
      apply in_map_iff. exists (i, x). auto.
    + right. apply in_map_iff in Hin as [[k v] [<- Hin]].
      destruct (dict_set_keeps_key j (data_of d j) acc k v Hin) as [x Hx].
      apply in_map_iff. exists (k, x). auto.
Qed.

(** The last write that restoring the captured values makes on the cell
    of a selected index is that cell's display value. *)
Lemma last_write_captured d indexes i :
  In i indexes -> isValid i = true ->
  last_write (captured d indexes []) (Z.to_nat (row i)) (Z.to_nat (column i))
  = Some (data_of d i).
Proof.
  intros Hin Hv. apply last_write_all.
  - intros kv Hkv Ht. apply (targets_inj _ _ Hv) in Ht.
    rewrite (captured_sound d indexes [] (fun _ H => match H with end) kv Hkv).
    congruence.
  - destruct (captured_complete d indexes [] i (or_introl Hin)) as [v Hv'].
    exists (i, v). split; [assumption|]. apply targets_self, Hv.
Qed.

Lemma last_write_const (l : list QModelIndex) (x : value) i :
  In i l -> isValid i = true ->
  last_write (map (fun j => (j, x)) l) (Z.to_nat (row i)) (Z.to_nat (column i))
  = Some x.
Proof.
  intros Hin Hv. apply last_write_all.
  - intros kv Hkv _. apply in_map_iff in Hkv as [j [<- _]]. reflexivity.
  - exists (i, x). split; [apply in_map_iff; eauto|]. apply targets_self, Hv.
Qed.

(** *** The stack after a push *)

Lemma stack_record_top cmd s :
  wf_stack s ->
  exists k, stack_index (stack_record cmd s) = S k
            /\ command_list (stack_record cmd s) !! k = Some cmd
            /\ length (command_list (stack_record cmd s)) = S k.
Proof.
  unfold wf_stack, stack_record. intros Hwf.
  set (l := (take (stack_index s) (command_list s) ++ [cmd])%list).
  assert (Hl : length l = S (stack_index s)).
  { unfold l. rewrite length_app, length_take. simpl. lia. }
  set (del := if (0 <? undo_limit s)%nat && (undo_limit s <? length l)%nat
              then (length l - undo_limit s)%nat else 0%nat).
  assert (Hdel : (del <= stack_index s)%nat).
  { unfold del. destruct (Nat.ltb_spec 0 (undo_limit s)); simpl; [|lia].
    destruct (Nat.ltb_spec (undo_limit s) (length l)); lia. }
  simpl. exists (stack_index s - del)%nat. repeat split.
  - lia.
  - rewrite lookup_drop. unfold l.
    rewrite lookup_app_r by (rewrite length_take; lia).
    rewrite length_take.
    replace (del + (stack_index s - del) - stack_index s `min` length (command_list s))%nat
      with 0%nat by lia.
    reflexivity.
  - rewrite length_drop. lia.
Qed.

Lemma stack_record_wf cmd s : wf_stack s -> wf_stack (stack_record cmd s).
Proof.
  intros Hwf. destruct (stack_record_top cmd s Hwf) as [k [Hi [_ Hl]]].
  unfold wf_stack. lia.
Qed.

(** ** Deleting cells and undoing it *)

Lemma restored_NA : restored NA = NA.
Proof. reflexivity. Qed.

Lemma restored_Str s :
  s <> "" -> s <> no_field_value -> restored (Str s) = Str s.
Proof.
  intros H1 H2. unfold restored, display_of, stored. simpl.
  rewrite !bool_decide_eq_false_2 by assumption. reflexivity.
Qed.

Lemma restored_plain v : plain v -> restored v = v.
Proof.
  intros [->|[s [-> [H1 H2]]]]; [reflexivity|]. apply restored_Str; assumption.
Qed.

Lemma in_bounds_index_ok d i : in_bounds d i = true -> index_ok d i = true.
Proof. intros H. unfold index_ok. rewrite H. apply orb_true_r. Qed.

Lemma new_DeleteCellsCommand_eq w sel :
  wf_df (_df w) -> Forall (fun i => index_ok (_df w) i = true) sel ->
  new_DeleteCellsCommand sel w
  = Ok (DeleteCellsCommand sel (captured (_df w) sel [])) w.
Proof.
  intros Hwf Hall. unfold new_DeleteCellsCommand, bind.
  rewrite capture_old_values_eq by assumption. reflexivity.
Qed.

Lemma new_PasteMultipleCellsCommand_eq w sel v :
  wf_df (_df w) -> Forall (fun i => index_ok (_df w) i = true) sel ->
  new_PasteMultipleCellsCommand sel v w
  = Ok (PasteMultipleCellsCommand sel v (captured (_df w) sel [])) w.
Proof.
  intros Hwf Hall. unfold new_PasteMultipleCellsCommand, bind.
  rewrite capture_old_values_eq by assumption. reflexivity.
Qed.

Lemma pushed_df cmd w : _df (pushed cmd w) = writes (_df w) (redo_writes (_df w) cmd).
Proof. unfold pushed. simpl. rewrite flagged_steps_df. reflexivity. Qed.

Lemma undone_df k cmd w : _df (undone k cmd w) = writes (_df w) (undo_writes cmd).
Proof. unfold undone. simpl. rewrite flagged_steps_df. reflexivity. Qed.

Lemma pushed_undo_stack cmd w :
  undo_stack (pushed cmd w) = stack_record cmd (undo_stack w).
Proof. reflexivity. Qed.

(** One undo right after a push undoes the pushed command. *)
Lemma undo_after_push fuel cmd w :
  wf_stack (undo_stack w) ->
  exists k, undo fuel (pushed cmd w) = Ok tt (undone k cmd (pushed cmd w)).
Proof.
  intros Hwf.
  destruct (stack_record_top cmd (undo_stack w) Hwf) as [k [Hi [Hc _]]].
  exists k. apply undo_eq; assumption.
Qed.

(** After a multi-cell command captured on [d] is undone, each cell it
    selected holds its restored value. *)
Lemma cell_after_restore d d1 sel i v :
  wf_df d1 -> in_bounds d1 i = true ->
  In i sel -> cell_at d i = Some v ->
  cell_at (writes d1 (captured d sel [])) i = Some (restored v).
Proof.
  intros Hwf Hb Hin Hv.
  rewrite cell_at_writes by assumption.
  rewrite last_write_captured by eauto using in_bounds_valid.
  unfold data_of. rewrite (in_bounds_valid _ _ Hb), Hv. reflexivity.
Qed.

Lemma cell_after_const d (sel : list QModelIndex) x i :
  wf_df d -> in_bounds d i = true -> In i sel ->
  cell_at (writes d (map (fun j => (j, x)) sel)) i = Some (stored x).
Proof.
  intros Hwf Hb Hin. rewrite cell_at_writes by assumption.
  rewrite last_write_const by eauto using in_bounds_valid. reflexivity.
Qed.

(** C5 (amended): one delete operation on in-bounds cells records exactly
    one command, and one undo of it runs to the end.  On a table of text
    columns the delete blanks every selected cell, and the undo gives
    every selected cell its restored value: the prior value itself when
    that was missing or a string other than the empty string and the "no
    field value" literal, and the blank-normalised display string
    otherwise (an empty string comes back as [pd.NA]). *)
Theorem delete_cells_then_undo (fuel : nat) (sel : list QModelIndex) (w : World) :
  wf_df (_df w) -> wf_stack (undo_stack w) ->
  Forall (fun i => in_bounds (_df w) i = true) sel ->
  exists old w1 w2,
    clear_selected_cells fuel sel w = Ok tt w1
    /\ undo_stack w1 = stack_record (DeleteCellsCommand sel old) (undo_stack w)
    /\ undo fuel w1 = Ok tt w2
    /\ (text_columns (_df w) = true ->
        forall i v, In i sel -> cell_at (_df w) i = Some v ->
          cell_at (_df w1) i = Some NA
          /\ cell_at (_df w2) i = Some (restored v)
          /\ (plain v -> cell_at (_df w2) i = Some v)).
Proof.
  intros Hwf Hst Hall.
  assert (Hok : Forall (fun i => index_ok (_df w) i = true) sel).
  { eapply Forall_impl; [exact Hall|]. intros i. apply in_bounds_index_ok. }
  set (cmd := DeleteCellsCommand sel (captured (_df w) sel [])).
  destruct (undo_after_push fuel cmd w Hst) as [k Hundo].
  exists (captured (_df w) sel []), (pushed cmd w), (undone k cmd (pushed cmd w)).
  split; [|split; [reflexivity|split; [exact Hundo|]]].
  - unfold clear_selected_cells, try_except, bind.
    rewrite new_DeleteCellsCommand_eq by assumption. rewrite push_eq. reflexivity.
  - intros Htext i v Hin Hv.
    assert (Hb : in_bounds (_df w) i = true).
    { rewrite List.Forall_forall in Hall. apply Hall, Hin. }
    assert (H1 : cell_at (_df (pushed cmd w)) i = Some NA).
    { rewrite pushed_df. apply (cell_after_const _ sel (Str "")); assumption. }
    assert (H2 : cell_at (_df (undone k cmd (pushed cmd w))) i = Some (restored v)).
    { rewrite undone_df, pushed_df. simpl undo_writes.
      apply cell_after_restore; auto using writes_wf.
      rewrite writes_in_bounds. exact Hb. }
    split; [exact H1|]. split; [exact H2|].
    intros Hp. rewrite H2, (restored_plain v Hp). reflexivity.
Qed.

Lemma wf_frame3x3 : wf_df frame3x3.
Proof. repeat constructor. Defined.

Lemma plain_Str_example s : s <> "" -> s <> no_field_value -> plain (Str s).
Proof. intros H1 H2. right. exists s. auto. Defined.

Lemma delete_cells_then_undo_witness :
  exists old w1 w2,
    clear_selected_cells 1 [mkIndex 1 1; mkIndex 0 2; mkIndex 2 0] (loaded frame3x3) = Ok tt w1
    /\ undo_stack w1
       = stack_record (DeleteCellsCommand [mkIndex 1 1; mkIndex 0 2; mkIndex 2 0] old)
           (undo_stack (loaded frame3x3))
    /\ undo 1 w1 = Ok tt w2
    /\ cell_at (_df w1) (mkIndex 1 1) = Some NA
    /\ cell_at (_df w1) (mkIndex 0 2) = Some NA
    /\ cell_at (_df w1) (mkIndex 2 0) = Some NA
    /\ cell_at (_df w2) (mkIndex 1 1) = Some NA
    /\ cell_at (_df w2) (mkIndex 0 2) = Some (Str "c0")
    /\ cell_at (_df w2) (mkIndex 2 0) = Some (restored (Num 7)).
Proof.
  destruct (delete_cells_then_undo 1 [mkIndex 1 1; mkIndex 0 2; mkIndex 2 0] (loaded frame3x3))
    as (old & w1 & w2 & H1 & H2 & H3 & H4).
  - exact wf_frame3x3.
  - unfold wf_stack. simpl. lia.
  - repeat constructor.
  - assert (Htext : text_columns (_df (loaded frame3x3)) = true) by reflexivity.
    specialize (H4 Htext).
    destruct (H4 (mkIndex 1 1) NA) as (A1 & _ & A3); [simpl; auto|reflexivity|].
    destruct (H4 (mkIndex 0 2) (Str "c0")) as (B1 & _ & B3); [simpl; auto|reflexivity|].
    destruct (H4 (mkIndex 2 0) (Num 7)) as (C1 & C2 & _); [simpl; auto|reflexivity|].
    exists old, w1, w2. repeat split; try assumption.
    + apply A3. left. reflexivity.
    + apply B3. apply plain_Str_example; discriminate.
Defined.

(** C5 as stated fails: the cell at row 1, column 2 holds the empty string;
    after one delete and one undo it holds [pd.NA]. *)
Lemma delete_cells_loses_empty_string :
  exists w1 w2,
    clear_selected_cells 1 [mkIndex 1 2] (loaded frame3x3) = Ok tt w1
    /\ undo 1 w1 = Ok tt w2
    /\ length (command_list (undo_stack w1)) = 1%nat
    /\ cell_at (_df (loaded frame3x3)) (mkIndex 1 2) = Some (Str "")
    /\ cell_at (_df w2) (mkIndex 1 2) = Some NA
    /\ cell_at (_df w2) (mkIndex 1 2) <> cell_at (_df (loaded frame3x3)) (mkIndex 1 2).
Proof.
  eexists. eexists. vm_compute. repeat split; try reflexivity. discriminate.
Qed.

(** ** Region paste *)

Lemma model_index_targets d a b r c :
  in_range d r c = true ->
  targets (model_index d a b) r c
  = bool_decide (a = Z.of_nat r) && bool_decide (b = Z.of_nat c).
Proof.
  intros Hr. unfold model_index, hasIndex, rowCount, columnCount.
  unfold in_range in Hr. apply andb_true_iff in Hr as [Hr Hc].
  apply Nat.ltb_lt in Hr, Hc.
  destruct (Z.leb_spec 0 a), (Z.leb_spec 0 b); simpl;
    try (unfold targets; simpl;
         repeat case_bool_decide; try reflexivity; lia).
  destruct (Z.ltb_spec a (Z.of_nat (length (rows d)))),
           (Z.ltb_spec b (Z.of_nat (length (columns d)))); simpl;
    unfold targets, isValid; simpl;
    repeat case_bool_decide; subst;
    repeat match goal with
           | |- context [Z.leb ?x ?y] => destruct (Z.leb_spec x y)
           | |- context [Nat.eqb ?x ?y] => destruct (Nat.eqb_spec x y)
           end; simpl; try reflexivity; try lia.
Qed.

Lemma row_targets_last d start_index r0 line : forall c0 r c,
  in_range d r c = true ->
  last_write (row_targets d start_index r0 c0 line) r c
  = if bool_decide (row start_index + r0 = Z.of_nat r)
    then let dc := Z.of_nat c - column start_index - c0 in
         if 0 <=? dc then Str <$> line !! Z.to_nat dc else None
    else None.
Proof.
  induction line as [|s line IH]; intros c0 r c Hr; simpl.
  - case_bool_decide; [|reflexivity]. destruct (0 <=? _); reflexivity.
  - rewrite last_write_app, (IH (c0 + 1) r c Hr).
    assert (Hhead :
      last_write (if isValid (model_index d (row start_index + r0) (column start_index + c0))
                  then [(model_index d (row start_index + r0) (column start_index + c0), Str s)]
                  else []) r c
      = if bool_decide (row start_index + r0 = Z.of_nat r)
           && bool_decide (column start_index + c0 = Z.of_nat c)
        then Some (Str s) else None).
    { destruct (isValid (model_index d _ _)) eqn:Ev; simpl.
      - rewrite model_index_targets by assumption. reflexivity.
      - rewrite <- (model_index_targets d _ _ r c Hr).
        unfold targets. rewrite Ev. reflexivity. }
    rewrite Hhead. clear Hhead IH.
    case_bool_decide as Hrow; simpl; [|reflexivity].
    destruct (Z.leb_spec 0 (Z.of_nat c - column start_index - (c0 + 1))) as [Hge|Hlt].
    + rewrite (proj2 (Z.leb_le 0 (Z.of_nat c - column start_index - c0))) by lia.
      replace (Z.to_nat (Z.of_nat c - column start_index - c0))
        with (S (Z.to_nat (Z.of_nat c - column start_index - (c0 + 1)))) by lia.
      simpl. rewrite bool_decide_eq_false_2 by lia.
      destruct (line !! _); reflexivity.
    + case_bool_decide as Hcol.
      * rewrite (proj2 (Z.leb_le 0 (Z.of_nat c - column start_index - c0))) by lia.
        replace (Z.to_nat (Z.of_nat c - column start_index - c0)) with 0%nat by lia.
        reflexivity.
      * rewrite (proj2 (Z.leb_gt 0 (Z.of_nat c - column start_index - c0))) by lia.
        reflexivity.
Qed.

Lemma paste_targets_last d start_index paste_data : forall r0 r c,
  in_range d r c = true ->
  last_write (paste_targets d start_index r0 paste_data) r c
  = let dr := Z.of_nat r - row start_index - r0 in
    let dc := Z.of_nat c - column start_index in
    if (0 <=? dr) && (0 <=? dc)
    then Str <$> (paste_data !! Z.to_nat dr ≫= (fun line => line !! Z.to_nat dc))
    else None.
Proof.
  induction paste_data as [|line rest IH]; intros r0 r c Hr; simpl.
  - destruct (_ && _); reflexivity.
  - rewrite last_write_app, (IH (r0 + 1) r c Hr), (row_targets_last d _ _ _ 0 r c Hr).
    cbv zeta. clear IH.
    replace (Z.of_nat c - column start_index - 0) with (Z.of_nat c - column start_index) by lia.
    destruct (Z.leb_spec 0 (Z.of_nat c - column start_index)) as [Hc|Hc];
      rewrite ?andb_false_r, ?andb_true_r.
    + destruct (Z.leb_spec 0 (Z.of_nat r - row start_index - (r0 + 1))) as [Hge|Hlt].
      * rewrite (proj2 (Z.leb_le 0 (Z.of_nat r - row start_index - r0))) by lia.
        replace (Z.to_nat (Z.of_nat r - row start_index - r0))
          with (S (Z.to_nat (Z.of_nat r - row start_index - (r0 + 1)))) by lia.
        simpl. rewrite bool_decide_eq_false_2 by lia.
        destruct (rest !! _ ≫= _); reflexivity.
      * case_bool_decide as Hrow.
        -- rewrite (proj2 (Z.leb_le 0 (Z.of_nat r - row start_index - r0))) by lia.
           replace (Z.to_nat (Z.of_nat r - row start_index - r0)) with 0%nat by lia.
           reflexivity.
        -- rewrite (proj2 (Z.leb_gt 0 (Z.of_nat r - row start_index - r0))) by lia.
           reflexivity.
    + case_bool_decide; reflexivity.
Qed.

Lemma model_index_ok d a b : index_ok d (model_index d a b) = true.
Proof.
  unfold index_ok, model_index, in_bounds.
  destruct (hasIndex d a b) eqn:E; simpl; [|reflexivity].
  rewrite E. apply orb_true_r.
Qed.






(** The spec's example: a 2x2 block anchored at (2,2) on a 3x3 table
    writes the one cell that is in bounds. *)
Example paste_2x2_at_2_2 :
  match push 1 (PasteCellsCommand [["p"; "q"]; ["r"; "s"]] (mkIndex 2 2) []) (loaded frame3x3) with
  | Ok _ w1 => rows (_df w1)
  | _ => []
  end
  = [ [Str "a0"; Str "b0"; Str "c0"];
      [Str "a1"; NA;       Str ""  ];
      [Num 7;    Str "b2"; Str "p"] ].
Proof. vm_compute. reflexivity. Qed.

(** ** Scalar paste *)

Lemma split_not_nil sep s : split sep s <> [].
Proof.
  destruct s as [|a s]; simpl; [discriminate|].
  case_bool_decide; [discriminate|]. destruct (split sep s); discriminate.
Qed.

(** A split with one piece gives back the string. *)
Lemma split_singleton sep s : forall v, split sep s = [v] -> v = s.
Proof.
  induction s as [|a s IH]; intros v; simpl.
  - intros [= <-]. reflexivity.
  - case_bool_decide.
    + intros [= _ H']. destruct (split_not_nil _ _ H').
    + destruct (split sep s) as [|h t] eqn:E; [destruct (split_not_nil _ _ E)|].
      intros [= <- ->]. f_equal. apply IH. reflexivity.
Qed.

(** A payload of one row and one column is a non-empty string. *)
Lemma parse_clipboard_single text v :
  parse_clipboard text = [[v]] -> v <> "" /\ text <> "".
Proof.
  unfold parse_clipboard. intros H.
  destruct (filter _ _) as [|line [|line' rest]] eqn:E; simpl in H; try discriminate.
  injection H as H. apply split_singleton in H. subst line. split.
  - assert (Hin : v ∈ filter (fun line => strip line <> "") (split newline (strip text))).
    { rewrite E. apply list_elem_of_here. }
    apply list_elem_of_filter in Hin as [Hne _].
    intros ->. apply Hne. reflexivity.
  - intros ->. vm_compute in E. discriminate.
Qed.

Lemma stored_Str s :
  s <> "" -> s <> no_field_value -> stored (Str s) = Str s.
Proof.
  intros H1 H2. unfold stored. rewrite !bool_decide_eq_false_2 by assumption.
  reflexivity.
Qed.

(** C7 (amended): a clipboard payload of exactly one row and one column,
    pasted into any selection of in-bounds cells, records exactly one
    command, and one undo of it runs to the end.  On a table of text
    columns the paste writes the value into every selected cell ([pd.NA]
    when the payload is the "no field value" literal), and the undo gives
    every selected cell its restored value: the prior value itself when
    that was missing or a string other than the empty string and the "no
    field value" literal. *)
Theorem paste_scalar_then_undo (fuel : nat) (sel : list QModelIndex)
    (text v : string) (w : World) :
  wf_df (_df w) -> wf_stack (undo_stack w) ->
  Forall (fun i => in_bounds (_df w) i = true) sel ->
  parse_clipboard text = [[v]] ->
  exists old w1 w2,
    paste_clipboard_data fuel sel text w = Ok tt w1
    /\ undo_stack w1 = stack_record (PasteMultipleCellsCommand sel v old) (undo_stack w)
    /\ undo fuel w1 = Ok tt w2
    /\ (text_columns (_df w) = true ->
        forall i x, In i sel -> cell_at (_df w) i = Some x ->
          cell_at (_df w1) i = Some (stored (Str v))
          /\ (v <> no_field_value -> cell_at (_df w1) i = Some (Str v))
          /\ cell_at (_df w2) i = Some (restored x)
          /\ (plain x -> cell_at (_df w2) i = Some x)).
Proof.
  intros Hwf Hst Hall Hparse.
  destruct (parse_clipboard_single _ _ Hparse) as [Hv Htext].
  assert (Hok : Forall (fun i => index_ok (_df w) i = true) sel).
  { eapply Forall_impl; [exact Hall|]. intros i. apply in_bounds_index_ok. }
  set (cmd := PasteMultipleCellsCommand sel v (captured (_df w) sel [])).
  destruct (undo_after_push fuel cmd w Hst) as [k Hundo].
  exists (captured (_df w) sel []), (pushed cmd w), (undone k cmd (pushed cmd w)).
  split; [|split; [reflexivity|split; [exact Hundo|]]].
  - unfold paste_clipboard_data, try_except.
    rewrite bool_decide_eq_false_2 by assumption. rewrite Hparse. unfold bind.
    rewrite new_PasteMultipleCellsCommand_eq by assumption. rewrite push_eq.
    reflexivity.
  - intros Hcols i x Hin Hx.
    assert (Hb : in_bounds (_df w) i = true).
    { rewrite List.Forall_forall in Hall. apply Hall, Hin. }
    assert (H1 : cell_at (_df (pushed cmd w)) i = Some (stored (Str v))).
    { rewrite pushed_df. apply (cell_after_const _ sel (Str v)); assumption. }
    assert (H2 : cell_at (_df (undone k cmd (pushed cmd w))) i = Some (restored x)).
    { rewrite undone_df, pushed_df. simpl undo_writes.
      apply cell_after_restore; auto using writes_wf.
      rewrite writes_in_bounds. exact Hb. }
    split; [exact H1|]. split; [|split; [exact H2|]].
    + intros Hnf. rewrite H1, stored_Str by assumption. reflexivity.
    + intros Hp. rewrite H2, (restored_plain x Hp). reflexivity.
Qed.

Lemma paste_scalar_then_undo_witness :
  exists old w1 w2,
    paste_clipboard_data 1 selection3x3 (String "x" (String newline "")) (loaded frame3x3)
    = Ok tt w1
    /\ undo_stack w1
       = stack_record (PasteMultipleCellsCommand selection3x3 "x" old)
           (undo_stack (loaded frame3x3))
    /\ undo 1 w1 = Ok tt w2
    /\ cell_at (_df w1) (mkIndex 0 0) = Some (Str "x")
    /\ cell_at (_df w1) (mkIndex 1 1) = Some (Str "x")
    /\ cell_at (_df w2) (mkIndex 0 0) = Some (Str "a0")
    /\ cell_at (_df w2) (mkIndex 1 1) = Some NA
    /\ cell_at (_df w2) (mkIndex 1 2) = Some (restored (Str "")).
Proof.
  destruct (paste_scalar_then_undo 1 selection3x3 (String "x" (String newline "")) "x"
              (loaded frame3x3)) as (old & w1 & w2 & H1 & H2 & H3 & H4).
  - exact wf_frame3x3.
  - unfold wf_stack. simpl. lia.
  - repeat constructor.
  - reflexivity.
  - assert (Htext : text_columns (_df (loaded frame3x3)) = true) by reflexivity.
    specialize (H4 Htext).
    destruct (H4 (mkIndex 0 0) (Str "a0")) as (_ & A2 & _ & A4); [simpl; auto|reflexivity|].
    destruct (H4 (mkIndex 1 1) NA) as (_ & B2 & _ & B4); [simpl; auto 10|reflexivity|].
    destruct (H4 (mkIndex 1 2) (Str "")) as (_ & _ & C3 & _); [simpl; auto 10|reflexivity|].
    exists old, w1, w2. repeat split; try assumption.
    + apply A2. discriminate.
    + apply B2. discriminate.
    + apply A4. apply plain_Str_example; discriminate.
    + apply B4. left. reflexivity.
Defined.

(** C7 as stated fails: the scalar ["x"] pasted over the 3x3 selection and
    undone leaves [pd.NA] where the empty string was, the string ["7"]
    where the number 7 was, and [pd.NA] where the "no field value"
    literal was. *)
Lemma paste_scalar_undo_not_exact :
  exists w1 w2,
    paste_clipboard_data 1 selection3x3 "x" (loaded frame3x3) = Ok tt w1
    /\ undo 1 w1 = Ok tt w2
    /\ length (command_list (undo_stack w1)) = 1%nat
    /\ rows (_df w1) = [ [Str "x"; Str "x"; Str "x"];
                         [Str "x"; Str "x"; Str "x"];
                         [Str "x"; Str "x"; Str "x"] ]
    /\ rows (_df (loaded frame3x3))
       = [ [Str "a0"; Str "b0"; Str "c0"];
           [Str "a1"; NA;       Str ""  ];
           [Num 7;    Str "b2"; Str no_field_value] ]
    /\ rows (_df w2)
       = [ [Str "a0"; Str "b0"; Str "c0"];
           [Str "a1"; NA;       NA      ];
           [Str "7";  Str "b2"; NA      ] ]
    /\ cell_at (_df w2) (mkIndex 1 2) <> cell_at (_df (loaded frame3x3)) (mkIndex 1 2).
Proof.
  eexists. eexists. vm_compute. repeat split; try reflexivity. discriminate.
Qed.

(** ** The suppression flag *)

Lemma only_flagged_flagged p i v w :
  ignore_undo w = true ->
  exists b, only_flagged (setData_with p) i v w = Ok b (flagged_step w (i, v)).
Proof. intros Hf. unfold only_flagged. rewrite Hf. apply setData_with_flagged, Hf. Qed.

Lemma cmd_redo_only_flagged p cmd w :
  cmd_redo_with (only_flagged (setData_with p)) cmd w
  = Ok tt (apply_writes w (redo_writes (_df w) cmd)).
Proof. apply cmd_redo_flagged. intros. apply only_flagged_flagged. assumption. Qed.

Lemma cmd_undo_only_flagged p cmd w :
  cmd_undo_with (only_flagged (setData_with p)) cmd w
  = Ok tt (apply_writes w (undo_writes cmd)).
Proof. apply cmd_undo_flagged. intros. apply only_flagged_flagged. assumption. Qed.

Lemma undo_total fuel w :
  exists w1, undo fuel w = Ok tt w1
             /\ command_list (undo_stack w1) = command_list (undo_stack w).
Proof.
  unfold undo, QUndoStack_undo.
  destruct (stack_index (undo_stack w)) as [|k] eqn:Hi; [exists w; auto|].
  destruct (command_list (undo_stack w) !! k) as [cmd|] eqn:Hc; [|exists w; auto].
  unfold bind. fold (cmd_undo fuel). rewrite cmd_undo_eq.
  eexists. split; [reflexivity|]. simpl.
  rewrite flagged_steps_undo_stack. auto.
Qed.

Lemma redo_total fuel w :
  exists w1, redo fuel w = Ok tt w1
             /\ command_list (undo_stack w1) = command_list (undo_stack w).
Proof.
  unfold redo, QUndoStack_redo.
  destruct (command_list (undo_stack w) !! stack_index (undo_stack w)) as [cmd|] eqn:Hc;
    [|exists w; auto].
  unfold bind. fold (cmd_redo fuel). rewrite cmd_redo_eq.
  eexists. split; [reflexivity|]. simpl.
  rewrite flagged_steps_undo_stack. auto.
Qed.

(** C9: a command's [undo] and [redo] run to the end with a stack whose
    [push] would get stuck, and with a [setData] that would get stuck if
    called while the flag is down: every mutation they make happens under
    the flag and none pushes.  They leave the stack as it was and the flag
    down.  [setData] itself, called with the flag up, never reaches
    [push].  The stack's own [undo] and [redo] keep the list of commands. *)
Theorem no_push_during_undo_redo (fuel : nat) (cmd : Command)
    (i : QModelIndex) (v : value) (w : World) :
  (exists w1,
      cmd_undo_with (only_flagged (setData_with never_push)) cmd w = Ok tt w1
      /\ cmd_undo fuel cmd w = Ok tt w1
      /\ undo_stack w1 = undo_stack w /\ ignore_undo w1 = false)
  /\ (exists w1,
      cmd_redo_with (only_flagged (setData_with never_push)) cmd w = Ok tt w1
      /\ cmd_redo fuel cmd w = Ok tt w1
      /\ undo_stack w1 = undo_stack w /\ ignore_undo w1 = false)
  /\ (exists b w1,
      setData_with never_push i v (set_ignore_undo true w) = Ok b w1
      /\ setData fuel i v (set_ignore_undo true w) = Ok b w1
      /\ undo_stack w1 = undo_stack w)
  /\ (exists w1, undo fuel w = Ok tt w1
      /\ command_list (undo_stack w1) = command_list (undo_stack w))
  /\ (exists w1, redo fuel w = Ok tt w1
      /\ command_list (undo_stack w1) = command_list (undo_stack w)).
Proof.
  repeat split.
  - exists (apply_writes w (undo_writes cmd)).
    rewrite cmd_undo_only_flagged, cmd_undo_eq.
    repeat split. apply apply_writes_undo_stack.
  - exists (apply_writes w (redo_writes (_df w) cmd)).
    rewrite cmd_redo_only_flagged, cmd_redo_eq.
    repeat split. apply apply_writes_undo_stack.
  - assert (Hf : ignore_undo (set_ignore_undo true w) = true) by reflexivity.
    destruct (setData_with_flagged never_push i v _ Hf) as [b Hb].
    exists b, (flagged_step (set_ignore_undo true w) (i, v)).
    split; [exact Hb|]. split.
    + rewrite setData_unfold.
      destruct (setData_with_flagged
                  (match fuel with
                   | O => fun _ _ => OutOfFuel
                   | S n => QUndoStack_push (cmd_redo_with (setData n))
                   end) i v _ Hf) as [b' Hb'].
      rewrite Hb'. f_equal.
      unfold setData_with in Hb, Hb'. simpl in Hb, Hb'.
      destruct (isValid i); simpl in *; [|congruence].
      unfold store_and_emit in *. destruct (iloc_set _ _ _ _); congruence.
    + rewrite flagged_step_undo_stack. reflexivity.
  - apply undo_total.
  - apply redo_total.
Qed.

(** ** The set-cell path and [push] *)

Lemma stack_record_bound cmd s :
  (0 < undo_limit s)%nat ->
  (length (command_list (stack_record cmd s)) <= undo_limit s)%nat.
Proof.
  intros Hl. unfold stack_record. simpl.
  rewrite (proj2 (Nat.ltb_lt 0 (undo_limit s)) Hl). simpl.
  rewrite length_drop.
  destruct (Nat.ltb_spec (undo_limit s)
              (length (take (stack_index s) (command_list s) ++ [cmd]))); lia.
Qed.

(** The set-cell path when the value differs: what it does with [push]. *)
Lemma setData_with_differs p i v old w :
  isValid i = true -> ignore_undo w = false -> model_undo_stack w = true ->
  cell_at (_df w) i = Some old ->
  values_differ old (new_value_of v) = true ->
  setData_with p i v w
  = match p (EditCellCommand i old (new_value_of v)) w with
    | Ok _ w' => Ok true w'
    | Raise _ w' => Ok false w'
    | OutOfFuel => OutOfFuel
    end.
Proof.
  intros Hv Hf Hm Hc Hd. unfold setData_with. unfold cell_at in Hc.
  rewrite Hv, Hf, Hc, Hd, Hm. reflexivity.
Qed.

(** The set-cell path when the value does not differ. *)
Lemma setData_same fuel i v old w :
  isValid i = true -> ignore_undo w = false ->
  cell_at (_df w) i = Some old ->
  values_differ old (new_value_of v) = false ->
  setData fuel i v w = Ok false w.
Proof.
  intros Hv Hf Hc Hd. rewrite setData_unfold. unfold setData_with.
  unfold cell_at in Hc. rewrite Hv, Hf, Hc, Hd. reflexivity.
Qed.




(** ** Setting a cell to the value it has *)

(** A cell that is missing stays untouched by a blank edit, a cell that
    holds a non-empty string by the same string: nothing is pushed,
    nothing changes, nothing is emitted. *)
Lemma set_same_value_is_noop fuel i v old w :
  isValid i = true -> ignore_undo w = false ->
  cell_at (_df w) i = Some old ->
  (old = NA /\ (v = NA \/ v = Str "")) \/ (old = v /\ v <> Str "") ->
  setData fuel i v w = Ok false w.
Proof.
  intros Hv Hf Hc Hcase. apply (setData_same fuel i v old w Hv Hf Hc).
  destruct Hcase as [[-> [->| ->]]|[-> Hne]]; try reflexivity.
  unfold values_differ, new_value_of.
  destruct v as [|s|z|]; simpl; try reflexivity;
    try (rewrite bool_decide_eq_true_2; reflexivity).
  case_bool_decide; [congruence|]. simpl.
  rewrite bool_decide_eq_true_2; reflexivity.
Qed.

(** C6 at the failing input: the cell at row 1, column 2 holds the empty
    string and is set to the empty string.  The call answers [True],
    pushes an [EditCell] command, turns the cell into [pd.NA] and emits
    both change signals. *)
Lemma set_empty_string_over_empty_string :
  cell_at (_df (loaded frame3x3)) (mkIndex 1 2) = Some (Str "")
  /\ exists w1,
       edit_cell 1 (mkIndex 1 2) "" (loaded frame3x3) = Ok true w1
       /\ command_list (undo_stack w1) = [EditCellCommand (mkIndex 1 2) (Str "") NA]
       /\ cell_at (_df w1) (mkIndex 1 2) = Some NA
       /\ emitted w1 = [dataChanged (mkIndex 1 2) (mkIndex 1 2); dataChangedSignal].
Proof.
  split; [reflexivity|]. eexists. vm_compute. repeat split; reflexivity.
Qed.

(** ** Undo and redo, several times *)

Lemma redo_writes_shape d d' cmd :
  (forall a b, hasIndex d' a b = hasIndex d a b) ->
  redo_writes d' cmd = redo_writes d cmd.
Proof.
  intros H. destruct cmd; simpl; try reflexivity.
  apply paste_targets_shape, H.
Qed.

Lemma redo_writes_writes d l cmd : redo_writes (writes d l) cmd = redo_writes d cmd.
Proof. apply redo_writes_shape. intros. apply writes_hasIndex. Qed.

(** [n] undos in a row undo the last [n] commands below the pointer, the
    latest first. *)
Lemma undo_times fuel : forall n w,
  (n <= stack_index (undo_stack w))%nat -> wf_stack (undo_stack w) ->
  exists w',
    times n (undo fuel) w = Ok tt w'
    /\ _df w' = writes (_df w)
         (flat_map undo_writes
            (rev (take n (drop (stack_index (undo_stack w) - n) (command_list (undo_stack w))))))
    /\ command_list (undo_stack w') = command_list (undo_stack w)
    /\ stack_index (undo_stack w') = (stack_index (undo_stack w) - n)%nat
    /\ undo_limit (undo_stack w') = undo_limit (undo_stack w).
Proof.
  induction n as [|n IH]; intros w Hn Hwf.
  - exists w. simpl. rewrite Nat.sub_0_r. repeat split; reflexivity.
  - destruct (stack_index (undo_stack w)) as [|k] eqn:Hi; [lia|].
    assert (Hk : (k < length (command_list (undo_stack w)))%nat)
      by (unfold wf_stack in Hwf; lia).
    destruct (lookup_lt_is_Some_2 _ _ Hk) as [cmd Hc].
    pose proof (undo_eq fuel w k cmd Hi Hc) as Hu.
    destruct (IH (undone k cmd w)) as [w' [Ht [Hd [Hl [Hx Hlim]]]]].
    + simpl. lia.
    + unfold wf_stack. simpl. lia.
    + exists w'. simpl times. unfold bind. rewrite Hu.
      split; [exact Ht|].
      assert (Hcl : command_list (undo_stack (undone k cmd w)) = command_list (undo_stack w))
        by reflexivity.
      assert (Hix : stack_index (undo_stack (undone k cmd w)) = k) by reflexivity.
      assert (Hlm : undo_limit (undo_stack (undone k cmd w)) = undo_limit (undo_stack w))
        by reflexivity.
      rewrite Hcl in Hd, Hl. rewrite Hix in Hd, Hx. rewrite Hlm in Hlim.
      repeat split; try assumption.
      rewrite Hd, undone_df. rewrite <- writes_app. f_equal.
      replace (S k - S n)%nat with (k - n)%nat by lia.
      rewrite (take_S_r _ _ cmd).
      * rewrite rev_app_distr. reflexivity.
      * rewrite lookup_drop. replace (k - n + n)%nat with k by lia. exact Hc.
Qed.

(** [n] redos in a row redo the next [n] commands, the earliest first. *)
Lemma redo_times fuel : forall n w,
  (stack_index (undo_stack w) + n <= length (command_list (undo_stack w)))%nat ->
  exists w',
    times n (redo fuel) w = Ok tt w'
    /\ _df w' = writes (_df w)
         (flat_map (redo_writes (_df w))
            (take n (drop (stack_index (undo_stack w)) (command_list (undo_stack w)))))
    /\ command_list (undo_stack w') = command_list (undo_stack w)
    /\ stack_index (undo_stack w') = (stack_index (undo_stack w) + n)%nat
    /\ undo_limit (undo_stack w') = undo_limit (undo_stack w).
Proof.
  induction n as [|n IH]; intros w Hn.
  - exists w. simpl. rewrite Nat.add_0_r. repeat split; reflexivity.
  - assert (Hk : (stack_index (undo_stack w) < length (command_list (undo_stack w)))%nat) by lia.
    destruct (lookup_lt_is_Some_2 _ _ Hk) as [cmd Hc].
    pose proof (redo_eq fuel w cmd Hc) as Hr.
    set (w1 := set_undo_stack (stack_at (S (stack_index (undo_stack w))) (undo_stack w))
                 (apply_writes w (redo_writes (_df w) cmd))) in *.
    assert (Hcl : command_list (undo_stack w1) = command_list (undo_stack w)) by reflexivity.
    assert (Hix : stack_index (undo_stack w1) = S (stack_index (undo_stack w))) by reflexivity.
    assert (Hlm : undo_limit (undo_stack w1) = undo_limit (undo_stack w)) by reflexivity.
    assert (Hdf : _df w1 = writes (_df w) (redo_writes (_df w) cmd)).
    { unfold w1. simpl. rewrite flagged_steps_df. reflexivity. }
    destruct (IH w1) as [w' [Ht [Hd [Hl [Hx Hlim]]]]]; [rewrite Hcl, Hix; lia|].
    exists w'. simpl times. unfold bind. rewrite Hr.
    split; [exact Ht|].
    rewrite Hcl in Hd, Hl. rewrite Hix in Hd, Hx. rewrite Hlm in Hlim.
    repeat split; try assumption; try lia.
    rewrite Hd, Hdf. rewrite <- writes_app. f_equal.
    rewrite (drop_S _ cmd _ Hc). simpl. f_equal.
    apply flat_map_ext. intros c. apply redo_writes_writes.
Qed.

Lemma last_write_flat_map_None {A} (f : A -> list (QModelIndex * value)) l r c :
  last_write (flat_map f l) r c = None ->
  forall x, In x l -> last_write (f x) r c = None.
Proof.
  induction l as [|y l IH]; simpl; [intros _ ? []|].
  rewrite last_write_app.
  destruct (last_write (flat_map f l) r c) eqn:E; [discriminate|].
  intros Hy x [<-|Hin]; auto.
Qed.

Lemma last_write_flat_map_Some {A} (f : A -> list (QModelIndex * value)) l r c :
  last_write (flat_map f l) r c <> None ->
  exists x, In x l /\ last_write (f x) r c <> None.
Proof.
  induction l as [|y l IH]; simpl; [congruence|].
  rewrite last_write_app.
  destruct (last_write (flat_map f l) r c) eqn:E.
  - intros _. destruct IH as [x [Hin Hx]]; [congruence|]. eauto.
  - intros Hy. exists y. split; [auto|]. exact Hy.
Qed.

Lemma iloc_get_out_of_range d r c : in_range d r c = false -> iloc_get d r c = None.
Proof. unfold iloc_get. intros ->. reflexivity. Qed.

(** [n] undos followed by [n] redos give back the table, cell for cell,
    and the stack. *)
Lemma undo_redo_restores fuel n w :
  wf_df (_df w) -> wf_stack (undo_stack w) ->
  (n <= stack_index (undo_stack w))%nat ->
  stack_index (undo_stack w) = length (command_list (undo_stack w)) ->
  consistent (_df w) (command_list (undo_stack w)) ->
  Forall (covered (_df w)) (command_list (undo_stack w)) ->
  exists w1 w2,
    times n (undo fuel) w = Ok tt w1
    /\ times n (redo fuel) w1 = Ok tt w2
    /\ (forall r c, iloc_get (_df w2) r c = iloc_get (_df w) r c)
    /\ undo_stack w2 = undo_stack w.
Proof.
  intros Hwf Hst Hn Hfull Hcons Hcov.
  destruct (undo_times fuel n w Hn Hst) as [w1 [Hu [Hd1 [Hl1 [Hx1 Hlim1]]]]].
  destruct (redo_times fuel n w1) as [w2 [Hr [Hd2 [Hl2 [Hx2 Hlim2]]]]];
    [rewrite Hl1, Hx1; unfold wf_stack in Hst; lia|].
  exists w1, w2. split; [exact Hu|]. split; [exact Hr|]. split.
  - intros r c. rewrite Hl1, Hx1 in Hd2.
    set (cmds := command_list (undo_stack w)) in *.
    set (j := (stack_index (undo_stack w) - n)%nat) in *.
    assert (Hseg : take n (drop j cmds) = drop j cmds).
    { apply take_ge. rewrite length_drop. unfold j. fold cmds in Hfull. lia. }
    rewrite Hseg in Hd1, Hd2.
    assert (Hshape : flat_map (redo_writes (_df w1)) (drop j cmds)
                     = flat_map (redo_writes (_df w)) (drop j cmds)).
    { apply flat_map_ext. intros cmd. rewrite Hd1. apply redo_writes_writes. }
    rewrite Hshape in Hd2. clear Hshape.
    destruct (in_range (_df w) r c) eqn:Hr0.
    + rewrite Hd2, get_writes;
        [|rewrite Hd1; apply writes_wf, Hwf|rewrite Hd1, writes_in_range; exact Hr0].
      destruct (last_write (flat_map (redo_writes (_df w)) (drop j cmds)) r c) as [v|] eqn:ER.
      * symmetry. apply (Hcons j r c v Hr0 ER).
      * rewrite Hd1, get_writes by assumption.
        destruct (last_write (flat_map undo_writes (rev (drop j cmds))) r c) as [x|] eqn:EU;
          [|reflexivity].
        exfalso.
        destruct (last_write_flat_map_Some undo_writes (rev (drop j cmds)) r c)
          as [cmd [Hin Hne]]; [congruence|].
        apply in_rev in Hin.
        assert (Hin' : In cmd cmds).
        { apply list_elem_of_In. apply list_elem_of_In in Hin.
          eapply (subseteq_drop j cmds). exact Hin. }
        rewrite List.Forall_forall in Hcov.
        apply (Hcov cmd Hin' r c Hr0 Hne).
        apply (last_write_flat_map_None _ _ _ _ ER cmd Hin).
    + rewrite !iloc_get_out_of_range; [reflexivity|exact Hr0|].
      rewrite Hd2, Hd1, !writes_in_range. exact Hr0.
  - destruct (undo_stack w2) as [l2 i2 m2], (undo_stack w) as [l0 i0 m0].
    simpl in *. rewrite Hl1 in Hl2. rewrite Hx1 in Hx2. rewrite Hlim1 in Hlim2.
    subst. f_equal. lia.
Qed.

(** ** The history that edits build *)

Lemma history_ok_fresh d limit log :
  wf_df d -> history_ok (mkWorld d false true (mkStack [] 0 limit) log).
Proof.
  intros Hwf. repeat split; simpl; auto.
  intros k r c v _. rewrite drop_nil. discriminate.
Qed.

Lemma covered_shape d d' cmd :
  (forall r c, in_range d' r c = in_range d r c) ->
  (forall a b, hasIndex d' a b = hasIndex d a b) ->
  covered d cmd -> covered d' cmd.
Proof.
  intros Hr Hh Hc r c Hin. rewrite (redo_writes_shape d d' cmd Hh).
  apply Hc. rewrite <- Hr. exact Hin.
Qed.

Lemma covered_EditCell d i o n : covered d (EditCellCommand i o n).
Proof.
  intros r c _. simpl. destruct (targets i r c); congruence.
Qed.

Lemma consistent_snoc d cmds cmd :
  wf_df d -> consistent d cmds ->
  forall k r c v,
    in_range d r c = true ->
    last_write (flat_map (redo_writes d) (drop k (cmds ++ [cmd]))) r c = Some v ->
    iloc_get (writes d (redo_writes d cmd)) r c = Some (stored v).
Proof.
  intros Hwf Hcons k r c v Hr Hlast.
  rewrite get_writes by assumption.
  destruct (Nat.le_gt_cases k (length cmds)) as [Hle|Hgt].
  - rewrite drop_app_le in Hlast by exact Hle.
    rewrite flat_map_app in Hlast. simpl in Hlast. rewrite app_nil_r in Hlast.
    rewrite last_write_app in Hlast.
    destruct (last_write (redo_writes d cmd) r c) as [x|].
    + congruence.
    + apply (Hcons k r c v Hr Hlast).
  - rewrite drop_app_ge in Hlast by lia.
    destruct (k - length cmds)%nat as [|m] eqn:E; [lia|].
    simpl in Hlast. rewrite drop_nil in Hlast. discriminate.
Qed.

Lemma history_ok_wf_stack w : history_ok w -> wf_stack (undo_stack w).
Proof. intros (_ & _ & _ & Hfull & _). unfold wf_stack. lia. Qed.

Lemma history_ok_pushed cmd w :
  history_ok w -> covered (_df w) cmd -> history_ok (pushed cmd w).
Proof.
  intros Hok Hcov. pose proof (history_ok_wf_stack w Hok) as Hst.
  destruct Hok as (Hwf & Hf & Hm & Hfull & Hcons & Hall).
  assert (Hcmds : command_list (undo_stack (pushed cmd w))
                  = drop (if (0 <? undo_limit (undo_stack w))%nat
                             && (undo_limit (undo_stack w)
                                 <? length (command_list (undo_stack w) ++ [cmd]))%nat
                          then (length (command_list (undo_stack w) ++ [cmd])
                                - undo_limit (undo_stack w))%nat
                          else 0%nat)
                      (command_list (undo_stack w) ++ [cmd])).
  { simpl. unfold stack_record. simpl.
    rewrite (take_ge (command_list (undo_stack w))) by lia. reflexivity. }
  repeat split.
  - rewrite pushed_df. apply writes_wf, Hwf.
  - unfold pushed. simpl. rewrite flagged_steps_model_undo_stack. exact Hm.
  - destruct (stack_record_top cmd (undo_stack w) Hst) as [k [Hi [_ Hl]]].
    rewrite pushed_undo_stack, Hi, Hl. reflexivity.
  - rewrite Hcmds, pushed_df. intros k r c v Hr Hlast.
    rewrite writes_in_range in Hr.
    rewrite drop_drop in Hlast.
    erewrite flat_map_ext in Hlast by (intros; apply redo_writes_writes).
    eapply consistent_snoc; eauto.
  - rewrite Hcmds. apply Forall_drop. apply Forall_app. split.
    + eapply Forall_impl; [exact Hall|]. intros c' Hc'.
      apply (covered_shape (_df w)); auto.
      * intros. rewrite pushed_df. apply writes_in_range.
      * intros. rewrite pushed_df. apply writes_hasIndex.
    + constructor; [|constructor].
      apply (covered_shape (_df w)); auto.
      * intros. rewrite pushed_df. apply writes_in_range.
      * intros. rewrite pushed_df. apply writes_hasIndex.
Qed.

(** One call of [setData] on an in-bounds cell, from a world between user
    actions: either nothing happens or an [EditCell] is pushed. *)
Lemma setData_history_ok fuel i v w :
  history_ok w -> in_bounds (_df w) i = true ->
  exists b w',
    setData (S fuel) i v w = Ok b w'
    /\ history_ok w'
    /\ (forall j, in_bounds (_df w') j = in_bounds (_df w) j).
Proof.
  intros Hok Hb. pose proof Hok as (Hwf & Hf & Hm & _).
  pose proof (in_bounds_valid _ _ Hb) as Hv.
  destruct (cell_at_is_Some _ _ Hwf Hb) as [old Hc].
  destruct (values_differ old (new_value_of v)) eqn:Hd.
  - exists true, (pushed (EditCellCommand i old (new_value_of v)) w).
    split; [|split].
    + rewrite setData_unfold.
      rewrite (setData_with_differs _ i v old w Hv Hf Hm Hc Hd).
      change (QUndoStack_push (cmd_redo_with (setData fuel))) with (push fuel).
      rewrite push_eq. reflexivity.
    + apply history_ok_pushed; [exact Hok|apply covered_EditCell].
    + intros j. rewrite pushed_df. apply writes_in_bounds.
  - exists false, w. split; [|split; auto].
    apply (setData_same _ i v old w Hv Hf Hc Hd).
Qed.

Lemma edit_cells_history_ok fuel edits : forall w,
  history_ok w ->
  Forall (fun e => in_bounds (_df w) (fst e) = true) edits ->
  exists w', edit_cells (S fuel) edits w = Ok tt w' /\ history_ok w'.
Proof.
  induction edits as [|[i s] edits IH]; intros w Hok Hall.
  - exists w. split; [reflexivity|exact Hok].
  - inversion Hall as [|? ? Hi Hrest]; subst. simpl in Hi.
    destruct (setData_history_ok fuel i (Str s) w Hok Hi) as [b [w1 [Hs [Hok1 Hb1]]]].
    destruct (IH w1 Hok1) as [w' [He Hok']].
    { eapply Forall_impl; [exact Hrest|]. intros e He. simpl. rewrite Hb1. exact He. }
    exists w'. split; [|exact Hok'].
    unfold edit_cells in *. cbn [for_each]. unfold bind at 1. unfold bind at 1.
    unfold edit_cell. cbn [fst snd]. rewrite Hs. exact He.
Qed.

(** ** Redo then undo of one command *)

Lemma captured_app d l1 l2 acc :
  captured d (l1 ++ l2) acc = captured d l2 (captured d l1 acc).
Proof. apply fold_left_app. Qed.

Lemma capture_row_eq start_index r w line : forall c acc,
  wf_df (_df w) ->
  capture_row start_index r c line acc w
  = Ok (captured (_df w) (map fst (row_targets (_df w) start_index r c line)) acc) w.
Proof.
  induction line as [|s line IH]; intros c acc Hwf; simpl; [reflexivity|].
  destruct (isValid _) eqn:Ev; simpl.
  - unfold bind. rewrite data_eq by auto using model_index_ok.
    rewrite IH by assumption. reflexivity.
  - apply IH; assumption.
Qed.

Lemma capture_rows_eq start_index w paste_data : forall r acc,
  wf_df (_df w) ->
  capture_rows start_index r paste_data acc w
  = Ok (captured (_df w) (map fst (paste_targets (_df w) start_index r paste_data)) acc) w.
Proof.
  induction paste_data as [|line rest IH]; intros r acc Hwf; simpl; [reflexivity|].
  unfold bind. rewrite capture_row_eq by assumption.
  rewrite IH by assumption. rewrite map_app, captured_app. reflexivity.
Qed.

Lemma new_PasteCellsCommand_eq paste_data start_index w :
  wf_df (_df w) ->
  new_PasteCellsCommand paste_data start_index w
  = Ok (PasteCellsCommand paste_data start_index
          (captured (_df w) (map fst (paste_targets (_df w) start_index 0 paste_data)) []))
       w.
Proof.
  intros Hwf. unfold new_PasteCellsCommand, bind.
  rewrite capture_rows_eq by assumption. reflexivity.
Qed.

Lemma stored_plain v : plain v -> stored v = v.
Proof.
  intros [->|[s [-> [H1 H2]]]]; [reflexivity|]. apply stored_Str; assumption.
Qed.

Lemma undo_value_plain cmd v : plain v -> undo_value cmd v = v.
Proof.
  intros Hp. destruct cmd; simpl; auto using stored_plain, restored_plain.
Qed.

Lemma map_fst_const (l : list QModelIndex) (x : value) :
  map fst (map (fun j => (j, x)) l) = l.
Proof. induction l as [|i l IH]; simpl; [reflexivity|]. rewrite IH. reflexivity. Qed.

(** The last write a built command's [undo] makes on an affected cell. *)
Lemma undo_last_write d cmd i v :
  built_on d cmd -> In i (affected d cmd) -> isValid i = true ->
  cell_at d i = Some v ->
  exists x, last_write (undo_writes cmd) (Z.to_nat (row i)) (Z.to_nat (column i)) = Some x
            /\ stored x = undo_value cmd v.
Proof.
  intros Hbuilt Hin Hv Hc. unfold affected in Hin.
  assert (Hdata : stored (data_of d i) = restored v).
  { unfold data_of. rewrite Hv, Hc. reflexivity. }
  destruct cmd as [i0 o n|sel old|pd st old|sel x old]; simpl in *.
  - destruct Hin as [<-|[]]. exists o. rewrite (targets_self _ Hv).
    split; [reflexivity|]. congruence.
  - rewrite map_fst_const in Hin. subst old. exists (data_of d i).
    split; [apply last_write_captured; assumption|exact Hdata].
  - subst old. exists (data_of d i).
    split; [apply last_write_captured; assumption|exact Hdata].
  - rewrite map_fst_const in Hin. subst old. exists (data_of d i).
    split; [apply last_write_captured; assumption|exact Hdata].
Qed.

Lemma round_cell fuel cmd w i x :
  wf_df (_df w) -> in_bounds (_df w) i = true ->
  last_write (undo_writes cmd) (Z.to_nat (row i)) (Z.to_nat (column i)) = Some x ->
  exists w1,
    (cmd_redo fuel cmd ;;; cmd_undo fuel cmd) w = Ok tt w1
    /\ wf_df (_df w1) /\ in_bounds (_df w1) i = true
    /\ cell_at (_df w1) i = Some (stored x).
Proof.
  intros Hwf Hb Hlast. unfold bind. rewrite cmd_redo_eq, cmd_undo_eq.
  eexists. split; [reflexivity|].
  fold (apply_writes w (redo_writes (_df w) cmd)).
  fold (apply_writes (apply_writes w (redo_writes (_df w) cmd)) (undo_writes cmd)).
  rewrite !apply_writes_df. repeat split.
  - auto using writes_wf.
  - rewrite !writes_in_bounds. exact Hb.
  - rewrite cell_at_writes, Hlast; auto using writes_wf.
    rewrite writes_in_bounds. exact Hb.
Qed.

Lemma rounds_S fuel cmd k w :
  rounds fuel cmd (S k) w
  = ((cmd_redo fuel cmd ;;; cmd_undo fuel cmd) ;;; rounds fuel cmd k) w.
Proof.
  cbn [rounds]. unfold bind. destruct (cmd_redo fuel cmd w); try reflexivity.
Qed.

Lemma rounds_cell fuel cmd i x : forall k w,
  wf_df (_df w) -> in_bounds (_df w) i = true ->
  last_write (undo_writes cmd) (Z.to_nat (row i)) (Z.to_nat (column i)) = Some x ->
  exists w1,
    rounds fuel cmd (S k) w = Ok tt w1
    /\ cell_at (_df w1) i = Some (stored x).
Proof.
  induction k as [|k IH]; intros w Hwf Hb Hlast;
    destruct (round_cell fuel cmd w i x Hwf Hb Hlast) as [w1 [Hr [Hwf1 [Hb1 Hc1]]]].
  - exists w1. split; [|exact Hc1].
    rewrite rounds_S. unfold bind at 1. rewrite Hr. reflexivity.
  - destruct (IH w1 Hwf1 Hb1 Hlast) as [w2 [Hr2 Hc2]].
    exists w2. split; [|exact Hc2].
    rewrite rounds_S. unfold bind at 1. rewrite Hr. exact Hr2.
Qed.

(** C4 (amended).  First part: for a command as the program builds it on
    the current table, a table of text columns, and with texts or
    missing values to write, redo then undo, any number of times over,
    leaves in every in-bounds cell the command writes the value
    [undo_value] of the value it held: that value itself when it was
    missing or a string other than the empty string and the "no field
    value" literal.
    Second part, as stated: after any run of user edits on in-bounds cells
    of a freshly loaded table, [n] undos followed by [n] redos, for any
    [n] up to the depth of the history, give back the table cell for cell,
    and the stack. *)
Theorem redo_undo_inverse (fuel : nat) :
  (forall cmd w i v k,
      wf_df (_df w) -> text_columns (_df w) = true ->
      built_on (_df w) cmd -> text_command cmd = true ->
      In i (affected (_df w) cmd) -> in_bounds (_df w) i = true ->
      cell_at (_df w) i = Some v ->
      exists w1,
        rounds fuel cmd (S k) w = Ok tt w1
        /\ cell_at (_df w1) i = Some (undo_value cmd v)
        /\ (plain v -> cell_at (_df w1) i = Some v))
  /\ (forall d limit log edits n,
      wf_df d ->
      Forall (fun e => in_bounds d (fst e) = true) edits ->
      exists w,
        edit_cells (S fuel) edits (mkWorld d false true (mkStack [] 0 limit) log) = Ok tt w
        /\ ((n <= stack_index (undo_stack w))%nat ->
            exists w1 w2,
              times n (undo fuel) w = Ok tt w1
              /\ times n (redo fuel) w1 = Ok tt w2
              /\ (forall r c, iloc_get (_df w2) r c = iloc_get (_df w) r c)
              /\ undo_stack w2 = undo_stack w)).
Proof.
  split.
  - intros cmd w i v k Hwf Htext Hbuilt Hcmd Hin Hb Hc.
    destruct (undo_last_write _ cmd i v Hbuilt Hin (in_bounds_valid _ _ Hb) Hc)
      as [x [Hlast Hx]].
    destruct (rounds_cell fuel cmd i x k w Hwf Hb Hlast) as [w1 [Hr Hc1]].
    exists w1. rewrite Hx in Hc1. split; [exact Hr|]. split; [exact Hc1|].
    intros Hp. rewrite Hc1, (undo_value_plain cmd v Hp). reflexivity.
  - intros d limit log edits n Hwf Hall.
    destruct (edit_cells_history_ok fuel edits _ (history_ok_fresh d limit log Hwf) Hall)
      as [w [He Hok]].
    exists w. split; [exact He|]. intros Hn.
    pose proof (history_ok_wf_stack w Hok) as Hst.
    destruct Hok as (Hwf' & _ & _ & Hfull & Hcons & Hcov).
    apply undo_redo_restores; assumption.
Qed.

Lemma redo_undo_inverse_witness :
  (exists w1,
      rounds 0 (EditCellCommand (mkIndex 0 0) (Str "a0") (Str "zz")) 2 (loaded frame3x3)
      = Ok tt w1
      /\ cell_at (_df w1) (mkIndex 0 0) = Some (Str "a0"))
  /\ (exists w w1 w2,
      edit_cells 1 [(mkIndex 0 0, "x"); (mkIndex 0 0, "y"); (mkIndex 1 2, "z")]
        (mkWorld frame3x3 false true (mkStack [] 0 50) []) = Ok tt w
      /\ times 2 (undo 0) w = Ok tt w1
      /\ times 2 (redo 0) w1 = Ok tt w2
      /\ (forall r c, iloc_get (_df w2) r c = iloc_get (_df w) r c)
      /\ undo_stack w2 = undo_stack w).
Proof.
  destruct (redo_undo_inverse 0) as [H1 H2]. split.
  - destruct (H1 (EditCellCommand (mkIndex 0 0) (Str "a0") (Str "zz")) (loaded frame3x3)
                 (mkIndex 0 0) (Str "a0") 1%nat) as (w1 & Hr & _ & Hp).
    + exact wf_frame3x3.
    + reflexivity.
    + reflexivity.
    + reflexivity.
    + left. reflexivity.
    + reflexivity.
    + reflexivity.
    + exists w1. split; [exact Hr|]. apply Hp. apply plain_Str_example; discriminate.
  - destruct (H2 frame3x3 50%nat []
                [(mkIndex 0 0, "x"); (mkIndex 0 0, "y"); (mkIndex 1 2, "z")] 2%nat
                wf_frame3x3) as [w [He Hn]].
    + repeat constructor.
    + assert (Hdepth : (2 <= stack_index (undo_stack w))%nat).
      { vm_compute in He. injection He as <-. simpl. lia. }
      destruct (Hn Hdepth) as [w1 [w2 [Hu [Hr [Hc Hs]]]]].
      exists w, w1, w2. repeat split; assumption.
Defined.

(** C4 as stated fails: the cell at row 1, column 2 holds the empty
    string; the edit to ["x"] pushes an [EditCell] (whose redo writes
    ["x"]), and its undo leaves [pd.NA], not the empty string. *)
Lemma edit_then_undo_loses_empty_string :
  exists w1 w2,
    edit_cell 1 (mkIndex 1 2) "x" (loaded frame3x3) = Ok true w1
    /\ command_list (undo_stack w1) = [EditCellCommand (mkIndex 1 2) (Str "") (Str "x")]
    /\ cell_at (_df w1) (mkIndex 1 2) = Some (Str "x")
    /\ undo 1 w1 = Ok tt w2
    /\ cell_at (_df (loaded frame3x3)) (mkIndex 1 2) = Some (Str "")
    /\ cell_at (_df w2) (mkIndex 1 2) = Some NA
    /\ cell_at (_df w2) (mkIndex 1 2) <> cell_at (_df (loaded frame3x3)) (mkIndex 1 2).
Proof.
  eexists. eexists. vm_compute. repeat split; try reflexivity. discriminate.
Qed.

(* ===================================================================== *)
(** * Properties of the worker *)
(* ===================================================================== *)

(** C10: on an empty selection the worker emits one progress signal of
    value 100 and one [finished] signal, and nothing else (no cell update,
    no error); delivering these signals leaves the world as it is. *)
Theorem run_empty_selection (env : Env) (cfg : Config) (fuel : nat) (w : World) :
  run env cfg [] w = [progress 100; finished]
  /\ deliver fuel (run env cfg [] w) w = Ok tt w.
Proof. split; reflexivity. Qed.

(** ** One remote reference *)

Lemma string_length_append (p s : string) :
  String.length (p ++ s) = (String.length p + String.length s)%nat.
Proof. induction p as [|a p IH]; simpl; [reflexivity|]. rewrite IH. reflexivity. Qed.

Lemma prefixed_differs (p s : string) : p <> "" -> p ++ s <> s.
Proof.
  intros Hp H. apply (f_equal String.length) in H.
  rewrite string_length_append in H.
  destruct p; [congruence|]. simpl in H. lia.
Qed.

(** The loop over the images of a cell goes through the whole list. *)
Lemma process_imgs_app env cfg index soup1 soup2 st :
  process_imgs env cfg index (soup1 ++ soup2)%list st
  = let '(soup1', st1) := process_imgs env cfg index soup1 st in
    let '(soup2', st2) := process_imgs env cfg index soup2 st1 in
    ((soup1' ++ soup2')%list, st2).
Proof.
  revert st. induction soup1 as [|n soup1 IH]; intros st.
  - simpl. destruct (process_imgs env cfg index soup2 st). reflexivity.
  - destruct n as [s|attr]; simpl.
    + rewrite IH. destruct (process_imgs env cfg index soup1 st) as [l1 st1].
      destruct (process_imgs env cfg index soup2 st1). reflexivity.
    + destruct (process_img env cfg index attr st) as [attr' st0].
      rewrite IH. destruct (process_imgs env cfg index soup1 st0) as [l1 st1].
      destruct (process_imgs env cfg index soup2 st1). reflexivity.
Qed.

Lemma has_img_middle soup1 attr soup2 :
  has_img (soup1 ++ Img attr :: soup2)%list = true.
Proof. unfold has_img. rewrite existsb_app. simpl. apply orb_true_r. Qed.

(** C2 (amended): for a remote reference that resolves to a file name,
    the [src] is rewritten to the new path when downloading is disabled or
    the fetch succeeds.  When downloading is enabled and the fetch fails,
    the failure is logged and reported as an error and the reference keeps
    the [src] attribute it had: the rewrite does not take place.  In
    either case the loop goes on: in a cell that holds the reference among
    other markup, the images before it and the images after it are
    processed as they are in any cell, and the cell's result, with the
    [src] as the reference was left with, is emitted with the progress. *)
Theorem remote_rewrite_needs_fetch (env : Env) (cfg : Config) (index : QModelIndex)
    (src src' file_name : string) :
  String.prefix "data:image" src = false ->
  remote_target env src = Some (src', file_name) ->
  let image_path := os_path_join env (download_folder cfg) file_name in
  let new_src := replace_backslash (os_path_join env (new_path cfg) file_name) in
  let attr' :=
    if download_images cfg && negb (urlretrieve env src' image_path)
    then Some src else Some new_src in
  (forall st,
     process_img env cfg index (Some src) st
     = let before :=
         (fst st ++ (if bool_decide (src' = src) then [] else [log (scheme_added src')]))%list in
       if download_images cfg then
         if urlretrieve env src' image_path
         then (Some new_src,
               (before ++ [log (downloaded index image_path);
                           log (src_changed index src' new_src)], snd st)%list)
         else (Some src,
               (before ++ [log (image_failed index); error (image_failed index)], snd st)%list)
       else (Some new_src, (before ++ [log (src_changed index src' new_src)], snd st)%list))
  /\ (forall w total i current_data soup1 soup2 st,
        data index w = Ok (Str current_data) w -> current_data <> "" ->
        BeautifulSoup env current_data = Some (soup1 ++ Img (Some src) :: soup2)%list ->
        exists soup1' st1 st2 soup2' st3,
          process_imgs env cfg index soup1 st = (soup1', st1)
          /\ process_img env cfg index (Some src) st1 = (attr', st2)
          /\ process_imgs env cfg index soup2 st2 = (soup2', st3)
          /\ process_cell env cfg w total i index st
             = ((fst st3 ++ [update_cell index (soup_str env (soup1' ++ Img attr' :: soup2')%list);
                             progress (progress_percent i total)])%list, snd st3)).
Proof.
  intros Hpre Htarget image_path new_src attr'.
  assert (Himg : forall st,
     process_img env cfg index (Some src) st
     = let before :=
         (fst st ++ (if bool_decide (src' = src) then [] else [log (scheme_added src')]))%list in
       if download_images cfg then
         if urlretrieve env src' image_path
         then (Some new_src,
               (before ++ [log (downloaded index image_path);
                           log (src_changed index src' new_src)], snd st)%list)
         else (Some src,
               (before ++ [log (image_failed index); error (image_failed index)], snd st)%list)
       else (Some new_src, (before ++ [log (src_changed index src' new_src)], snd st)%list)).
  { intros st. subst image_path new_src. unfold process_img. rewrite Hpre.
    unfold remote_target in Htarget. unfold process_url.
    destruct (urlparse env src) as [[scheme p0]|]; [|discriminate].
    cbv zeta in *.
    destruct (urlparse env (if bool_decide (scheme = "") then "https:" ++ src else src))
      as [[sch path]|]; [|discriminate].
    destruct (bool_decide (os_path_basename env path = "")); [discriminate|].
    injection Htarget as <- <-.
    destruct st as [sigs tick]. simpl fst. simpl snd.
    case_bool_decide as Hs; simpl fst; simpl snd.
    - rewrite (bool_decide_eq_false_2 ("https:" ++ src = src))
        by (apply prefixed_differs; discriminate).
      destruct (download_images cfg); [destruct (urlretrieve env _ _)|];
        rewrite <- ?app_assoc; reflexivity.
    - rewrite (bool_decide_eq_true_2 (src = src)) by reflexivity. cbv zeta.
      rewrite ?app_nil_r.
      destruct (download_images cfg); [destruct (urlretrieve env _ _)|];
        rewrite <- ?app_assoc; reflexivity. }
  split; [exact Himg|].
  intros w total i current_data soup1 soup2 st Hdata Hne Hsoup.
  destruct (process_imgs env cfg index soup1 st) as [soup1' st1] eqn:H1.
  assert (Hattr : fst (process_img env cfg index (Some src) st1) = attr').
  { rewrite Himg. subst attr'. cbv zeta.
    destruct (download_images cfg); [destruct (urlretrieve env src' image_path)|];
      reflexivity. }
  destruct (process_img env cfg index (Some src) st1) as [attr0 st2] eqn:H2.
  simpl in Hattr. subst attr0.
  destruct (process_imgs env cfg index soup2 st2) as [soup2' st3] eqn:H3.
  exists soup1', st1, st2, soup2', st3.
  split; [reflexivity|]. split; [exact H2|]. split; [exact H3|].
  unfold process_cell. rewrite Hdata.
  rewrite (bool_decide_eq_false_2 (current_data = "")) by exact Hne.
  rewrite Hsoup, has_img_middle. simpl negb. cbv iota.
  rewrite process_imgs_app, H1. cbn [process_imgs]. rewrite H2, H3. reflexivity.
Qed.

Lemma remote_rewrite_needs_fetch_witness :
  process_img (album_env [url_b]) (example_cfg true) (mkIndex 0 0) (Some url_a) ([], 0%nat)
  = (Some url_a, ([log (image_failed (mkIndex 0 0)); error (image_failed (mkIndex 0 0))], 0%nat))
  /\ process_cell (album_env [url_b]) (example_cfg true) (loaded album) 1 1 (mkIndex 0 0)
       ([], 0%nat)
     = ([ log (image_failed (mkIndex 0 0)); error (image_failed (mkIndex 0 0));
          log (downloaded (mkIndex 0 0) "downloads/b.png");
          log (src_changed (mkIndex 0 0) url_b "images/b.png");
          update_cell (mkIndex 0 0) (img_tag url_a ++ img_tag "images/b.png");
          progress 100 ], 0%nat).
Proof.
  destruct (remote_rewrite_needs_fetch (album_env [url_b]) (example_cfg true) (mkIndex 0 0)
              url_a url_a "a.png") as [H1 H2].
  - reflexivity.
  - reflexivity.
  - split; [rewrite H1; reflexivity|].
    destruct (H2 (loaded album) 1 1 two_images [] [Img (Some url_b)] ([], 0%nat))
      as (soup1' & st1 & st2 & soup2' & st3 & A & B & C & D).
    + reflexivity.
    + discriminate.
    + reflexivity.
    + rewrite D. injection A as <- <-. rewrite H1 in B. injection B as <-.
      injection C as <- <-. reflexivity.
Defined.

(** C2 as stated fails: downloading is enabled and nothing can be fetched;
    the worker logs and reports the failure, and the cell's emitted
    result still has the remote [src], not [images/a.png]. *)
Lemma failed_fetch_skips_rewrite :
  run (example_env []) (example_cfg true) [mkIndex 0 0] (loaded gallery)
  = [ log (image_failed (mkIndex 0 0)); error (image_failed (mkIndex 0 0));
      update_cell (mkIndex 0 0) (img_tag url_a); progress 100; finished ]
  /\ run (example_env [url_a]) (example_cfg true) [mkIndex 0 0] (loaded gallery)
     = [ log (downloaded (mkIndex 0 0) "downloads/a.png");
         log (src_changed (mkIndex 0 0) url_a "images/a.png");
         update_cell (mkIndex 0 0) (img_tag "images/a.png"); progress 100; finished ]
  /\ img_tag url_a <> img_tag "images/a.png".
Proof.
  split; [|split]; try (vm_compute; reflexivity).
  vm_compute. discriminate.
Qed.

(** ** Progress *)

Lemma only_logs_progress signals : only_logs signals -> progress_values signals = [].
Proof.
  induction 1 as [|s l Hs _ IH]; [reflexivity|].
  unfold progress_values in *. simpl. rewrite IH. destruct s; try contradiction; reflexivity.
Qed.

Lemma only_logs_finished signals : only_logs signals -> count_finished signals = 0%nat.
Proof.
  unfold count_finished.
  induction 1 as [|s l Hs _ IH]; [reflexivity|].
  simpl. rewrite length_app, IH. destruct s; try contradiction; reflexivity.
Qed.

Lemma only_logs_app l1 l2 : only_logs l1 -> only_logs l2 -> only_logs (l1 ++ l2).
Proof. intros H1 H2. apply Forall_app. split; assumption. Qed.

Lemma progress_values_app l1 l2 :
  progress_values (l1 ++ l2) = (progress_values l1 ++ progress_values l2)%list.
Proof. apply flat_map_app. Qed.

Lemma count_finished_app l1 l2 :
  count_finished (l1 ++ l2) = (count_finished l1 + count_finished l2)%nat.
Proof. unfold count_finished. rewrite flat_map_app, length_app. reflexivity. Qed.

Lemma process_base64_logs env cfg index attr src st :
  exists extra,
    fst (snd (process_base64 env cfg index attr src st)) = (fst st ++ extra)%list
    /\ only_logs extra.
Proof.
  unfold process_base64.
  destruct (split_once _ src) as [[header encoded]|]; [|appended_logs].
  destruct (media_subtype header); [|appended_logs].
  cbv zeta. destruct (b64decode_to_file env _ _); appended_logs.
Qed.

Lemma process_url_logs env cfg index attr src st :
  exists extra,
    fst (snd (process_url env cfg index attr src st)) = (fst st ++ extra)%list
    /\ only_logs extra.
Proof.
  unfold process_url.
  destruct (urlparse env src) as [[scheme p0]|]; [|appended_logs].
  cbv zeta.
  destruct (urlparse env _) as [[sch path]|];
    [|destruct (bool_decide (scheme = "")); simpl; appended_logs].
  destruct (bool_decide (os_path_basename env path = ""));
    [destruct (bool_decide (scheme = "")); simpl; appended_logs|].
  destruct (download_images cfg); [destruct (urlretrieve env _ _)|];
    destruct (bool_decide (scheme = "")); simpl; appended_logs.
Qed.

Lemma process_img_logs env cfg index attr st :
  exists extra,
    fst (snd (process_img env cfg index attr st)) = (fst st ++ extra)%list
    /\ only_logs extra.
Proof.
  unfold process_img. destruct (String.prefix _ _);
    [apply process_base64_logs|apply process_url_logs].
Qed.

Lemma process_imgs_logs env cfg index soup : forall st,
  exists extra,
    fst (snd (process_imgs env cfg index soup st)) = (fst st ++ extra)%list
    /\ only_logs extra.
Proof.
  induction soup as [|[s|attr] rest IH]; intros st; simpl.
  - exists []. split; [symmetry; apply app_nil_r|constructor].
  - destruct (IH st) as [extra [He Hl]].
    destruct (process_imgs env cfg index rest st) as [rest' st']. simpl in *. eauto.
  - destruct (process_img_logs env cfg index attr st) as [e1 [He1 Hl1]].
    destruct (process_img env cfg index attr st) as [attr' st1]. simpl in He1.
    destruct (IH st1) as [e2 [He2 Hl2]].
    destruct (process_imgs env cfg index rest st1) as [rest' st2]. simpl in *.
    exists (e1 ++ e2)%list. split; [|apply only_logs_app; assumption].
    rewrite He2, He1, app_assoc. reflexivity.
Qed.

(** What one cell adds to the signals: a progress value exactly when the
    cell is processed, and never a [finished]. *)
Lemma process_cell_signals env cfg w total i index st :
  exists extra,
    fst (process_cell env cfg w total i index st) = (fst st ++ extra)%list
    /\ progress_values extra
       = (if processed env w index then [progress_percent i total] else [])
    /\ count_finished extra = 0%nat.
Proof.
  unfold process_cell, processed.
  assert (Hfail : exists extra,
            (fst st ++ [log (cell_failed index); error (cell_failed index)])%list
            = (fst st ++ extra)%list
            /\ progress_values extra = [] /\ count_finished extra = 0%nat).
  { eexists. split; [reflexivity|]. split; reflexivity. }
  assert (Hskip : exists extra,
            fst st = (fst st ++ extra)%list
            /\ progress_values extra = [] /\ count_finished extra = 0%nat).
  { exists []. split; [symmetry; apply app_nil_r|]. split; reflexivity. }
  destruct (data index w) as [[|current_data|z|] w'|e w'|]; try exact Hfail.
  destruct (bool_decide (current_data = "")); simpl; [exact Hskip|].
  destruct (BeautifulSoup env current_data) as [soup|]; [|exact Hfail].
  destruct (has_img soup); simpl; [|exact Hskip].
  destruct (process_imgs_logs env cfg index soup st) as [extra [He Hl]].
  destruct (process_imgs env cfg index soup st) as [soup' st']. simpl in *.
  eexists. split; [rewrite He, <- app_assoc; reflexivity|].
  rewrite progress_values_app, count_finished_app.
  rewrite (only_logs_progress _ Hl), (only_logs_finished _ Hl).
  split; reflexivity.
Qed.

Lemma process_cells_signals env cfg w total indexes : forall i st,
  exists extra,
    fst (process_cells env cfg w total i indexes st) = (fst st ++ extra)%list
    /\ progress_values extra
       = map (fun k => progress_percent k total) (processed_positions env w i indexes)
    /\ count_finished extra = 0%nat.
Proof.
  induction indexes as [|index rest IH]; intros i st; simpl.
  - exists []. split; [symmetry; apply app_nil_r|]. split; reflexivity.
  - destruct (process_cell_signals env cfg w total i index st) as [e1 [He1 [Hp1 Hf1]]].
    destruct (IH (i + 1) (process_cell env cfg w total i index st)) as [e2 [He2 [Hp2 Hf2]]].
    exists (e1 ++ e2)%list. split; [rewrite He2, He1, app_assoc; reflexivity|].
    rewrite progress_values_app, count_finished_app, Hp1, Hp2, Hf1, Hf2, map_app.
    split; [|reflexivity]. destruct (processed env w index); reflexivity.
Qed.

Lemma processed_positions_all env w indexes : forall i,
  Forall (fun index => processed env w index = true) indexes ->
  processed_positions env w i indexes
  = map (fun k => i + Z.of_nat k) (seq 0 (length indexes)).
Proof.
  induction indexes as [|index rest IH]; intros i Hall; [reflexivity|].
  inversion Hall as [|? ? Hp Hrest]; subst. simpl. rewrite Hp, (IH (i + 1) Hrest).
  simpl. f_equal; [f_equal; lia|].
  rewrite <- seq_shift, map_map. apply map_ext. intros k. lia.
Qed.

(** C3 (amended): a run over a non-empty list of [N] cells emits the
    progress values [int(i / N * 100)] of exactly the cells it processes
    to the end, in order: a cell that is skipped (empty, or without image
    elements) or that fails as a whole emits no progress value.  The run
    always ends with one [finished] signal, the only one.  When every cell
    is processed, all [N] values are emitted, and for five cells they are
    20, 40, 60, 80, 100, whether or not a reference of some cell fails. *)
Theorem progress_only_for_processed_cells (env : Env) (cfg : Config)
    (selected_indexes : list QModelIndex) (w : World) :
  selected_indexes <> [] ->
  progress_values (run env cfg selected_indexes w)
  = map (fun i => progress_percent i (Z.of_nat (length selected_indexes)))
      (processed_positions env w 1 selected_indexes)
  /\ (exists signals,
        run env cfg selected_indexes w = (signals ++ [finished])%list
        /\ count_finished signals = 0%nat)
  /\ (Forall (fun index => processed env w index = true) selected_indexes ->
      progress_values (run env cfg selected_indexes w)
      = map (fun k => progress_percent (1 + Z.of_nat k) (Z.of_nat (length selected_indexes)))
          (seq 0 (length selected_indexes)))
  /\ map (fun k => progress_percent (1 + Z.of_nat k) 5) (seq 0 5) = [20; 40; 60; 80; 100].
Proof.
  intros Hne. unfold run.
  destruct (Z.eqb_spec (Z.of_nat (length selected_indexes)) 0) as [H0|_].
  { destruct selected_indexes; [congruence|simpl in H0; lia]. }
  destruct (process_cells_signals env cfg w (Z.of_nat (length selected_indexes))
              selected_indexes 1 ([], 0%nat)) as [extra [He [Hp Hf]]].
  simpl in He. rewrite He.
  assert (Hvalues : progress_values (extra ++ [finished])
                    = map (fun i => progress_percent i (Z.of_nat (length selected_indexes)))
                        (processed_positions env w 1 selected_indexes)).
  { rewrite progress_values_app, Hp. simpl. apply app_nil_r. }
  split; [exact Hvalues|]. split; [exists extra; auto|]. split.
  - intros Hall. rewrite Hvalues, (processed_positions_all env w _ 1 Hall), map_map.
    reflexivity.
  - vm_compute. reflexivity.
Qed.

Lemma gallery_first_five_processed :
  Forall (fun index => processed (example_env []) (loaded gallery) index = true) (column0 5).
Proof. repeat constructor. Defined.

Lemma progress_only_for_processed_cells_witness :
  progress_values (run (example_env []) (example_cfg true) (column0 5) (loaded gallery))
  = [20; 40; 60; 80; 100]
  /\ exists signals,
       run (example_env []) (example_cfg true) (column0 5) (loaded gallery)
       = (signals ++ [finished])%list
       /\ count_finished signals = 0%nat.
Proof.
  destruct (progress_only_for_processed_cells (example_env []) (example_cfg true)
              (column0 5) (loaded gallery)) as [_ [Hfin [Hall Hfive]]].
  - discriminate.
  - split; [|exact Hfin].
    rewrite (Hall gallery_first_five_processed). exact Hfive.
Defined.

(** C3 as stated fails: a cell without image elements emits no progress
    value, so a run over that one cell emits no progress at all, and a run
    over six cells whose last one has no image ends at 83, not at 100. *)
Lemma skipped_cell_emits_no_progress :
  run (example_env []) (example_cfg false) [mkIndex 5 0] (loaded gallery) = [finished]
  /\ progress_values
       (run (example_env []) (example_cfg false) (column0 6) (loaded gallery))
     = [16; 33; 50; 66; 83]
  /\ progress_percent 1 1 = 100 /\ progress_percent 6 6 = 100.
Proof. repeat split; vm_compute; reflexivity. Qed.

(** The spec's example: five cells, the third one's reference malformed.
    All five cells are emitted (the third one unchanged), one failure is
    reported, and the run ends with progress 100 and [finished]. *)
Example run_five_cells_one_malformed :
  run (example_env []) (example_cfg false) (column0 5) (loaded gallery)
  = [ log (src_changed (mkIndex 0 0) url_a "images/a.png");
      update_cell (mkIndex 0 0) (img_tag "images/a.png"); progress 20;
      log (src_changed (mkIndex 1 0) url_b "images/b.png");
      update_cell (mkIndex 1 0) (img_tag "images/b.png"); progress 40;
      log (image_failed (mkIndex 2 0)); error (image_failed (mkIndex 2 0));
      update_cell (mkIndex 2 0) (img_tag url_c); progress 60;
      log (src_changed (mkIndex 3 0) url_d "images/d.png");
      update_cell (mkIndex 3 0) (img_tag "images/d.png"); progress 80;
      log (src_changed (mkIndex 4 0) url_e "images/e.png");
      update_cell (mkIndex 4 0) (img_tag "images/e.png"); progress 100;
      finished ].
Proof. vm_compute. reflexivity. Qed.


(* ===================================================================== *)
(** * Further properties of the model, the commands and the worker *)
(* ===================================================================== *)

(** ** Writing a cell and reading it back *)

Lemma data_cell w i v :
  isValid i = true -> cell_at (_df w) i = Some v ->
  data i w = Ok (Str (display_of v)) w.
Proof.
  intros Hv Hc. unfold data, display_of. unfold cell_at in Hc.
  rewrite Hv, Hc. simpl. destruct (isna v); reflexivity.
Qed.

Lemma display_stored_Str s :
  s <> no_field_value -> display_of (stored (Str s)) = s.
Proof.
  intros Hs. unfold stored.
  rewrite (bool_decide_eq_false_2 (s = no_field_value)) by assumption.
  rewrite orb_false_r. case_bool_decide; [subst; reflexivity|reflexivity].
Qed.

Lemma display_stored_new s :
  s <> no_field_value -> display_of (stored (new_value_of (Str s))) = s.
Proof.
  intros Hs. unfold new_value_of. simpl.
  case_bool_decide; [subst; reflexivity|]. apply display_stored_Str, Hs.
Qed.

Lemma store_and_emit_cell i v w :
  wf_df (_df w) -> in_bounds (_df w) i = true ->
  exists w1, store_and_emit i v w = Ok true w1
             /\ cell_at (_df w1) i = Some (stored v)
             /\ undo_stack w1 = undo_stack w.
Proof.
  intros Hwf Hb. unfold store_and_emit.
  destruct (iloc_set_is_Some (_df w) _ _ (stored v) (in_bounds_in_range _ _ Hb)) as [d' Hd].
  rewrite Hd. eexists. split; [reflexivity|]. split; [|reflexivity].
  simpl. unfold cell_at. eapply iloc_get_set_eq; eauto.
Qed.

(** X1: on a table of text columns, whatever the state of the model
    (flag up or down, undo stack set or not), setting an in-bounds cell to
    a text other than the "no field value" literal succeeds, and [data]
    then shows exactly that text. *)
Theorem edit_then_data (fuel : nat) (i : QModelIndex) (s : string) (w : World) :
  wf_df (_df w) -> text_columns (_df w) = true ->
  in_bounds (_df w) i = true -> s <> no_field_value ->
  exists b w1,
    setData (S fuel) i (Str s) w = Ok b w1
    /\ data i w1 = Ok (Str s) w1.
Proof.
  intros Hwf Htext Hb Hs. pose proof (in_bounds_valid _ _ Hb) as Hv.
  rewrite setData_unfold. unfold setData_with. rewrite Hv. simpl negb. cbv iota.
  destruct (ignore_undo w) eqn:Hf.
  - destruct (store_and_emit_cell i (Str s) w Hwf Hb) as [w1 [He [Hc _]]].
    exists true, w1. split; [exact He|].
    rewrite (data_cell w1 i _ Hv Hc), display_stored_Str by assumption. reflexivity.
  - destruct (cell_at_is_Some _ _ Hwf Hb) as [old Hold].
    unfold cell_at in Hold. rewrite Hold. cbv zeta.
    destruct (values_differ old (new_value_of (Str s))) eqn:Hd.
    + destruct (model_undo_stack w) eqn:Hm; simpl.
      * change (QUndoStack_push (cmd_redo_with (setData fuel))) with (push fuel).
        rewrite push_eq. fold (pushed (EditCellCommand i old (new_value_of (Str s))) w).
        assert (Hc1 : cell_at (_df (pushed (EditCellCommand i old (new_value_of (Str s))) w)) i
                      = Some (stored (new_value_of (Str s)))).
        { rewrite pushed_df. simpl redo_writes.
          rewrite cell_at_writes by assumption. simpl.
          rewrite (targets_self i Hv). reflexivity. }
        eexists. eexists. split; [reflexivity|].
        rewrite (data_cell _ i _ Hv Hc1), display_stored_new by assumption. reflexivity.
      * destruct (store_and_emit_cell i (new_value_of (Str s)) w Hwf Hb) as [w1 [He [Hc _]]].
        exists true, w1. split; [exact He|].
        rewrite (data_cell w1 i _ Hv Hc), display_stored_new by assumption. reflexivity.
    + exists false, w. split; [reflexivity|].
      rewrite (data_cell w i old Hv Hold). f_equal. f_equal.
      unfold values_differ, new_value_of in Hd. simpl in Hd.
      destruct (bool_decide (s = "")) eqn:Es.
      * apply bool_decide_eq_true in Es. subst s.
        destruct old; simpl in Hd; try discriminate. reflexivity.
      * destruct old as [|s0|z|]; simpl in Hd; try discriminate;
          apply negb_false_iff, bool_decide_eq_true in Hd;
          inversion Hd; subst; reflexivity.
Qed.

Lemma edit_then_data_witness :
  exists b w1,
    setData 1 (mkIndex 2 0) (Str "seven") (loaded frame3x3) = Ok b w1
    /\ data (mkIndex 2 0) w1 = Ok (Str "seven") w1.
Proof.
  apply (edit_then_data 0 (mkIndex 2 0) "seven" (loaded frame3x3)).
  - exact wf_frame3x3.
  - reflexivity.
  - reflexivity.
  - discriminate.
Defined.

(** With the "no field value" literal the cell is blanked instead: the
    text typed is not what [data] shows afterwards. *)
Example edit_placeholder_blanks_cell :
  exists w1,
    setData 1 (mkIndex 0 0) (Str no_field_value) (loaded frame3x3) = Ok true w1
    /\ data (mkIndex 0 0) w1 = Ok (Str "") w1.
Proof. eexists. vm_compute. split; reflexivity. Qed.

(** ** What one call of [setData] does, in every state of the model *)

Lemma store_and_emit_flagged_step i v w :
  isValid i = true ->
  in_range (_df w) (Z.to_nat (row i)) (Z.to_nat (column i)) = true ->
  store_and_emit i v w = Ok true (flagged_step w (i, v)).
Proof.
  intros Hv Hr. unfold store_and_emit, flagged_step. cbn [fst snd]. rewrite Hv.
  destruct (iloc_set_is_Some (_df w) _ _ (stored v) Hr) as [d' ->]. reflexivity.
Qed.

(** The result of [setData] on a cell of the frame, case by case. *)
Lemma setData_result fuel i v w old :
  in_bounds (_df w) i = true -> cell_at (_df w) i = Some old ->
  setData (S fuel) i v w
  = if ignore_undo w then Ok true (flagged_step w (i, v))
    else if values_differ old (new_value_of v) then
      if model_undo_stack w
      then Ok true (pushed (EditCellCommand i old (new_value_of v)) w)
      else Ok true (flagged_step w (i, new_value_of v))
    else Ok false w.
Proof.
  intros Hb Hc. pose proof (in_bounds_valid _ _ Hb) as Hv.
  pose proof (in_bounds_in_range _ _ Hb) as Hr.
  rewrite setData_unfold. unfold setData_with. rewrite Hv. simpl negb. cbv iota.
  destruct (ignore_undo w) eqn:Hf.
  - apply store_and_emit_flagged_step; assumption.
  - unfold cell_at in Hc. rewrite Hc. cbv zeta.
    destruct (values_differ old (new_value_of v)); [|reflexivity].
    destruct (model_undo_stack w); simpl.
    + change (QUndoStack_push (cmd_redo_with (setData fuel))) with (push fuel).
      rewrite push_eq. reflexivity.
    + apply store_and_emit_flagged_step; assumption.
Qed.

(** The frame after [setData]: the one write, or nothing. *)
Lemma setData_frame fuel i v w :
  wf_df (_df w) -> in_bounds (_df w) i = true ->
  exists b w1 l,
    setData (S fuel) i v w = Ok b w1
    /\ _df w1 = writes (_df w) l
    /\ (l = [] \/ exists x, l = [(i, x)])
    /\ ignore_undo w1 = ignore_undo w
    /\ model_undo_stack w1 = model_undo_stack w.
Proof.
  intros Hwf Hb. destruct (cell_at_is_Some _ _ Hwf Hb) as [old Hc].
  rewrite (setData_result fuel i v w old Hb Hc).
  destruct (ignore_undo w) eqn:Hf.
  - exists true, (flagged_step w (i, v)), [(i, v)].
    split; [reflexivity|]. split; [apply flagged_step_df|]. split; [eauto|].
    split; [rewrite flagged_step_ignore_undo; exact Hf|apply flagged_step_model_undo_stack].
  - destruct (values_differ old (new_value_of v)).
    + destruct (model_undo_stack w) eqn:Hm.
      * exists true, (pushed (EditCellCommand i old (new_value_of v)) w), [(i, new_value_of v)].
        split; [reflexivity|]. split; [apply pushed_df|]. split; [eauto|].
        split; [reflexivity|]. unfold pushed. simpl.
        rewrite flagged_step_model_undo_stack. exact Hm.
      * exists true, (flagged_step w (i, new_value_of v)), [(i, new_value_of v)].
        split; [reflexivity|]. split; [apply flagged_step_df|]. split; [eauto|].
        split; [rewrite flagged_step_ignore_undo; exact Hf|].
        rewrite flagged_step_model_undo_stack. exact Hm.
    + exists false, w, []. repeat split; auto.
Qed.

(** X2: a call of [setData] on a cell of a table of text columns always
    returns, in every state of the model; the frame keeps its columns, its
    number of rows and its rectangular shape, the suppression flag is as
    it was, and every position other than the one addressed holds what it
    held. *)
Theorem setData_touches_one_cell (fuel : nat) (i : QModelIndex) (v : value) (w : World) :
  wf_df (_df w) -> text_columns (_df w) = true -> in_bounds (_df w) i = true ->
  exists b w1,
    setData (S fuel) i v w = Ok b w1
    /\ wf_df (_df w1)
    /\ columns (_df w1) = columns (_df w)
    /\ length (rows (_df w1)) = length (rows (_df w))
    /\ ignore_undo w1 = ignore_undo w
    /\ forall r c, (r, c) <> (Z.to_nat (row i), Z.to_nat (column i)) ->
         iloc_get (_df w1) r c = iloc_get (_df w) r c.
Proof.
  intros Hwf Htext Hb.
  destruct (setData_frame fuel i v w Hwf Hb) as (b & w1 & l & Hs & Hd & Hl & Hf & _).
  exists b, w1. split; [exact Hs|]. rewrite Hd.
  split; [apply writes_wf, Hwf|].
  destruct Hl as [->|[x ->]]; simpl.
  - repeat split; auto.
  - unfold write_cell. cbn [fst snd]. rewrite (in_bounds_valid _ _ Hb).
    destruct (iloc_set_is_Some (_df w) _ _ (stored x) (in_bounds_in_range _ _ Hb)) as [d' Hd'].
    rewrite Hd'.
    split; [eapply iloc_set_columns; eauto|].
    split; [eapply iloc_set_rows_length; eauto|].
    split; [exact Hf|].
    intros r c Hne. eapply iloc_get_set_ne; eauto.
Qed.

Lemma setData_touches_one_cell_witness :
  exists b w1,
    setData 1 (mkIndex 1 1) (Str "new") (loaded frame3x3) = Ok b w1
    /\ wf_df (_df w1)
    /\ columns (_df w1) = ["a"; "b"; "c"]
    /\ length (rows (_df w1)) = 3%nat
    /\ ignore_undo w1 = false
    /\ iloc_get (_df w1) 2 0 = Some (Num 7).
Proof.
  destruct (setData_touches_one_cell 0 (mkIndex 1 1) (Str "new") (loaded frame3x3))
    as (b & w1 & H1 & H2 & H3 & H4 & H5 & H6).
  - exact wf_frame3x3.
  - reflexivity.
  - reflexivity.
  - exists b, w1. repeat split; try assumption.
    rewrite (H6 2%nat 0%nat); [reflexivity|discriminate].
Defined.

(** ** Indexes outside the frame *)

Lemma out_of_bounds_out_of_range d i :
  isValid i = true -> in_bounds d i = false ->
  in_range d (Z.to_nat (row i)) (Z.to_nat (column i)) = false.
Proof.
  intros Hv Hb. destruct (in_range d _ _) eqn:Hr; [|reflexivity].
  assert (in_bounds d i = true) by (apply in_bounds_spec; auto). congruence.
Qed.

(** X3: an index that is valid for Qt but lies outside the frame makes
    [data] raise [IndexError]; [setData] raises it too (line 289, outside
    any [try]) unless the suppression flag is up, where the [except] of
    line 285 turns it into the answer [False]; the model is left as it
    was in each case. *)
Theorem index_outside_frame (fuel : nat) (i : QModelIndex) (v : value) (w : World) :
  isValid i = true -> in_bounds (_df w) i = false ->
  data i w = Raise IndexError w
  /\ setData fuel i v w = (if ignore_undo w then Ok false w else Raise IndexError w).
Proof.
  intros Hv Hb. pose proof (out_of_bounds_out_of_range _ _ Hv Hb) as Hr.
  split.
  - unfold data. rewrite Hv. simpl. rewrite iloc_get_out_of_range by assumption. reflexivity.
  - rewrite setData_unfold. unfold setData_with. rewrite Hv. simpl negb. cbv iota.
    destruct (ignore_undo w).
    + unfold store_and_emit, iloc_set. rewrite Hr. reflexivity.
    + rewrite iloc_get_out_of_range by assumption. reflexivity.
Qed.

Lemma index_outside_frame_witness :
  data (mkIndex 3 0) (loaded frame3x3) = Raise IndexError (loaded frame3x3)
  /\ setData 1 (mkIndex 3 0) (Str "x") (loaded frame3x3)
     = (if ignore_undo (loaded frame3x3) then Ok false (loaded frame3x3)
        else Raise IndexError (loaded frame3x3)).
Proof.
  apply (index_outside_frame 1 (mkIndex 3 0) (Str "x") (loaded frame3x3)); reflexivity.
Defined.

(** ** What the view shows after redo and undo *)

Lemma display_stored v :
  display_of v <> no_field_value -> display_of (stored v) = display_of v.
Proof.
  intros Hn. destruct v as [|s|z|]; try reflexivity.
  unfold stored. destruct (bool_decide (s = "")) eqn:E1.
  - apply bool_decide_eq_true in E1. subst. reflexivity.
  - destruct (bool_decide (s = no_field_value)) eqn:E2; [|reflexivity].
    apply bool_decide_eq_true in E2. subst. exfalso. apply Hn. reflexivity.
Qed.

Lemma display_restored v :
  display_of v <> no_field_value -> display_of (restored v) = display_of v.
Proof.
  intros Hn. unfold restored. rewrite display_stored; [reflexivity|exact Hn].
Qed.

Lemma display_undo_value cmd v :
  display_of v <> no_field_value -> display_of (undo_value cmd v) = display_of v.
Proof.
  intros Hn. destruct cmd; simpl; auto using display_stored, display_restored.
Qed.

(** X4: the text the view shows is restored by redo followed by undo.
    For a command built on a table of text columns, with texts or missing
    values to write, and a cell it writes, after any number of redo-undo
    rounds [data] answers the text it answered before, unless that text
    is the "no field value" literal. *)
Theorem displayed_text_survives_redo_undo (fuel : nat) (cmd : Command) (w : World)
    (i : QModelIndex) (v : value) (k : nat) :
  wf_df (_df w) -> text_columns (_df w) = true ->
  built_on (_df w) cmd -> text_command cmd = true ->
  In i (affected (_df w) cmd) -> in_bounds (_df w) i = true ->
  cell_at (_df w) i = Some v -> display_of v <> no_field_value ->
  exists w1,
    rounds fuel cmd (S k) w = Ok tt w1
    /\ data i w = Ok (Str (display_of v)) w
    /\ data i w1 = Ok (Str (display_of v)) w1.
Proof.
  intros Hwf Htext Hbuilt Hcmd Hin Hb Hc Hn. pose proof (in_bounds_valid _ _ Hb) as Hv.
  destruct (undo_last_write _ cmd i v Hbuilt Hin Hv Hc) as [x [Hl Hx]].
  destruct (rounds_cell fuel cmd i x k w Hwf Hb Hl) as [w1 [Hr Hc1]].
  exists w1. split; [exact Hr|]. split; [apply data_cell; assumption|].
  rewrite (data_cell w1 i _ Hv Hc1), Hx, display_undo_value by assumption. reflexivity.
Qed.

Lemma displayed_text_survives_redo_undo_witness :
  exists w1,
    rounds 0 (DeleteCellsCommand [mkIndex 2 0; mkIndex 1 2]
                (captured frame3x3 [mkIndex 2 0; mkIndex 1 2] [])) 3 (loaded frame3x3)
    = Ok tt w1
    /\ data (mkIndex 2 0) (loaded frame3x3) = Ok (Str "7") (loaded frame3x3)
    /\ data (mkIndex 2 0) w1 = Ok (Str "7") w1.
Proof.
  apply (displayed_text_survives_redo_undo 0
           (DeleteCellsCommand [mkIndex 2 0; mkIndex 1 2]
              (captured frame3x3 [mkIndex 2 0; mkIndex 1 2] []))
           (loaded frame3x3) (mkIndex 2 0) (Num 7) 2).
  - exact wf_frame3x3.
  - reflexivity.
  - reflexivity.
  - reflexivity.
  - simpl. auto.
  - reflexivity.
  - reflexivity.
  - discriminate.
Defined.

(** The exception is real: a cell that holds the literal shows blank
    after a delete and its undo. *)
Example placeholder_text_not_restored :
  exists w1,
    rounds 0 (DeleteCellsCommand [mkIndex 2 2] (captured frame3x3 [mkIndex 2 2] [])) 1
      (loaded frame3x3) = Ok tt w1
    /\ data (mkIndex 2 2) (loaded frame3x3) = Ok (Str no_field_value) (loaded frame3x3)
    /\ data (mkIndex 2 2) w1 = Ok (Str "") w1.
Proof. eexists. vm_compute. repeat split. Qed.

(** ** Paste: the clipboard holds nothing, or nothing is selected *)

Lemma parse_clipboard_blank s :
  strip s = "" -> parse_clipboard s = [].
Proof.
  intros Hs. unfold parse_clipboard. rewrite Hs. reflexivity.
Qed.

(** X5: a clipboard text that is empty or holds only white space (of
    ASCII or not) changes nothing: no command is built or pushed,
    whatever is selected. *)
Theorem paste_blank_clipboard (fuel : nat) (sel : list QModelIndex)
    (text : string) (w : World) :
  strip text = "" -> paste_clipboard_data fuel sel text w = Ok tt w.
Proof.
  intros Hs. unfold paste_clipboard_data, try_except.
  case_bool_decide; [reflexivity|].
  rewrite (parse_clipboard_blank _ Hs). reflexivity.
Qed.

Lemma paste_blank_clipboard_witness :
  paste_clipboard_data 1 selection3x3
    (String " " (String newline (String tab (String newline ideographic_space))))
    (loaded frame3x3)
  = Ok tt (loaded frame3x3).
Proof.
  apply (paste_blank_clipboard 1 selection3x3
           (String " " (String newline (String tab (String newline ideographic_space))))
           (loaded frame3x3)).
  reflexivity.
Defined.

(** White space outside ASCII is stripped like the rest: a value between
    a no-break space and an ideographic space is pasted bare, and a line
    of no-break spaces is no row. *)
Example parse_clipboard_wide_space :
  parse_clipboard (no_break_space ++ "x" ++ ideographic_space) = [["x"]]
  /\ parse_clipboard ("p" ++ String newline no_break_space ++ String newline "q")
     = [["p"]; ["q"]].
Proof. split; reflexivity. Qed.

(** X6: pasting with nothing selected never changes a cell.  A payload
    of several values fails on [selected_indexes[0]] and the [except]
    swallows the [IndexError]: the world is as it was.  A single value,
    though, still builds a [PasteMultipleCellsCommand] over no cells and
    pushes it: the history records a command that writes nothing. *)
Theorem paste_empty_selection (fuel : nat) (text : string) (w : World) :
  exists w1,
    paste_clipboard_data fuel [] text w = Ok tt w1
    /\ _df w1 = _df w
    /\ emitted w1 = emitted w
    /\ match parse_clipboard text with
       | [[v]] => text <> ""
                  /\ w1 = pushed (PasteMultipleCellsCommand [] v []) w
       | _ => w1 = w
       end.
Proof.
  unfold paste_clipboard_data, try_except.
  case_bool_decide as Ht.
  - subst text. exists w. repeat split.
  - destruct (parse_clipboard text) as [|[|v [|v' line]] [|line' rest]] eqn:Hp;
      try (exists w; repeat split; fail).
    exists (pushed (PasteMultipleCellsCommand [] v []) w).
    split; [|split; [reflexivity|split; [reflexivity|split; [exact Ht|reflexivity]]]].
    unfold bind, new_PasteMultipleCellsCommand, bind. simpl capture_old_values.
    unfold ret. rewrite push_eq. reflexivity.
Qed.

(** The recorded command takes a place in the history of 50. *)
Example paste_scalar_nothing_selected :
  exists w1,
    paste_clipboard_data 1 [] "x" (loaded frame3x3) = Ok tt w1
    /\ _df w1 = frame3x3
    /\ command_list (undo_stack w1) = [PasteMultipleCellsCommand [] "x" []].
Proof. eexists. vm_compute. repeat split. Qed.

(** ** Commands as the program builds them: what undo touches *)

Lemma targets_spec i r c :
  targets i r c = true ->
  isValid i = true /\ Z.to_nat (row i) = r /\ Z.to_nat (column i) = c.
Proof.
  unfold targets. intros H.
  apply andb_true_iff in H as [H Hc]. apply andb_true_iff in H as [Hv Hr].
  apply Nat.eqb_eq in Hr, Hc. auto.
Qed.

Lemma last_write_not_None l r c iv :
  In iv l -> targets (fst iv) r c = true -> last_write l r c <> None.
Proof.
  intros Hin Ht Hn. rewrite (last_write_None l r c Hn iv Hin) in Ht. discriminate.
Qed.

(** The captured old values hold no index but the ones captured. *)
Lemma last_write_captured_None d indexes r c :
  (forall i, In i indexes -> targets i r c = false) ->
  last_write (captured d indexes []) r c = None.
Proof.
  intros Hno. destruct (last_write _ r c) as [y|] eqn:Hl; [|reflexivity].
  apply last_write_Some in Hl as (kv & Hin & Ht & _).
  apply captured_keys in Hin as [Hin|[]].
  rewrite (Hno _ Hin) in Ht. discriminate.
Qed.

Lemma last_write_map_fst (l : list (QModelIndex * value)) r c :
  last_write l r c = None -> forall i, In i (map fst l) -> targets i r c = false.
Proof.
  intros Hn i Hin. apply in_map_iff in Hin as (iv & <- & Hin).
  apply (last_write_None l r c Hn iv Hin).
Qed.

(** A command built on [d] undoes only cells it redoes. *)
Lemma built_on_covered d cmd : built_on d cmd -> covered d cmd.
Proof.
  intros Hbuilt r c _ Hu Hr. apply Hu. clear Hu.
  destruct cmd as [i o n|sel old|pd st old|sel x old]; simpl in *.
  - destruct (targets i r c); [discriminate|reflexivity].
  - subst old. apply last_write_captured_None.
    intros i Hin. apply (last_write_map_fst _ r c Hr).
    rewrite map_fst_const. exact Hin.
  - subst old. apply last_write_captured_None.
    apply (last_write_map_fst _ r c Hr).
  - subst old. apply last_write_captured_None.
    intros i Hin. apply (last_write_map_fst _ r c Hr).
    rewrite map_fst_const. exact Hin.
Qed.

(** The frame after the redo and the undo of a command built on [d]:
    a position the redo writes holds its undo value, every other position
    what it held. *)
Lemma redo_undo_frame d cmd r c v :
  wf_df d -> built_on d cmd -> iloc_get d r c = Some v ->
  iloc_get (writes (writes d (redo_writes d cmd)) (undo_writes cmd)) r c
  = match last_write (redo_writes d cmd) r c with
    | Some _ => Some (undo_value cmd v)
    | None => Some v
    end.
Proof.
  intros Hwf Hbuilt Hg. pose proof (iloc_get_in_range _ _ _ _ Hg) as Hr.
  rewrite get_writes by (auto using writes_wf; rewrite writes_in_range; exact Hr).
  rewrite get_writes by assumption.
  destruct (last_write (redo_writes d cmd) r c) as [y|] eqn:Hl.
  - apply last_write_Some in Hl as (iv & Hin & Ht & _).
    destruct (targets_spec _ _ _ Ht) as (Hv & Hrow & Hcol).
    destruct (undo_last_write d cmd (fst iv) v Hbuilt) as [x [Hx Hs]].
    + unfold affected. apply in_map. exact Hin.
    + exact Hv.
    + unfold cell_at. rewrite Hrow, Hcol. exact Hg.
    + rewrite Hrow, Hcol in Hx. rewrite Hx, Hs. reflexivity.
  - destruct (last_write (undo_writes cmd) r c) as [x|] eqn:Hu.
    + exfalso. apply (built_on_covered d cmd Hbuilt r c Hr); [congruence|exact Hl].
    + exact Hg.
Qed.

(** ** Region paste through [paste_clipboard_data], and its undo *)

Lemma parse_clipboard_empty : parse_clipboard "" = [].
Proof. reflexivity. Qed.

Lemma paste_region_eq fuel i0 rest text w :
  wf_df (_df w) ->
  parse_clipboard text <> [] -> (forall v, parse_clipboard text <> [[v]]) ->
  paste_clipboard_data fuel (i0 :: rest) text w
  = Ok tt (pushed (PasteCellsCommand (parse_clipboard text)
                     (model_index (_df w) (row i0) (column i0))
                     (captured (_df w)
                        (map fst (paste_targets (_df w)
                                    (model_index (_df w) (row i0) (column i0)) 0
                                    (parse_clipboard text))) [])) w).
Proof.
  intros Hwf Hne Hns. unfold paste_clipboard_data, try_except.
  case_bool_decide as Ht; [subst; exfalso; apply Hne, parse_clipboard_empty|].
  set (start := model_index (_df w) (row i0) (column i0)).
  assert (Hregion :
    (start_index <- first_index (i0 :: rest) ;;
     fun w0 => new_PasteCellsCommand (parse_clipboard text)
                 (model_index (_df w0) (row start_index) (column start_index)) w0) w
    = Ok (PasteCellsCommand (parse_clipboard text) start
            (captured (_df w) (map fst (paste_targets (_df w) start 0 (parse_clipboard text))) []))
         w).
  { unfold bind, first_index. apply new_PasteCellsCommand_eq, Hwf. }
  destruct (parse_clipboard text) as [|[|v [|v' line]] [|line' more]] eqn:Hp;
    try (exfalso; apply Hne; reflexivity);
    try (exfalso; apply (Hns v); reflexivity);
    unfold bind at 1; rewrite Hregion; rewrite push_eq; reflexivity.
Qed.

(** X7: a paste of several values, from the clipboard text to the undo,
    on a table of text columns.  With at least one cell selected and a
    clipboard that parses to more than a single value,
    [paste_clipboard_data] pushes exactly one [PasteCellsCommand] anchored
    at the first selected cell; every position of the frame the block
    covers then holds the block's text for it, and every other position
    what it held.  One undo gives the covered positions their restored
    values and leaves the others alone. *)
Theorem paste_region_then_undo (fuel : nat) (i0 : QModelIndex) (rest : list QModelIndex)
    (text : string) (w : World) :
  wf_df (_df w) -> text_columns (_df w) = true -> wf_stack (undo_stack w) ->
  parse_clipboard text <> [] -> (forall v, parse_clipboard text <> [[v]]) ->
  exists old w1 w2,
    paste_clipboard_data fuel (i0 :: rest) text w = Ok tt w1
    /\ undo_stack w1
       = stack_record (PasteCellsCommand (parse_clipboard text)
                         (model_index (_df w) (row i0) (column i0)) old) (undo_stack w)
    /\ undo fuel w1 = Ok tt w2
    /\ forall r c v, iloc_get (_df w) r c = Some v ->
         match block_value (parse_clipboard text)
                 (model_index (_df w) (row i0) (column i0)) r c with
         | Some s => iloc_get (_df w1) r c = Some (stored (Str s))
                     /\ iloc_get (_df w2) r c = Some (restored v)
         | None => iloc_get (_df w1) r c = Some v
                   /\ iloc_get (_df w2) r c = Some v
         end.
Proof.
  intros Hwf Hcols Hst Hne Hns.
  set (start := model_index (_df w) (row i0) (column i0)).
  set (old := captured (_df w)
                (map fst (paste_targets (_df w) start 0 (parse_clipboard text))) []).
  set (cmd := PasteCellsCommand (parse_clipboard text) start old).
  destruct (undo_after_push fuel cmd w Hst) as [k Hundo].
  exists old, (pushed cmd w), (undone k cmd (pushed cmd w)).
  split; [apply paste_region_eq; assumption|].
  split; [reflexivity|]. split; [exact Hundo|].
  intros r c v Hg. pose proof (iloc_get_in_range _ _ _ _ Hg) as Hr.
  assert (Hbuilt : built_on (_df w) cmd) by reflexivity.
  assert (H2 : iloc_get (_df (undone k cmd (pushed cmd w))) r c
               = match last_write (redo_writes (_df w) cmd) r c with
                 | Some _ => Some (undo_value cmd v)
                 | None => Some v
                 end).
  { rewrite undone_df, pushed_df. apply redo_undo_frame; assumption. }
  assert (H1 : iloc_get (_df (pushed cmd w)) r c
               = match last_write (redo_writes (_df w) cmd) r c with
                 | Some x => Some (stored x)
                 | None => Some v
                 end).
  { rewrite pushed_df, get_writes by assumption. rewrite Hg. reflexivity. }
  simpl redo_writes in H1, H2. simpl undo_value in H2.
  rewrite paste_targets_last in H1, H2 by assumption. cbv zeta in H1, H2.
  unfold block_value.
  replace (Z.of_nat r - row start - 0) with (Z.of_nat r - row start) in H1, H2 by lia.
  destruct (_ && _).
  - destruct (parse_clipboard text !! _ ≫= _) as [s|]; simpl in H1, H2;
      split; assumption.
  - split; assumption.
Qed.

Lemma paste_region_then_undo_witness :
  exists old w1 w2,
    paste_clipboard_data 1 [mkIndex 1 1; mkIndex 0 0]
      (String "p" (String tab (String "q" (String newline (String "r" (String tab "s"))))))
      (loaded frame3x3) = Ok tt w1
    /\ undo_stack w1
       = stack_record (PasteCellsCommand [["p"; "q"]; ["r"; "s"]] (mkIndex 1 1) old)
           (undo_stack (loaded frame3x3))
    /\ undo 1 w1 = Ok tt w2
    /\ iloc_get (_df w1) 1 2 = Some (Str "q")
    /\ iloc_get (_df w2) 1 2 = Some NA
    /\ iloc_get (_df w1) 0 0 = Some (Str "a0")
    /\ iloc_get (_df w2) 0 0 = Some (Str "a0").
Proof.
  destruct (paste_region_then_undo 1 (mkIndex 1 1) [mkIndex 0 0]
              (String "p" (String tab (String "q" (String newline (String "r" (String tab "s"))))))
              (loaded frame3x3)) as (old & w1 & w2 & H1 & H2 & H3 & H4).
  - exact wf_frame3x3.
  - reflexivity.
  - unfold wf_stack. simpl. lia.
  - discriminate.
  - intros v. discriminate.
  - pose proof (H4 1%nat 2%nat (Str "") eq_refl) as [A1 A2].
    pose proof (H4 0%nat 0%nat (Str "a0") eq_refl) as [B1 B2].
    exists old, w1, w2. repeat split; assumption.
Defined.

(** ** The model between user actions *)

Lemma write_cell_columns d iv : columns (write_cell d iv) = columns d.
Proof.
  unfold write_cell. destruct (isValid (fst iv)); [|reflexivity].
  destruct (iloc_set d _ _ _) eqn:E; [|reflexivity].
  eapply iloc_set_columns; eauto.
Qed.

Lemma write_cell_rows_length d iv : length (rows (write_cell d iv)) = length (rows d).
Proof.
  unfold write_cell. destruct (isValid (fst iv)); [|reflexivity].
  destruct (iloc_set d _ _ _) eqn:E; [|reflexivity].
  eapply iloc_set_rows_length; eauto.
Qed.

Lemma writes_columns l : forall d, columns (writes d l) = columns d.
Proof.
  induction l as [|iv l IH]; intros d; [reflexivity|].
  change (writes d (iv :: l)) with (writes (write_cell d iv) l).
  rewrite IH. apply write_cell_columns.
Qed.

Lemma writes_rows_length l : forall d, length (rows (writes d l)) = length (rows d).
Proof.
  induction l as [|iv l IH]; intros d; [reflexivity|].
  change (writes d (iv :: l)) with (writes (write_cell d iv) l).
  rewrite IH. apply write_cell_rows_length.
Qed.

Lemma same_shape_refl w : same_shape w w.
Proof. split; reflexivity. Qed.

Lemma same_shape_trans w1 w2 w3 : same_shape w1 w2 -> same_shape w2 w3 -> same_shape w1 w3.
Proof. intros [A B] [C D]. split; congruence. Qed.

Lemma same_shape_hasIndex w w' a b :
  same_shape w w' -> hasIndex (_df w') a b = hasIndex (_df w) a b.
Proof. intros [A B]. unfold hasIndex, rowCount, columnCount. rewrite A, B. reflexivity. Qed.

Lemma same_shape_index_ok w w' i :
  same_shape w w' -> index_ok (_df w') i = index_ok (_df w) i.
Proof.
  intros H. unfold index_ok, in_bounds. rewrite (same_shape_hasIndex _ _ _ _ H). reflexivity.
Qed.

Lemma same_shape_pushed cmd w : same_shape w (pushed cmd w).
Proof. split; rewrite pushed_df; [apply writes_columns|apply writes_rows_length]. Qed.

Lemma ready_pushed cmd w : ready w -> ready (pushed cmd w).
Proof.
  intros (Hwf & Hf & Hm). repeat split.
  - rewrite pushed_df. apply writes_wf, Hwf.
  - unfold pushed. simpl. rewrite flagged_steps_model_undo_stack. exact Hm.
Qed.

Lemma pushed_undo_limit cmd w :
  undo_limit (undo_stack (pushed cmd w)) = undo_limit (undo_stack w).
Proof. reflexivity. Qed.

Lemma steady_pushed cmd w : steady w -> steady (pushed cmd w).
Proof.
  intros (Hr & Hst & Hl). split; [apply ready_pushed, Hr|]. split.
  - rewrite pushed_undo_stack. apply stack_record_wf, Hst.
  - rewrite pushed_undo_stack. intros H.
    exact (stack_record_bound cmd (undo_stack w) H).
Qed.

Lemma pushes_trans w1 w2 w3 : pushes w1 w2 -> pushes w2 w3 -> pushes w1 w3.
Proof.
  induction 1 as [|w cmd w' Hb _ IH]; intros H3; [exact H3|].
  eapply pushes_step; eauto.
Qed.

Lemma pushes_one cmd w : built_on (_df w) cmd -> pushes w (pushed cmd w).
Proof. intros H. eapply pushes_step; [exact H|apply pushes_refl]. Qed.

Lemma pushes_ready w w' : pushes w w' -> ready w -> ready w'.
Proof. induction 1; auto using ready_pushed. Qed.

Lemma pushes_steady w w' : pushes w w' -> steady w -> steady w'.
Proof. induction 1; auto using steady_pushed. Qed.

Lemma pushes_same_shape w w' : pushes w w' -> same_shape w w'.
Proof.
  induction 1 as [|w cmd w' _ _ IH]; [apply same_shape_refl|].
  eapply same_shape_trans; [apply same_shape_pushed|exact IH].
Qed.

Lemma pushes_undo_limit w w' :
  pushes w w' -> undo_limit (undo_stack w') = undo_limit (undo_stack w).
Proof. induction 1 as [|w cmd w' _ _ IH]; [reflexivity|]. rewrite IH. reflexivity. Qed.

Lemma pushes_history_ok w w' : pushes w w' -> history_ok w -> history_ok w'.
Proof.
  induction 1 as [|w cmd w' Hb _ IH]; intros Hok; [exact Hok|].
  apply IH, history_ok_pushed; [exact Hok|apply built_on_covered, Hb].
Qed.

(** *** Each recording action is a number of pushes *)

Lemma data_outside i w :
  isValid i = true -> in_bounds (_df w) i = false -> data i w = Raise IndexError w.
Proof.
  intros Hv Hb. unfold data. rewrite Hv. simpl.
  rewrite iloc_get_out_of_range by (apply out_of_bounds_out_of_range; assumption).
  reflexivity.
Qed.

(** [data] never changes the model. *)
Lemma data_cases i w :
  wf_df (_df w) ->
  (index_ok (_df w) i = true /\ data i w = Ok (data_of (_df w) i) w)
  \/ (index_ok (_df w) i = false /\ data i w = Raise IndexError w).
Proof.
  intros Hwf. destruct (index_ok (_df w) i) eqn:Hok.
  - left. split; [reflexivity|]. apply data_eq; assumption.
  - right. split; [reflexivity|]. unfold index_ok in Hok.
    apply orb_false_iff in Hok as [Hv Hb]. apply negb_false_iff in Hv.
    apply data_outside; assumption.
Qed.

Lemma capture_old_values_cases w indexes : forall acc,
  wf_df (_df w) ->
  capture_old_values indexes acc w = Ok (captured (_df w) indexes acc) w
  \/ capture_old_values indexes acc w = Raise IndexError w.
Proof.
  induction indexes as [|i l IH]; intros acc Hwf; [left; reflexivity|].
  cbn [capture_old_values]. unfold bind.
  destruct (data_cases i w Hwf) as [[_ ->]|[_ ->]]; [|right; reflexivity].
  apply IH, Hwf.
Qed.

Lemma setData_pushes fuel i v w :
  ready w -> index_ok (_df w) i = true ->
  exists b w', setData (S fuel) i v w = Ok b w' /\ pushes w w'.
Proof.
  intros (Hwf & Hf & Hm) Hok. unfold index_ok in Hok.
  destruct (isValid i) eqn:Hv; simpl in Hok.
  - destruct (cell_at_is_Some _ _ Hwf Hok) as [old Hc].
    rewrite (setData_result fuel i v w old Hok Hc), Hf, Hm.
    destruct (values_differ old (new_value_of v)).
    + eexists. eexists. split; [reflexivity|]. apply pushes_one. exact Hc.
    + exists false, w. split; [reflexivity|apply pushes_refl].
  - exists false, w. split; [|apply pushes_refl].
    rewrite setData_unfold. unfold setData_with. rewrite Hv. reflexivity.
Qed.

Lemma clear_selected_cells_pushes fuel sel w :
  ready w -> exists w', clear_selected_cells fuel sel w = Ok tt w' /\ pushes w w'.
Proof.
  intros (Hwf & _). unfold clear_selected_cells, try_except, new_DeleteCellsCommand, bind.
  destruct (capture_old_values_cases w sel [] Hwf) as [->| ->].
  - unfold ret. rewrite push_eq. eexists. split; [reflexivity|].
    apply pushes_one. reflexivity.
  - exists w. split; [reflexivity|apply pushes_refl].
Qed.

Lemma paste_clipboard_data_pushes fuel sel text w :
  ready w -> exists w', paste_clipboard_data fuel sel text w = Ok tt w' /\ pushes w w'.
Proof.
  intros (Hwf & _).
  assert (Hscalar : forall v,
    exists w', try_except (command <- new_PasteMultipleCellsCommand sel v ;; push fuel command) w
               = Ok tt w' /\ pushes w w').
  { intros v. unfold try_except, new_PasteMultipleCellsCommand, bind.
    destruct (capture_old_values_cases w sel [] Hwf) as [->| ->].
    - unfold ret. rewrite push_eq. eexists. split; [reflexivity|].
      apply pushes_one. reflexivity.
    - exists w. split; [reflexivity|apply pushes_refl]. }
  assert (Hregion : forall dm,
    exists w', try_except
                 (command <- (start_index <- first_index sel ;;
                              fun w0 => new_PasteCellsCommand dm
                                (model_index (_df w0) (row start_index) (column start_index)) w0) ;;
                  push fuel command) w
               = Ok tt w' /\ pushes w w').
  { intros dm. unfold try_except, bind, first_index. destruct sel as [|i0 rest].
    - exists w. split; [reflexivity|apply pushes_refl].
    - rewrite new_PasteCellsCommand_eq by assumption. rewrite push_eq.
      eexists. split; [reflexivity|]. apply pushes_one. reflexivity. }
  unfold paste_clipboard_data.
  case_bool_decide; [exists w; split; [reflexivity|apply pushes_refl]|].
  destruct (parse_clipboard text) as [|[|v [|v' line]] [|line' more]];
    first [ exists w; split; [reflexivity|apply pushes_refl]
          | apply Hscalar
          | apply Hregion ].
Qed.

Lemma data_Str_in_bounds i s w :
  wf_df (_df w) -> data i w = Ok (Str s) w -> in_bounds (_df w) i = true.
Proof.
  intros Hwf Hd. unfold data in Hd. destruct (isValid i) eqn:Hv; simpl in Hd; [|discriminate].
  destruct (iloc_get _ _ _) eqn:Hg; [|discriminate].
  apply in_bounds_spec. split; [exact Hv|]. eapply iloc_get_in_range; eauto.
Qed.

Lemma front_space_cell_pushes fuel f i w :
  ready w ->
  exists w', pushes w w'
    /\ (front_space_cell (S fuel) f i w = Ok tt w'
        \/ (w' = w /\ front_space_cell (S fuel) f i w = Raise IndexError w)).
Proof.
  intros Hr. unfold front_space_cell, bind.
  destruct (data_cases i w (proj1 Hr)) as [[Hok Hd]|[_ Hd]]; rewrite Hd.
  - destruct (data_of (_df w) i) as [|s|z|] eqn:Hv;
      try (exists w; split; [apply pushes_refl|left; reflexivity]).
    destruct (bool_decide (strip s <> ""));
      [|exists w; split; [apply pushes_refl|left; reflexivity]].
    destruct (setData_pushes fuel i (Str (f s)) w Hr Hok) as (b & w1 & Hs & Hp).
    exists w1. split; [exact Hp|left]. unfold call_setData, bind. rewrite Hs. reflexivity.
  - exists w. split; [apply pushes_refl|right; split; reflexivity].
Qed.

Lemma front_space_loop_pushes fuel f sel : forall w,
  ready w ->
  exists w', pushes w w'
    /\ (for_each (front_space_cell (S fuel) f) sel w = Ok tt w'
        \/ for_each (front_space_cell (S fuel) f) sel w = Raise IndexError w').
Proof.
  induction sel as [|i sel IH]; intros w Hr.
  - exists w. split; [apply pushes_refl|left; reflexivity].
  - cbn [for_each]. unfold bind.
    destruct (front_space_cell_pushes fuel f i w Hr) as (w1 & Hp & [->|[-> ->]]).
    + destruct (IH w1 (pushes_ready _ _ Hp Hr)) as (w' & Hp' & Hres).
      exists w'. split; [eapply pushes_trans; eauto|exact Hres].
    + exists w. split; [apply pushes_refl|right; reflexivity].
Qed.

Lemma front_space_selected_cells_pushes fuel f sel w :
  ready w ->
  exists w', front_space_selected_cells (S fuel) sel f w = Ok tt w' /\ pushes w w'.
Proof.
  intros Hr. unfold front_space_selected_cells, try_except.
  destruct (front_space_loop_pushes fuel f sel w Hr) as (w' & Hp & [->| ->]);
    exists w'; split; auto.
Qed.

(** Every action that is not an undo or a redo comes to a number of
    pushes of commands built on the frame they find. *)
Lemma perform_pushes fuel a w :
  ready w -> action_ok (_df w) a -> records a ->
  exists w', perform (S fuel) a w = Ok tt w' /\ pushes w w'.
Proof.
  intros Hr Hok Hrec. destruct a as [i text|sel|sel text|sel| |]; simpl in *; try contradiction.
  - destruct (setData_pushes fuel i (Str text) w Hr Hok) as (b & w' & Hs & Hp).
    exists w'. split; [|exact Hp]. unfold bind, edit_cell. rewrite Hs. reflexivity.
  - apply clear_selected_cells_pushes, Hr.
  - apply paste_clipboard_data_pushes, Hr.
  - apply front_space_selected_cells_pushes, Hr.
Qed.

Lemma perform_list_pushes fuel actions : forall w,
  ready w -> Forall (action_ok (_df w)) actions -> Forall records actions ->
  exists w', for_each (perform (S fuel)) actions w = Ok tt w' /\ pushes w w'.
Proof.
  induction actions as [|a actions IH]; intros w Hr Hok Hrec.
  - exists w. split; [reflexivity|apply pushes_refl].
  - inversion Hok as [|? ? Ha Hok']; subst. inversion Hrec as [|? ? Hra Hrec']; subst.
    destruct (perform_pushes fuel a w Hr Ha Hra) as (w1 & H1 & Hp1).
    destruct (IH w1) as (w' & H' & Hp'); [eapply pushes_ready; eauto| |exact Hrec'|].
    { eapply Forall_impl; [exact Hok'|]. intros b Hb. destruct b; simpl in *; auto.
      rewrite (same_shape_index_ok w w1); auto using pushes_same_shape. }
    exists w'. split; [|eapply pushes_trans; eauto].
    cbn [for_each]. unfold bind. rewrite H1. exact H'.
Qed.

(** *** Undo and redo keep the model steady *)

Lemma steady_apply_writes k l w :
  steady w -> (k <= length (command_list (undo_stack w)))%nat ->
  steady (set_undo_stack (stack_at k (undo_stack w)) (apply_writes w l))
  /\ same_shape w (set_undo_stack (stack_at k (undo_stack w)) (apply_writes w l)).
Proof.
  intros ((Hwf & Hf & Hm) & Hst & Hl) Hk. split; [split; [|split]|split].
  - repeat split.
    + simpl. rewrite flagged_steps_df. apply writes_wf, Hwf.
    + simpl. rewrite flagged_steps_model_undo_stack. exact Hm.
  - unfold wf_stack. simpl. rewrite ?flagged_steps_undo_stack. exact Hk.
  - simpl. rewrite ?flagged_steps_undo_stack. exact Hl.
  - simpl. rewrite flagged_steps_df. apply writes_columns.
  - simpl. rewrite flagged_steps_df. apply writes_rows_length.
Qed.

Lemma undo_steady fuel w :
  steady w ->
  exists w', undo fuel w = Ok tt w' /\ steady w' /\ same_shape w w'
             /\ undo_limit (undo_stack w') = undo_limit (undo_stack w).
Proof.
  intros Hs. pose proof Hs as (_ & Hst & _). unfold wf_stack in Hst.
  destruct (stack_index (undo_stack w)) as [|k] eqn:Hi.
  - exists w. split; [apply undo_at_bottom, Hi|]. auto using same_shape_refl.
  - destruct (lookup_lt_is_Some_2 (command_list (undo_stack w)) k) as [cmd Hc]; [lia|].
    rewrite (undo_eq fuel w k cmd Hi Hc).
    destruct (steady_apply_writes k (undo_writes cmd) w Hs) as [H1 H2]; [lia|].
    eexists. split; [reflexivity|]. split; [exact H1|]. split; [exact H2|].
    simpl. rewrite ?flagged_steps_undo_stack. reflexivity.
Qed.

Lemma redo_at_top fuel w :
  command_list (undo_stack w) !! stack_index (undo_stack w) = None ->
  redo fuel w = Ok tt w.
Proof. intros H. unfold redo, QUndoStack_redo. rewrite H. reflexivity. Qed.

Lemma redo_steady fuel w :
  steady w ->
  exists w', redo fuel w = Ok tt w' /\ steady w' /\ same_shape w w'
             /\ undo_limit (undo_stack w') = undo_limit (undo_stack w).
Proof.
  intros Hs.
  destruct (command_list (undo_stack w) !! stack_index (undo_stack w)) as [cmd|] eqn:Hc.
  - rewrite (redo_eq fuel w cmd Hc).
    pose proof (lookup_lt_Some _ _ _ Hc) as Hlt.
    destruct (steady_apply_writes (S (stack_index (undo_stack w)))
                (redo_writes (_df w) cmd) w Hs) as [H1 H2]; [lia|].
    eexists. split; [reflexivity|]. split; [exact H1|]. split; [exact H2|].
    simpl. rewrite ?flagged_steps_undo_stack. reflexivity.
  - exists w. split; [apply redo_at_top, Hc|]. auto using same_shape_refl.
Qed.

Lemma perform_steady fuel a w :
  steady w -> action_ok (_df w) a ->
  exists w', perform (S fuel) a w = Ok tt w' /\ steady w' /\ same_shape w w'
             /\ undo_limit (undo_stack w') = undo_limit (undo_stack w).
Proof.
  intros Hs Hok.
  assert (Hrec : records a ->
    exists w', perform (S fuel) a w = Ok tt w' /\ steady w' /\ same_shape w w'
               /\ undo_limit (undo_stack w') = undo_limit (undo_stack w)).
  { intros Hrec.
    destruct (perform_pushes fuel a w (proj1 Hs) Hok Hrec) as (w' & H1 & Hp).
    exists w'. split; [exact H1|].
    split; [eapply pushes_steady; [exact Hp|exact Hs]|].
    auto using pushes_same_shape, pushes_undo_limit. }
  destruct a; try (apply Hrec; exact I).
  - apply undo_steady, Hs.
  - apply redo_steady, Hs.
Qed.

Lemma perform_list_steady fuel actions : forall w,
  steady w -> Forall (action_ok (_df w)) actions ->
  exists w',
    for_each (perform (S fuel)) actions w = Ok tt w'
    /\ steady w' /\ same_shape w w'
    /\ undo_limit (undo_stack w') = undo_limit (undo_stack w).
Proof.
  induction actions as [|a actions IH]; intros w Hs Hok.
  - exists w. repeat split; auto; apply Hs.
  - inversion Hok as [|? ? Ha Hok']; subst.
    destruct (perform_steady fuel a w Hs Ha) as (w1 & H1 & Hs1 & Hsh1 & Hl1).
    destruct (IH w1 Hs1) as (w' & H' & Hs' & Hsh' & Hl').
    { eapply Forall_impl; [exact Hok'|]. intros b Hb. destruct b; simpl in *; auto.
      rewrite (same_shape_index_ok w w1); auto. }
    exists w'. split; [cbn [for_each]; unfold bind; rewrite H1; exact H'|].
    split; [exact Hs'|]. split; [eapply same_shape_trans; eauto|congruence].
Qed.

(** X8: the model stays steady under everything the user can do.  From
    a state with a rectangular frame, the flag down, the stack attached
    and the history within its bounds, any sequence of edits, deletes,
    pastes, front-space transformations, undos and redos, with any
    selections and any clipboard texts, runs to the end without an
    escaping exception and ends in such a state again: the frame has the
    same columns and as many rows, the flag is down, the position of the
    history is within its list, and the list is no longer than the undo
    limit (50, line 1000). *)
Theorem actions_keep_model_steady (fuel : nat) (actions : list action) (w : World) :
  steady w -> Forall (action_ok (_df w)) actions ->
  exists w',
    for_each (perform (S fuel)) actions w = Ok tt w'
    /\ steady w'
    /\ columns (_df w') = columns (_df w)
    /\ length (rows (_df w')) = length (rows (_df w))
    /\ undo_limit (undo_stack w') = undo_limit (undo_stack w).
Proof.
  intros Hs Hok.
  destruct (perform_list_steady fuel actions w Hs Hok) as (w' & H1 & H2 & [H3 H4] & H5).
  exists w'. auto.
Qed.

Lemma steady_loaded d : wf_df d -> steady (loaded d).
Proof.
  intros Hwf. repeat split; auto; unfold wf_stack; simpl; lia.
Qed.

Lemma actions_keep_model_steady_witness :
  exists w',
    for_each (perform 1)
      [ UserEdit (mkIndex 0 0) "x"; UserClear [mkIndex 1 0; mkIndex 7 7];
        UserPaste [] (String "p" (String tab "q")); UserUndo; UserUndo;
        UserFrontSpace selection3x3; UserRedo;
        UserPaste [mkIndex 2 2] (String "p" (String tab "q")) ]
      (loaded frame3x3) = Ok tt w'
    /\ ignore_undo w' = false
    /\ columns (_df w') = ["a"; "b"; "c"]
    /\ length (rows (_df w')) = 3%nat
    /\ (length (command_list (undo_stack w')) <= 50)%nat.
Proof.
  destruct (actions_keep_model_steady 0
      [ UserEdit (mkIndex 0 0) "x"; UserClear [mkIndex 1 0; mkIndex 7 7];
        UserPaste [] (String "p" (String tab "q")); UserUndo; UserUndo;
        UserFrontSpace selection3x3; UserRedo;
        UserPaste [mkIndex 2 2] (String "p" (String tab "q")) ]
      (loaded frame3x3)) as (w' & H1 & H2 & H3 & H4 & H5).
  - apply steady_loaded, wf_frame3x3.
  - repeat constructor.
  - exists w'. destruct H2 as ((_ & Hf & _) & _ & Hl).
    split; [exact H1|]. split; [exact Hf|]. split; [exact H3|]. split; [exact H4|].
    rewrite H5 in Hl. apply Hl. simpl. lia.
Defined.

(** ** Undo and redo after any recording actions *)

(** X9: whatever edits, deletes, pastes and front-space transformations
    were made on a freshly loaded table, undoing the last [n] recorded
    commands and redoing them gives back the frame, value for value, and
    the history as it was. *)
Theorem undo_redo_after_any_actions (fuel : nat) (d : DataFrame) (limit : nat)
    (log : list signal) (actions : list action) (n : nat) :
  wf_df d -> Forall (action_ok d) actions -> Forall records actions ->
  exists w w1 w2,
    for_each (perform (S fuel)) actions (mkWorld d false true (mkStack [] 0 limit) log)
    = Ok tt w
    /\ times (Nat.min n (stack_index (undo_stack w))) (undo fuel) w = Ok tt w1
    /\ times (Nat.min n (stack_index (undo_stack w))) (redo fuel) w1 = Ok tt w2
    /\ (forall r c, iloc_get (_df w2) r c = iloc_get (_df w) r c)
    /\ undo_stack w2 = undo_stack w.
Proof.
  intros Hwf Hok Hrec.
  pose proof (history_ok_fresh d limit log Hwf) as Hfresh.
  destruct (perform_list_pushes fuel actions (mkWorld d false true (mkStack [] 0 limit) log))
    as (w & Hrun & Hp); auto.
  { destruct Hfresh as (A & B & C & _). repeat split; assumption. }
  pose proof (pushes_history_ok _ _ Hp Hfresh) as Hh.
  pose proof (history_ok_wf_stack w Hh) as Hst.
  destruct Hh as (Hwf' & _ & _ & Hfull & Hcons & Hcov).
  destruct (undo_redo_restores fuel (Nat.min n (stack_index (undo_stack w))) w)
    as (w1 & w2 & H1 & H2 & H3 & H4); auto; [lia|].
  exists w, w1, w2. auto.
Qed.

Lemma undo_redo_after_any_actions_witness :
  exists w w1 w2,
    for_each (perform 1)
      [ UserEdit (mkIndex 0 0) "x"; UserClear [mkIndex 1 0; mkIndex 2 0];
        UserPaste [mkIndex 1 1] (String "p" (String tab "q"));
        UserFrontSpace selection3x3 ]
      (mkWorld frame3x3 false true (mkStack [] 0 50) []) = Ok tt w
    /\ times (Nat.min 4 (stack_index (undo_stack w))) (undo 0) w = Ok tt w1
    /\ times (Nat.min 4 (stack_index (undo_stack w))) (redo 0) w1 = Ok tt w2
    /\ (forall r c, iloc_get (_df w2) r c = iloc_get (_df w) r c)
    /\ undo_stack w2 = undo_stack w.
Proof.
  apply (undo_redo_after_any_actions 0 frame3x3 50 []
      [ UserEdit (mkIndex 0 0) "x"; UserClear [mkIndex 1 0; mkIndex 2 0];
        UserPaste [mkIndex 1 1] (String "p" (String tab "q"));
        UserFrontSpace selection3x3 ] 4).
  - exact wf_frame3x3.
  - repeat constructor.
  - repeat constructor.
Defined.

(** ** Adding a space in front of the selected cells *)

Lemma add_front_space_stored s :
  stored (new_value_of (Str (add_front_space s))) = Str (add_front_space s).
Proof. reflexivity. Qed.

Lemma add_front_space_differs v :
  strip (display_of v) <> "" ->
  values_differ v (new_value_of (Str (add_front_space (display_of v)))) = true.
Proof.
  intros Hs. destruct v as [|s|z|]; try reflexivity.
  unfold values_differ, new_value_of, add_front_space. simpl.
  apply negb_true_iff, bool_decide_eq_false. intros H. injection H as H.
  symmetry in H. revert H. apply (prefixed_differs " " s). discriminate.
Qed.

Lemma front_space_cell_result fuel i v w :
  ready w -> in_bounds (_df w) i = true -> cell_at (_df w) i = Some v ->
  front_space_cell (S fuel) add_front_space i w
  = if bool_decide (strip (display_of v) <> "")
    then Ok tt (pushed (EditCellCommand i v (Str (add_front_space (display_of v)))) w)
    else Ok tt w.
Proof.
  intros (Hwf & Hf & Hm) Hb Hc. unfold front_space_cell, bind.
  rewrite (data_cell w i v (in_bounds_valid _ _ Hb) Hc).
  case_bool_decide as Hs; [|reflexivity].
  unfold call_setData, bind.
  rewrite (setData_result fuel i _ w v Hb Hc), Hf, Hm, add_front_space_differs by assumption.
  reflexivity.
Qed.

Lemma cell_at_other_write d i x j :
  wf_df d -> in_bounds d j = true -> j <> i ->
  cell_at (writes d [(i, x)]) j = cell_at d j.
Proof.
  intros Hwf Hb Hne. rewrite cell_at_writes by assumption. simpl.
  destruct (targets i _ _) eqn:Ht; [|reflexivity].
  apply targets_inj in Ht; [congruence|]. eapply in_bounds_valid; eauto.
Qed.

Lemma cell_at_own_write d i x :
  wf_df d -> in_bounds d i = true ->
  cell_at (writes d [(i, x)]) i = Some (stored x).
Proof.
  intros Hwf Hb. rewrite cell_at_writes by assumption. simpl.
  rewrite targets_self by (eapply in_bounds_valid; eauto). reflexivity.
Qed.

Lemma front_space_loop_cells fuel sel : forall w,
  ready w -> NoDup sel -> Forall (fun i => in_bounds (_df w) i = true) sel ->
  exists w',
    for_each (front_space_cell (S fuel) add_front_space) sel w = Ok tt w'
    /\ forall j v, in_bounds (_df w) j = true -> cell_at (_df w) j = Some v ->
         cell_at (_df w') j
         = if bool_decide (j ∈ sel) && bool_decide (strip (display_of v) <> "")
           then Some (Str (add_front_space (display_of v))) else Some v.
Proof.
  induction sel as [|i sel IH]; intros w Hr Hnd Hall.
  - exists w. split; [reflexivity|]. intros j v _ Hc. rewrite Hc.
    rewrite bool_decide_eq_false_2 by apply not_elem_of_nil. reflexivity.
  - apply NoDup_cons in Hnd as [Hni Hnd].
    inversion Hall as [|? ? Hbi Hall']; subst.
    destruct (cell_at_is_Some _ _ (proj1 Hr) Hbi) as [vi Hci].
    cbn [for_each]. unfold bind.
    rewrite (front_space_cell_result fuel i vi w Hr Hbi Hci).
    destruct (bool_decide (strip (display_of vi) <> "")) eqn:Hs.
    + set (w1 := pushed (EditCellCommand i vi (Str (add_front_space (display_of vi)))) w).
      destruct (IH w1) as (w' & Hrun & Hcells).
      { apply ready_pushed, Hr. }
      { exact Hnd. }
      { eapply Forall_impl; [exact Hall'|]. intros j Hj. cbv beta.
        unfold w1. rewrite pushed_df, writes_in_bounds. exact Hj. }
      exists w'. split; [exact Hrun|]. intros j v Hbj Hcj.
      assert (Hbj1 : in_bounds (_df w1) j = true).
      { unfold w1. rewrite pushed_df, writes_in_bounds. exact Hbj. }
      destruct (decide (j = i)) as [->|Hne].
      * rewrite Hci in Hcj. injection Hcj as <-.
        rewrite (Hcells i (Str (add_front_space (display_of vi))) Hbj1).
        2:{ unfold w1. rewrite pushed_df. simpl redo_writes.
            rewrite cell_at_own_write by (apply Hr || assumption). reflexivity. }
        rewrite (bool_decide_eq_false_2 (i ∈ sel)) by assumption.
        rewrite (bool_decide_eq_true_2 (i ∈ i :: sel)) by apply list_elem_of_here.
        rewrite Hs. reflexivity.
      * rewrite (Hcells j v Hbj1).
        2:{ unfold w1. rewrite pushed_df. simpl redo_writes.
            rewrite cell_at_other_write by (apply Hr || assumption). exact Hcj. }
        rewrite (bool_decide_ext (j ∈ i :: sel) (j ∈ sel)) by (rewrite elem_of_cons; tauto).
        reflexivity.
    + destruct (IH w Hr Hnd Hall') as (w' & Hrun & Hcells).
      exists w'. split; [exact Hrun|]. intros j v Hbj Hcj.
      rewrite (Hcells j v Hbj Hcj).
      destruct (decide (j = i)) as [->|Hne].
      * rewrite Hci in Hcj. injection Hcj as <-. rewrite Hs.
        rewrite !andb_false_r. reflexivity.
      * rewrite (bool_decide_ext (j ∈ i :: sel) (j ∈ sel)) by (rewrite elem_of_cons; tauto).
        reflexivity.
Qed.

(** X10: "add a space in front" on a selection of distinct cells of a
    table of text columns: every selected cell whose text is not blank
    ends up holding its text, as [data] shows it, with one space in
    front; every blank selected cell and every cell outside the selection
    keeps its value. *)
Theorem front_space_prefixes_text (fuel : nat) (sel : list QModelIndex) (w : World) :
  ready w -> text_columns (_df w) = true ->
  NoDup sel -> Forall (fun i => in_bounds (_df w) i = true) sel ->
  exists w',
    front_space_selected_cells (S fuel) sel add_front_space w = Ok tt w'
    /\ forall j v, in_bounds (_df w) j = true -> cell_at (_df w) j = Some v ->
         cell_at (_df w') j
         = if bool_decide (j ∈ sel) && bool_decide (strip (display_of v) <> "")
           then Some (Str (" " ++ display_of v)) else Some v.
Proof.
  intros Hr Htext Hnd Hall.
  destruct (front_space_loop_cells fuel sel w Hr Hnd Hall) as (w' & Hrun & Hcells).
  exists w'. split; [|exact Hcells].
  unfold front_space_selected_cells, try_except. rewrite Hrun. reflexivity.
Qed.

Lemma front_space_prefixes_text_witness :
  exists w',
    front_space_selected_cells 1 [mkIndex 2 0; mkIndex 1 1; mkIndex 0 1] add_front_space
      (loaded frame3x3) = Ok tt w'
    /\ cell_at (_df w') (mkIndex 2 0) = Some (Str " 7")
    /\ cell_at (_df w') (mkIndex 1 1) = Some NA
    /\ cell_at (_df w') (mkIndex 0 1) = Some (Str " b0")
    /\ cell_at (_df w') (mkIndex 0 0) = Some (Str "a0").
Proof.
  destruct (front_space_prefixes_text 0 [mkIndex 2 0; mkIndex 1 1; mkIndex 0 1]
              (loaded frame3x3)) as (w' & H1 & H2).
  - repeat split. exact wf_frame3x3.
  - reflexivity.
  - apply (bool_decide_eq_true_1 (NoDup [mkIndex 2 0; mkIndex 1 1; mkIndex 0 1])).
    vm_compute. reflexivity.
  - repeat constructor.
  - exists w'. split; [exact H1|].
    rewrite (H2 (mkIndex 2 0) (Num 7)), (H2 (mkIndex 1 1) NA),
      (H2 (mkIndex 0 1) (Str "b0")), (H2 (mkIndex 0 0) (Str "a0")) by reflexivity.
    repeat split.
Defined.

(** A cell that holds nothing but a no-break space counts as blank and
    is skipped. *)
Example front_space_skips_wide_space :
  front_space_selected_cells 1 [mkIndex 0 0] add_front_space
    (loaded (mkDataFrame ["a"] [ [Str no_break_space]; [Str "x"] ]))
  = Ok tt (loaded (mkDataFrame ["a"] [ [Str no_break_space]; [Str "x"] ])).
Proof. reflexivity. Qed.

(** Each cell is its own command: two cells prefixed take two undos. *)
Example front_space_records_one_command_per_cell :
  exists w' w1,
    front_space_selected_cells 1 [mkIndex 0 0; mkIndex 0 1] add_front_space
      (loaded frame3x3) = Ok tt w'
    /\ length (command_list (undo_stack w')) = 2%nat
    /\ undo 1 w' = Ok tt w1
    /\ cell_at (_df w1) (mkIndex 0 0) = Some (Str " a0")
    /\ cell_at (_df w1) (mkIndex 0 1) = Some (Str "b0").
Proof. eexists. eexists. vm_compute. repeat split. Qed.

(** ** The cells a run of the worker updates *)

Lemma updated_cells_app l1 l2 :
  updated_cells (l1 ++ l2) = (updated_cells l1 ++ updated_cells l2)%list.
Proof. apply flat_map_app. Qed.

Lemma only_logs_updated signals : only_logs signals -> updated_cells signals = [].
Proof.
  induction 1 as [|s l Hs _ IH]; [reflexivity|].
  unfold updated_cells in *. simpl. rewrite IH. destruct s; try contradiction; reflexivity.
Qed.

Lemma process_cell_updates env cfg w total i index st :
  exists extra,
    fst (process_cell env cfg w total i index st) = (fst st ++ extra)%list
    /\ updated_cells extra = (if processed env w index then [index] else []).
Proof.
  unfold process_cell, processed.
  assert (Hfail : exists extra,
            (fst st ++ [log (cell_failed index); error (cell_failed index)])%list
            = (fst st ++ extra)%list
            /\ updated_cells extra = []).
  { eexists. split; reflexivity. }
  assert (Hskip : exists extra,
            fst st = (fst st ++ extra)%list /\ updated_cells extra = []).
  { exists []. split; [symmetry; apply app_nil_r|reflexivity]. }
  destruct (data index w) as [[|current_data|z|] w'|e w'|]; try exact Hfail.
  destruct (bool_decide (current_data = "")); simpl; [exact Hskip|].
  destruct (BeautifulSoup env current_data) as [soup|]; [|exact Hfail].
  destruct (has_img soup); simpl; [|exact Hskip].
  destruct (process_imgs_logs env cfg index soup st) as [extra [He Hl]].
  destruct (process_imgs env cfg index soup st) as [soup' st']. simpl in *.
  eexists. split; [rewrite He, <- app_assoc; reflexivity|].
  rewrite updated_cells_app, (only_logs_updated _ Hl). reflexivity.
Qed.

Lemma process_cells_updates env cfg w total indexes : forall i st,
  exists extra,
    fst (process_cells env cfg w total i indexes st) = (fst st ++ extra)%list
    /\ updated_cells extra = List.filter (processed env w) indexes.
Proof.
  induction indexes as [|index rest IH]; intros i st; simpl.
  - exists []. split; [symmetry; apply app_nil_r|reflexivity].
  - destruct (process_cell_updates env cfg w total i index st) as [e1 [He1 Hu1]].
    destruct (IH (i + 1) (process_cell env cfg w total i index st)) as [e2 [He2 Hu2]].
    exists (e1 ++ e2)%list. split; [rewrite He2, He1, app_assoc; reflexivity|].
    rewrite updated_cells_app, Hu1, Hu2.
    destruct (processed env w index); reflexivity.
Qed.

Lemma updated_cells_run env cfg selected_indexes w :
  updated_cells (run env cfg selected_indexes w)
  = List.filter (processed env w) selected_indexes.
Proof.
  unfold run. destruct selected_indexes as [|i rest]; [reflexivity|].
  destruct (Z.of_nat (length (i :: rest)) =? 0) eqn:E; [simpl in E; lia|].
  destruct (process_cells_updates env cfg w (Z.of_nat (length (i :: rest))) (i :: rest) 1
              ([], 0%nat)) as [extra [He Hu]].
  rewrite He, updated_cells_app, updated_cells_app, Hu. simpl.
  rewrite app_nil_r. reflexivity.
Qed.

(** X11: the cells a run asks the model to update are exactly the
    selected cells it processes to the end (text not empty, parsed, at
    least one image element), once each and in the order of the
    selection, whatever happens to the images themselves; and a run emits
    nothing after its [finished]. *)
Theorem run_updates_processed_cells (env : Env) (cfg : Config)
    (selected_indexes : list QModelIndex) (w : World) :
  updated_cells (run env cfg selected_indexes w)
  = List.filter (processed env w) selected_indexes
  /\ List.last (run env cfg selected_indexes w) (progress 0) = finished.
Proof.
  split; [apply updated_cells_run|].
  unfold run. destruct (_ =? 0); [reflexivity|]. apply last_last.
Qed.

(** *** Delivering the signals of a run *)

Lemma deliver_no_updates fuel signals : forall w,
  updated_cells signals = [] -> deliver fuel signals w = Ok tt w.
Proof.
  induction signals as [|s l IH]; intros w Hu; [reflexivity|].
  unfold deliver in *. cbn [for_each]. unfold bind.
  destruct s; try (apply IH; exact Hu). discriminate.
Qed.

(** X12: a run over cells none of which is processed to the end (blank
    cells, cells without image elements, cells outside the table, cells
    the parser rejects) changes nothing at all: delivering its signals
    leaves the model, the history and the emitted signals as they were. *)
Theorem run_without_images_changes_nothing (env : Env) (cfg : Config) (fuel : nat)
    (selected_indexes : list QModelIndex) (w : World) :
  Forall (fun index => processed env w index = false) selected_indexes ->
  deliver fuel (run env cfg selected_indexes w) w = Ok tt w.
Proof.
  intros Hall. apply deliver_no_updates. rewrite updated_cells_run.
  induction Hall as [|i l Hi _ IH]; [reflexivity|]. simpl. rewrite Hi. exact IH.
Qed.

Lemma run_without_images_changes_nothing_witness :
  deliver 1 (run (example_env []) (example_cfg true) [mkIndex 5 0; mkIndex 9 9] (loaded gallery))
    (loaded gallery)
  = Ok tt (loaded gallery).
Proof.
  apply (run_without_images_changes_nothing (example_env []) (example_cfg true) 1
           [mkIndex 5 0; mkIndex 9 9] (loaded gallery)).
  repeat constructor.
Defined.

Lemma processed_in_bounds env w i :
  wf_df (_df w) -> processed env w i = true -> in_bounds (_df w) i = true.
Proof.
  intros Hwf Hp. unfold processed in Hp.
  destruct (data_cases i w Hwf) as [[Hok Hd]|[_ Hd]]; rewrite Hd in Hp; [|discriminate].
  unfold data_of in Hd, Hp. unfold index_ok in Hok.
  destruct (isValid i); simpl in *; [exact Hok|discriminate].
Qed.

Lemma deliver_frame fuel signals : forall w,
  wf_df (_df w) ->
  Forall (fun i => in_bounds (_df w) i = true) (updated_cells signals) ->
  exists w',
    deliver (S fuel) signals w = Ok tt w'
    /\ same_shape w w'
    /\ forall j, in_bounds (_df w) j = true -> ~ In j (updated_cells signals) ->
         cell_at (_df w') j = cell_at (_df w) j.
Proof.
  induction signals as [|s l IH]; intros w Hwf Hall.
  - exists w. split; [reflexivity|]. split; [apply same_shape_refl|reflexivity].
  - assert (Hskip : updated_cells (s :: l) = updated_cells l ->
              deliver (S fuel) (s :: l) w = deliver (S fuel) l w ->
              exists w',
                deliver (S fuel) (s :: l) w = Ok tt w'
                /\ same_shape w w'
                /\ forall j, in_bounds (_df w) j = true -> ~ In j (updated_cells (s :: l)) ->
                     cell_at (_df w') j = cell_at (_df w) j).
    { intros Hu Hd. rewrite Hu, Hd. rewrite Hu in Hall. apply IH; assumption. }
    destruct s as [p|m|m|i new_data|]; try (apply Hskip; reflexivity).
    change (updated_cells (update_cell i new_data :: l)) with (i :: updated_cells l) in *.
    inversion Hall as [|? ? Hi Hall']; subst.
    destruct (setData_frame fuel i (Str new_data) w Hwf Hi)
      as (b & w1 & wr & Hs & Hd & Hwr & _).
    assert (Hwf1 : wf_df (_df w1)) by (rewrite Hd; apply writes_wf, Hwf).
    assert (Hsh1 : same_shape w w1).
    { split; rewrite Hd; [apply writes_columns|apply writes_rows_length]. }
    destruct (IH w1 Hwf1) as (w' & Hrun & Hsh & Hcells).
    { eapply Forall_impl; [exact Hall'|]. intros j Hj. cbv beta.
      rewrite Hd, writes_in_bounds. exact Hj. }
    exists w'. split; [|split].
    + unfold deliver in *. cbn [for_each]. unfold bind at 1. unfold bind at 1.
      unfold edit_cell. rewrite Hs. exact Hrun.
    + eapply same_shape_trans; eauto.
    + intros j Hj Hn. rewrite Hcells.
      * rewrite Hd. destruct Hwr as [->|[x ->]]; [reflexivity|].
        apply cell_at_other_write; auto. intros ->. apply Hn. left. reflexivity.
      * rewrite Hd, writes_in_bounds. exact Hj.
      * intros H. apply Hn. right. exact H.
Qed.

(** X13: a run followed by the delivery of its signals always comes to
    an end, keeps the shape of the table, and changes no cell other than
    the selected cells it processed. *)
Theorem run_touches_processed_cells_only (env : Env) (cfg : Config) (fuel : nat)
    (selected_indexes : list QModelIndex) (w : World) :
  wf_df (_df w) ->
  exists w',
    deliver (S fuel) (run env cfg selected_indexes w) w = Ok tt w'
    /\ columns (_df w') = columns (_df w)
    /\ length (rows (_df w')) = length (rows (_df w))
    /\ forall j, in_bounds (_df w) j = true ->
         ~ In j selected_indexes \/ processed env w j = false ->
         cell_at (_df w') j = cell_at (_df w) j.
Proof.
  intros Hwf.
  destruct (deliver_frame fuel (run env cfg selected_indexes w) w Hwf)
    as (w' & Hrun & [Hc Hr] & Hcells).
  - rewrite updated_cells_run. apply List.Forall_forall. intros i Hi.
    apply filter_In in Hi as [_ Hp]. apply (processed_in_bounds env); assumption.
  - exists w'. split; [exact Hrun|]. split; [exact Hc|]. split; [exact Hr|].
    intros j Hj Hout. apply Hcells; [exact Hj|].
    rewrite updated_cells_run. intros Hin. apply filter_In in Hin as [Hin Hp].
    destruct Hout as [Hout|Hout]; [contradiction|congruence].
Qed.

Lemma run_touches_processed_cells_only_witness :
  exists w',
    deliver 1 (run (example_env []) (example_cfg false) [mkIndex 0 0; mkIndex 5 0]
                 (loaded gallery)) (loaded gallery) = Ok tt w'
    /\ columns (_df w') = ["content"]
    /\ length (rows (_df w')) = 6%nat
    /\ cell_at (_df w') (mkIndex 1 0) = Some (Str (img_tag url_b))
    /\ cell_at (_df w') (mkIndex 5 0) = Some (Str "plain text").
Proof.
  destruct (run_touches_processed_cells_only (example_env []) (example_cfg false) 0
              [mkIndex 0 0; mkIndex 5 0] (loaded gallery)) as (w' & H1 & H2 & H3 & H4).
  - repeat constructor.
  - exists w'. split; [exact H1|]. split; [exact H2|]. split; [exact H3|]. split.
    + rewrite (H4 (mkIndex 1 0)); [reflexivity|reflexivity|].
      left. intros [H|[H|[]]]; discriminate.
    + rewrite (H4 (mkIndex 5 0)); [reflexivity|reflexivity|].
      right. reflexivity.
Defined.

(** ** Loading another table *)

(** X14: a load replaces the frame and keeps the history.  After an
    edit of a cell that held a text or a missing value and the load of
    another table [d'], a table of text columns, one undo undoes the edit
    on the new table: it writes the old value of the previous table's
    cell at the same position of [d'] (when [d'] has such a position;
    nothing otherwise), whatever text [d'] holds there. *)
Theorem undo_after_load_writes_old_value (fuel : nat) (i : QModelIndex) (v old : value)
    (d' : DataFrame) (w : World) :
  ready w -> wf_stack (undo_stack w) ->
  in_bounds (_df w) i = true -> cell_at (_df w) i = Some old ->
  text_value old = true ->
  values_differ old (new_value_of v) = true ->
  wf_df d' -> text_columns d' = true ->
  exists w1 w2 w3,
    setData (S fuel) i v w = Ok true w1
    /\ set_dataframe d' w1 = Ok tt w2
    /\ _df w2 = d' /\ undo_stack w2 = undo_stack w1
    /\ undo fuel w2 = Ok tt w3
    /\ _df w3 = write_cell d' (i, old)
    /\ (if in_bounds d' i then cell_at (_df w3) i = Some (stored old) else _df w3 = d').
Proof.
  intros (Hwf & Hf & Hm) Hst Hb Hc Hold Hd Hwf' Htext.
  set (cmd := EditCellCommand i old (new_value_of v)).
  destruct (stack_record_top cmd (undo_stack w) Hst) as [k [Hi [Hl _]]].
  exists (pushed cmd w), (set_df d' (pushed cmd w)).
  eexists. split; [|split; [reflexivity|split; [reflexivity|split; [reflexivity|]]]].
  - rewrite (setData_result fuel i v w old Hb Hc), Hf, Hd, Hm. reflexivity.
  - split; [apply (undo_eq fuel _ k cmd); assumption|].
    assert (Hdf : _df (set_undo_stack (stack_at k (undo_stack (set_df d' (pushed cmd w))))
                         (apply_writes (set_df d' (pushed cmd w)) (undo_writes cmd)))
                  = write_cell d' (i, old)).
    { simpl. rewrite flagged_step_df. reflexivity. }
    split; [exact Hdf|]. rewrite Hdf.
    destruct (in_bounds d' i) eqn:Hb'.
    + change (write_cell d' (i, old)) with (writes d' [(i, old)]).
      apply cell_at_own_write; assumption.
    + unfold write_cell. cbn [fst snd]. destruct (isValid i) eqn:Hv; [|reflexivity].
      unfold iloc_set. rewrite (out_of_bounds_out_of_range _ _ Hv Hb'). reflexivity.
Qed.

Lemma undo_after_load_writes_old_value_witness :
  exists w1 w2 w3,
    setData 1 (mkIndex 0 0) (Str "edited") (loaded frame3x3) = Ok true w1
    /\ set_dataframe gallery w1 = Ok tt w2
    /\ _df w2 = gallery /\ undo_stack w2 = undo_stack w1
    /\ undo 0 w2 = Ok tt w3
    /\ _df w3 = write_cell gallery (mkIndex 0 0, Str "a0")
    /\ cell_at (_df w3) (mkIndex 0 0) = Some (Str "a0").
Proof.
  destruct (undo_after_load_writes_old_value 0 (mkIndex 0 0) (Str "edited") (Str "a0")
              gallery (loaded frame3x3))
    as (w1 & w2 & w3 & H1 & H2 & H3 & H4 & H5 & H6 & H7).
  - repeat split. exact wf_frame3x3.
  - unfold wf_stack. simpl. lia.
  - reflexivity.
  - reflexivity.
  - reflexivity.
  - reflexivity.
  - repeat constructor.
  - reflexivity.
  - exists w1, w2, w3. repeat split; assumption.
Defined.

(** ** Restoring the original order *)

Lemma mapM_lookup_seq {A} (l : list A) : forall i,
  (i <= length l)%nat ->
  mapM (fun k => l !! k) (seq i (length l - i)) = Some (drop i l).
Proof.
  intros i. remember (length l - i)%nat as n eqn:Hn. revert i Hn.
  induction n as [|n IH]; intros i Hn Hi.
  - simpl. rewrite drop_ge by lia. reflexivity.
  - simpl. destruct (lookup_lt_is_Some_2 l i) as [x Hx]; [lia|].
    rewrite Hx. simpl. rewrite (IH (S i)) by lia. simpl.
    rewrite (drop_S l x i Hx). reflexivity.
Qed.

Lemma loc_rows_original_order df : loc_rows (original_order df) df = Some df.
Proof.
  unfold loc_rows, original_order.
  pose proof (mapM_lookup_seq (rows df) 0) as H.
  rewrite Nat.sub_0_r in H. rewrite H by lia. destruct df; reflexivity.
Qed.

(** X15: "restore the original order" never changes the table.  The
    order recorded at the load is the fresh range index; no action
    reorders, adds or removes rows; so after any sequence of user actions
    on a loaded table, [sort_original_order] with the recorded order
    leaves the model exactly as it is. *)
Theorem sort_original_order_changes_nothing (fuel : nat) (d : DataFrame)
    (actions : list action) :
  wf_df d -> Forall (action_ok d) actions ->
  exists w,
    for_each (perform (S fuel)) actions (loaded d) = Ok tt w
    /\ sort_original_order (original_order d) w = Ok tt w.
Proof.
  intros Hwf Hok.
  destruct (perform_list_steady fuel actions (loaded d) (steady_loaded d Hwf) Hok)
    as (w & Hrun & _ & [_ Hrows] & _).
  exists w. split; [exact Hrun|].
  unfold sort_original_order.
  replace (original_order d) with (original_order (_df w))
    by (unfold original_order; rewrite Hrows; reflexivity).
  rewrite loc_rows_original_order. destruct w; reflexivity.
Qed.

Lemma sort_original_order_changes_nothing_witness :
  exists w,
    for_each (perform 1)
      [ UserEdit (mkIndex 0 0) "x"; UserClear [mkIndex 1 0];
        UserPaste [mkIndex 2 2] (String "p" (String tab "q")); UserUndo ]
      (loaded frame3x3) = Ok tt w
    /\ sort_original_order (original_order frame3x3) w = Ok tt w.
Proof.
  apply (sort_original_order_changes_nothing 0 frame3x3
      [ UserEdit (mkIndex 0 0) "x"; UserClear [mkIndex 1 0];
        UserPaste [mkIndex 2 2] (String "p" (String tab "q")); UserUndo ]).
  - exact wf_frame3x3.
  - repeat constructor.
Defined.

(** ** Column names *)

(** *** White space, byte by byte *)

Lemma is_space_low a : is_space a = true -> low a = true.
Proof.
  unfold is_space, low. cbv zeta. intros H. bools; apply Nat.ltb_lt; lia.
Qed.

Lemma is_space2_high a b : is_space2 a b = true -> low a = false /\ low b = false.
Proof.
  unfold is_space2, low. cbv zeta. intros H. bools; split; apply Nat.ltb_ge; lia.
Qed.

Lemma is_space3_high a b c :
  is_space3 a b c = true -> low a = false /\ low b = false /\ low c = false.
Proof.
  unfold is_space3, low. cbv zeta. intros H.
  bools; repeat split; apply Nat.ltb_ge; lia.
Qed.

Lemma is_space2_low_l a b : low a = true -> is_space2 a b = false.
Proof.
  intros H. destruct (is_space2 a b) eqn:E; [|reflexivity].
  apply is_space2_high in E as [E _]. congruence.
Qed.

Lemma is_space2_low_r a b : low b = true -> is_space2 a b = false.
Proof.
  intros H. destruct (is_space2 a b) eqn:E; [|reflexivity].
  apply is_space2_high in E as [_ E]. congruence.
Qed.

Lemma is_space3_low_1 a b c : low a = true -> is_space3 a b c = false.
Proof.
  intros H. destruct (is_space3 a b c) eqn:E; [|reflexivity].
  apply is_space3_high in E as (E & _ & _). congruence.
Qed.

Lemma is_space3_low_2 a b c : low b = true -> is_space3 a b c = false.
Proof.
  intros H. destruct (is_space3 a b c) eqn:E; [|reflexivity].
  apply is_space3_high in E as (_ & E & _). congruence.
Qed.

Lemma is_space3_low_3 a b c : low c = true -> is_space3 a b c = false.
Proof.
  intros H. destruct (is_space3 a b c) eqn:E; [|reflexivity].
  apply is_space3_high in E as (_ & _ & E). congruence.
Qed.

Lemma is_space_high a : low a = false -> is_space a = false.
Proof.
  intros H. destruct (is_space a) eqn:E; [|reflexivity].
  apply is_space_low in E. congruence.
Qed.

(** *** [lstrip] through [skip_space] *)

Lemma lstrip_eq s :
  lstrip s = match skip_space s with Some r => lstrip r | None => s end.
Proof.
  destruct s as [|a [|b [|c s3]]]; simpl; try reflexivity.
  - destruct (is_space a); reflexivity.
  - destruct (is_space a); [reflexivity|]. destruct (is_space2 a b); reflexivity.
  - destruct (is_space a); [reflexivity|]. destruct (is_space2 a b); [reflexivity|].
    destruct (is_space3 a b c); reflexivity.
Qed.

Lemma skip_space_length s r :
  skip_space s = Some r -> (String.length r < String.length s)%nat.
Proof.
  destruct s as [|a [|b [|c s3]]]; simpl; try discriminate.
  - destruct (is_space a); [|discriminate]. intros [= <-]. simpl. lia.
  - destruct (is_space a); [intros [= <-]; simpl; lia|].
    destruct (is_space2 a b); [|discriminate]. intros [= <-]. simpl. lia.
  - destruct (is_space a); [intros [= <-]; simpl; lia|].
    destruct (is_space2 a b); [intros [= <-]; simpl; lia|].
    destruct (is_space3 a b c); [|discriminate]. intros [= <-]. simpl. lia.
Qed.

Lemma string_length_ind (P : string -> Prop) :
  (forall s, (forall r, (String.length r < String.length s)%nat -> P r) -> P s) ->
  forall s, P s.
Proof.
  intros H s. remember (String.length s) as n eqn:Hn. revert s Hn.
  induction n as [n IH] using lt_wf_ind. intros s ->.
  apply H. intros r Hr. apply (IH (String.length r) Hr r eq_refl).
Qed.

Lemma lstrip_ind (P : string -> Prop) :
  (forall s, skip_space s = None -> P s) ->
  (forall s r, skip_space s = Some r -> P r -> P s) ->
  forall s, P s.
Proof.
  intros Hn Hs s. induction s as [s IH] using string_length_ind.
  destruct (skip_space s) as [r|] eqn:E; [|apply Hn, E].
  apply (Hs s r E). apply IH. eapply skip_space_length, E.
Qed.

Lemma skip_space_lstrip s : skip_space (lstrip s) = None.
Proof.
  induction s as [s Hn|s r Hs IH] using lstrip_ind.
  - rewrite lstrip_eq, Hn. exact Hn.
  - rewrite lstrip_eq, Hs. exact IH.
Qed.

Lemma lstrip_fixed s : skip_space s = None -> lstrip s = s.
Proof. intros H. rewrite lstrip_eq, H. reflexivity. Qed.

Lemma lstrip_lstrip s : lstrip (lstrip s) = lstrip s.
Proof. apply lstrip_fixed, skip_space_lstrip. Qed.

Lemma length_lstrip s : (String.length (lstrip s) <= String.length s)%nat.
Proof.
  induction s as [s Hn|s r Hs IH] using lstrip_ind.
  - rewrite lstrip_fixed by exact Hn. lia.
  - rewrite lstrip_eq, Hs. apply skip_space_length in Hs. lia.
Qed.

Lemma lstrip_fixed_inv s : lstrip s = s -> skip_space s = None.
Proof. intros H. rewrite <- H. apply skip_space_lstrip. Qed.






(** *** [rstrip] *)

Lemma rstrip_cons a s :
  rstrip (String a s)
  = if bool_decide (lstrip (String a s) = "") then "" else String a (rstrip s).
Proof. reflexivity. Qed.

Lemma rstrip_blank s : lstrip s = "" -> rstrip s = "".
Proof.
  destruct s as [|a s]; [reflexivity|]. intros H.
  rewrite rstrip_cons, bool_decide_eq_true_2 by exact H. reflexivity.
Qed.


Lemma rstrip_fixed_cons a s : rstrip (String a s) = String a s -> rstrip s = s.
Proof.
  rewrite rstrip_cons. case_bool_decide; [discriminate|]. intros [= Hs]. exact Hs.
Qed.

Lemma length_rstrip s : (String.length (rstrip s) <= String.length s)%nat.
Proof.
  induction s as [|a s IH]; [reflexivity|]. rewrite rstrip_cons.
  case_bool_decide; simpl; lia.
Qed.

Lemma rstrip_length_eq s : String.length (rstrip s) = String.length s -> rstrip s = s.
Proof.
  induction s as [|a s IH]; [reflexivity|]. rewrite rstrip_cons.
  case_bool_decide; simpl; [discriminate|]. intros [= Hs]. rewrite (IH Hs). reflexivity.
Qed.


Lemma skip_space_app s r u : skip_space s = Some r -> skip_space (s ++ u) = Some (r ++ u).
Proof.
  destruct s as [|a [|b [|c s3]]]; simpl; try discriminate.
  - destruct (is_space a); [|discriminate]. intros [= <-]. reflexivity.
  - destruct (is_space a); [intros [= <-]; reflexivity|].
    destruct (is_space2 a b); [|discriminate]. intros [= <-]. reflexivity.
  - destruct (is_space a); [intros [= <-]; reflexivity|].
    destruct (is_space2 a b); [intros [= <-]; reflexivity|].
    destruct (is_space3 a b c); [|discriminate]. intros [= <-]. reflexivity.
Qed.

Lemma lstrip_app_blank s u : lstrip s = "" -> lstrip (s ++ u) = lstrip u.
Proof.
  induction s as [s Hn|s r Hs IH] using lstrip_ind; intros H.
  - rewrite lstrip_fixed in H by exact Hn. subst s. reflexivity.
  - rewrite lstrip_eq, Hs in H.
    rewrite (lstrip_eq (s ++ u)), (skip_space_app s r u Hs). apply IH, H.
Qed.

Lemma rstrip_split s : exists u, s = rstrip s ++ u /\ lstrip u = "".
Proof.
  induction s as [|a s IH]; [exists ""; split; reflexivity|]. rewrite rstrip_cons.
  case_bool_decide as Hb.
  - exists (String a s). split; [reflexivity|exact Hb].
  - destruct IH as (u & Hs & Hu). exists u. split; [|exact Hu].
    change (String a (rstrip s) ++ u) with (String a (rstrip s ++ u)).
    f_equal. exact Hs.
Qed.

Lemma rstrip_rstrip s : rstrip (rstrip s) = rstrip s.
Proof.
  induction s as [|a s IH]; [reflexivity|]. rewrite rstrip_cons.
  case_bool_decide as Hb; [reflexivity|]. rewrite rstrip_cons, IH.
  rewrite bool_decide_eq_false_2; [reflexivity|]. intros H. apply Hb.
  destruct (rstrip_split s) as (u & Hs & Hu).
  rewrite Hs. change (String a (rstrip s ++ u)) with (String a (rstrip s) ++ u).
  rewrite (lstrip_app_blank _ u H). exact Hu.
Qed.

Lemma skip_space_rstrip_fixed s r : skip_space s = Some r -> rstrip s = s -> rstrip r = r.
Proof.
  destruct s as [|a [|b [|c s3]]]; simpl skip_space; try discriminate.
  - destruct (is_space a); [|discriminate]. intros [= <-]. reflexivity.
  - destruct (is_space a); [intros [= <-]; apply rstrip_fixed_cons|].
    destruct (is_space2 a b); [|discriminate]. intros [= <-]. reflexivity.
  - destruct (is_space a); [intros [= <-]; apply rstrip_fixed_cons|].
    destruct (is_space2 a b);
      [intros [= <-] Hr; do 2 apply rstrip_fixed_cons in Hr; exact Hr|].
    destruct (is_space3 a b c); [|discriminate]. intros [= <-] Hr.
    do 3 apply rstrip_fixed_cons in Hr. exact Hr.
Qed.

Lemma rstrip_lstrip_fixed s : rstrip s = s -> rstrip (lstrip s) = lstrip s.
Proof.
  induction s as [s Hn|s r Hs IH] using lstrip_ind; intros H.
  - rewrite lstrip_fixed by exact Hn. exact H.
  - rewrite lstrip_eq, Hs. apply IH. eapply skip_space_rstrip_fixed; eauto.
Qed.

(** *** [strip] *)

Lemma lstrip_strip s : lstrip (strip s) = strip s.
Proof. apply lstrip_lstrip. Qed.

Lemma rstrip_strip s : rstrip (strip s) = strip s.
Proof. apply rstrip_lstrip_fixed, rstrip_rstrip. Qed.

Lemma strip_fixed s : lstrip s = s -> rstrip s = s -> strip s = s.
Proof. intros Hl Hr. unfold strip. rewrite Hr. exact Hl. Qed.

Lemma strip_strip s : strip (strip s) = strip s.
Proof. apply strip_fixed; [apply lstrip_strip|apply rstrip_strip]. Qed.

Lemma strip_fixed_inv s : strip s = s -> lstrip s = s /\ rstrip s = s.
Proof.
  intros H. unfold strip in H.
  assert (Hr : rstrip s = s).
  { apply rstrip_length_eq. pose proof (length_lstrip (rstrip s)) as H1.
    pose proof (length_rstrip s) as H2. rewrite H in H1. lia. }
  rewrite Hr in H. split; assumption.
Qed.


(** *** Replacing a character *)





Lemma replace_char_empty a b s : replace_char a b s = "" -> s = "".
Proof. destruct s; [reflexivity|discriminate]. Qed.


(** *** Collapsing runs of spaces *)








(** *** Cleaning a clean name *)

Lemma replace_char_skip_space a b s :
  is_space a = true -> is_space b = true ->
  skip_space (replace_char a b s) = option_map (replace_char a b) (skip_space s).
Proof.
  intros Ha Hb.
  assert (H1 : forall x, is_space (if bool_decide (x = a) then b else x) = is_space x).
  { intros x. case_bool_decide; [subst x; congruence|reflexivity]. }
  assert (H2 : forall x y, is_space x = false ->
            is_space2 (if bool_decide (x = a) then b else x)
                      (if bool_decide (y = a) then b else y) = is_space2 x y).
  { intros x y Hx. case_bool_decide as Ex; [subst x; congruence|].
    case_bool_decide as Ey; [subst y|reflexivity].
    rewrite !is_space2_low_r by (apply is_space_low; assumption). reflexivity. }
  assert (H3 : forall x y z, is_space x = false ->
            is_space3 (if bool_decide (x = a) then b else x)
                      (if bool_decide (y = a) then b else y)
                      (if bool_decide (z = a) then b else z) = is_space3 x y z).
  { intros x y z Hx. case_bool_decide as Ex; [subst x; congruence|].
    case_bool_decide as Ey; [subst y|].
    - rewrite !is_space3_low_2 by (apply is_space_low; assumption). reflexivity.
    - case_bool_decide as Ez; [subst z|reflexivity].
      rewrite !is_space3_low_3 by (apply is_space_low; assumption). reflexivity. }
  destruct s as [|x [|y [|z s3]]]; cbn [replace_char skip_space]; try reflexivity.
  - rewrite H1. destruct (is_space x); reflexivity.
  - rewrite H1. destruct (is_space x) eqn:Ex; [reflexivity|].
    rewrite (H2 x y Ex). destruct (is_space2 x y); reflexivity.
  - rewrite H1. destruct (is_space x) eqn:Ex; [reflexivity|].
    rewrite (H2 x y Ex). destruct (is_space2 x y); [reflexivity|].
    rewrite (H3 x y z Ex). destruct (is_space3 x y z); reflexivity.
Qed.

Lemma replace_char_lstrip a b s :
  is_space a = true -> is_space b = true ->
  lstrip (replace_char a b s) = replace_char a b (lstrip s).
Proof.
  intros Ha Hb. induction s as [s Hn|s r Hs IH] using lstrip_ind.
  - rewrite (lstrip_fixed s Hn). apply lstrip_fixed.
    rewrite replace_char_skip_space, Hn by assumption. reflexivity.
  - rewrite (lstrip_eq s), Hs, <- IH.
    rewrite (lstrip_eq (replace_char a b s)), replace_char_skip_space, Hs by assumption.
    reflexivity.
Qed.

Lemma replace_char_rstrip a b s :
  is_space a = true -> is_space b = true ->
  rstrip (replace_char a b s) = replace_char a b (rstrip s).
Proof.
  intros Ha Hb. induction s as [|x s IH]; [reflexivity|].
  change (replace_char a b (String x s))
    with (String (if bool_decide (x = a) then b else x) (replace_char a b s)).
  rewrite !rstrip_cons.
  change (String (if bool_decide (x = a) then b else x) (replace_char a b s))
    with (replace_char a b (String x s)).
  rewrite replace_char_lstrip by assumption.
  destruct (decide (lstrip (String x s) = "")) as [H|H].
  - rewrite H. reflexivity.
  - rewrite (bool_decide_eq_false_2 (lstrip (String x s) = "")) by exact H.
    rewrite bool_decide_eq_false_2
      by (intros E; apply H; exact (replace_char_empty a b _ E)).
    cbn [replace_char]. rewrite IH. reflexivity.
Qed.

Lemma replace_char_strip a b s :
  is_space a = true -> is_space b = true ->
  strip (replace_char a b s) = replace_char a b (strip s).
Proof.
  intros Ha Hb. unfold strip.
  rewrite replace_char_rstrip, replace_char_lstrip by assumption. reflexivity.
Qed.







Lemma lstrip_cons_space x s : is_space x = true -> lstrip (String x s) = lstrip s.
Proof. intros H. simpl. rewrite H. reflexivity. Qed.






(** ** The custom HTML format *)

Lemma length_fit_row n row : length (fit_row n row) = n.
Proof.
  unfold fit_row. destruct (length row <? n)%nat eqn:E1.
  - apply Nat.ltb_lt in E1. rewrite length_app, length_replicate. lia.
  - apply Nat.ltb_ge in E1. destruct (n <? length row)%nat eqn:E2.
    + apply Nat.ltb_lt in E2. rewrite length_take. lia.
    + apply Nat.ltb_ge in E2. lia.
Qed.

Lemma lookup_fit_row n row c :
  (c < n)%nat ->
  fit_row n row !! c = Some (match row !! c with Some v => v | None => Str "" end).
Proof.
  intros Hc. unfold fit_row. destruct (length row <? n)%nat eqn:E1.
  - apply Nat.ltb_lt in E1. destruct (row !! c) as [v|] eqn:Hr.
    + rewrite lookup_app_l by (eapply lookup_lt_Some; eauto). exact Hr.
    + apply lookup_ge_None in Hr. rewrite lookup_app_r by lia.
      apply lookup_replicate_2. lia.
  - apply Nat.ltb_ge in E1. destruct (n <? length row)%nat eqn:E2.
    + rewrite lookup_take_lt by lia.
      destruct (lookup_lt_is_Some_2 row c) as [v ->]; [lia|]. reflexivity.
    + destruct (lookup_lt_is_Some_2 row c) as [v ->]; [lia|]. reflexivity.
Qed.

Lemma flat_map_data_rows {B} (f : list td -> B) rest :
  flat_map (fun tds => match tds with [] => [] | _ => [f tds] end) rest
  = map f (data_rows rest).
Proof.
  induction rest as [|tds rest IH]; [reflexivity|].
  simpl. rewrite IH. destruct tds; reflexivity.
Qed.

Lemma frame_of_table_Some table df :
  frame_of_table table = Some df ->
  exists first_td header_tds rest,
    table = Some ((first_td :: header_tds) :: rest)
    /\ "title" ∈ td_class first_td
    /\ df = mkDataFrame (map get_text (first_td :: header_tds))
              (map (fun tds => fit_row (S (length header_tds))
                                 (map (fun c => Str (get_text c)) tds))
                 (data_rows rest)).
Proof.
  unfold frame_of_table. intros H.
  destruct table as [[|[|first_td header_tds] rest]|]; try discriminate.
  destruct (bool_decide ("title" ∈ td_class first_td)) eqn:Ht; [|discriminate].
  apply bool_decide_eq_true in Ht. simpl in H. injection H as <-.
  exists first_td, header_tds, rest. split; [reflexivity|]. split; [exact Ht|].
  f_equal. rewrite flat_map_data_rows. rewrite length_map. reflexivity.
Qed.

(** X17: a frame that [parse_custom_html_xls] returns is rectangular.
    Its columns are the texts of the header cells, the first of which
    carries the class [title]; it has one row for each later [tr] with at
    least one [td]; and the cell in column [c] of such a row is the text
    of the row's [c]-th [td], or the empty string (a [str], not a missing
    value) when the row is shorter; cells beyond the header are dropped. *)
Theorem parse_custom_html_xls_rectangular (files : Files) (html_content : string)
    (df : DataFrame) :
  parse_custom_html_xls files html_content = Some df ->
  exists first_td header_tds rest,
    find_table files html_content = Some (Some ((first_td :: header_tds) :: rest))
    /\ "title" ∈ td_class first_td
    /\ wf_df df
    /\ columns df = map get_text (first_td :: header_tds)
    /\ length (rows df) = length (data_rows rest)
    /\ forall r c tds, data_rows rest !! r = Some tds -> (c <= length header_tds)%nat ->
         iloc_get df r c
         = Some (Str (match tds !! c with Some t => get_text t | None => "" end)).
Proof.
  unfold parse_custom_html_xls. intros H.
  destruct (find_table files html_content) as [table|]; [|discriminate].
  apply frame_of_table_Some in H as (first_td & header_tds & rest & -> & Ht & ->).
  exists first_td, header_tds, rest. split; [reflexivity|]. split; [exact Ht|].
  split; [|split; [reflexivity|split]].
  - unfold wf_df. simpl. apply List.Forall_forall. intros row Hin.
    apply in_map_iff in Hin as (tds & <- & _).
    rewrite length_fit_row, length_map. reflexivity.
  - simpl. apply length_map.
  - intros r c tds Hr Hc. unfold iloc_get, in_range. simpl.
    rewrite !length_map.
    pose proof (lookup_lt_Some _ _ _ Hr) as Hlt.
    replace (r <? length (data_rows rest))%nat with true
      by (symmetry; apply Nat.ltb_lt; exact Hlt).
    replace (c <? S (length header_tds))%nat with true
      by (symmetry; apply Nat.ltb_lt; lia).
    simpl. rewrite list_lookup_fmap, Hr. simpl.
    rewrite lookup_fit_row by lia. rewrite list_lookup_fmap.
    destruct (tds !! c); reflexivity.
Qed.

Lemma parse_custom_html_xls_rectangular_witness :
  exists df,
    parse_custom_html_xls example_files "<HTML><table>...</table></HTML>" = Some df
    /\ wf_df df
    /\ columns df = ["name"; "price"; "memo"]
    /\ length (rows df) = 2%nat
    /\ iloc_get df 0 2 = Some (Str "")
    /\ iloc_get df 1 2 = Some (Str "blue").
Proof.
  destruct (parse_custom_html_xls_rectangular example_files "<HTML><table>...</table></HTML>"
              (mkDataFrame ["name"; "price"; "memo"]
                 [ [Str "pen"; Str "3"; Str ""]; [Str "ink"; Str "9"; Str "blue"] ]))
    as (first_td & header_tds & rest & H1 & H2 & H3 & H4 & H5 & H6).
  - reflexivity.
  - eexists. split; [reflexivity|]. split; [exact H3|].
    split; [reflexivity|]. split; [reflexivity|].
    change (find_table example_files "<HTML><table>...</table></HTML>")
      with (Some (Some example_table)) in H1.
    injection H1 as <- <- <-.
    split; [apply (H6 0%nat 2%nat [mkTd [] "pen"; mkTd [] "3"])
           |apply (H6 1%nat 2%nat
                     [mkTd [] "ink"; mkTd [] "9"; mkTd [] "blue"; mkTd [] "extra"])];
      first [reflexivity|simpl; lia].
Defined.

(** ** CSV files *)

Lemma length_drop_where {A B} (mask : list bool) : forall (l1 : list A) (l2 : list B),
  length l1 = length l2 ->
  length (drop_where mask l1) = length (drop_where mask l2).
Proof.
  induction mask as [|m mask IH]; intros l1 l2 H; [destruct l1, l2; simpl in *; congruence|].
  destruct l1 as [|x l1], l2 as [|y l2]; simpl in *; try congruence.
  injection H as H. destruct m; simpl; auto.
Qed.

Lemma drop_where_columns name (cols : list string) :
  name ∉ drop_where (map (fun c => bool_decide (c = name)) cols) cols.
Proof.
  induction cols as [|c cols IH]; [apply not_elem_of_nil|].
  simpl. case_bool_decide as Hc; [exact IH|].
  apply not_elem_of_cons. split; [congruence|exact IH].
Qed.

Lemma drop_where_keeps name (cols : list string) c :
  c ∈ cols -> c <> name ->
  c ∈ drop_where (map (fun c => bool_decide (c = name)) cols) cols.
Proof.
  intros Hin Hne. induction cols as [|x cols IH]; [inversion Hin|].
  simpl. apply elem_of_cons in Hin as [<-|Hin].
  - rewrite bool_decide_eq_false_2 by assumption. apply list_elem_of_here.
  - case_bool_decide; [apply IH, Hin|apply list_elem_of_further, IH, Hin].
Qed.

Lemma wf_drop_columns name df : wf_df df -> wf_df (drop_columns name df).
Proof.
  unfold wf_df, drop_columns. simpl. intros H.
  apply List.Forall_forall. intros r Hr. apply in_map_iff in Hr as (r0 & <- & Hr0).
  rewrite List.Forall_forall in H. apply length_drop_where, H, Hr0.
Qed.

Lemma drop_unnamed_spec df :
  wf_df df ->
  wf_df (drop_unnamed df)
  /\ ("Unnamed: 0" ∉ columns (drop_unnamed df))
  /\ length (rows (drop_unnamed df)) = length (rows df)
  /\ forall c, c ∈ columns df -> c <> "Unnamed: 0" -> c ∈ columns (drop_unnamed df).
Proof.
  intros Hwf. unfold drop_unnamed. case_bool_decide as Hin.
  - split; [apply wf_drop_columns, Hwf|]. split; [apply drop_where_columns|].
    split; [simpl; apply length_map|]. intros c. apply drop_where_keeps.
  - repeat split; auto.
Qed.

Lemma load_csv_from_app files file_path pre : forall enc post df,
  Forall (fun e => read_csv files file_path e = UnicodeDecodeError) pre ->
  read_csv files file_path enc = Read df ->
  load_csv_from files file_path (pre ++ enc :: post) = Some (drop_unnamed df)
  /\ DataLoaderThread.load_csv_from files file_path (pre ++ enc :: post)
     = (Some (drop_unnamed df), []).
Proof.
  induction pre as [|e pre IH]; intros enc post df Hpre Hread.
  - simpl. rewrite Hread. split; reflexivity.
  - inversion Hpre as [|? ? He Hpre']; subst. simpl. rewrite He.
    apply IH; assumption.
Qed.

(** X18: [load_csv] answers the frame read with the first of the four
    encodings, in the order utf-8-sig, utf-8, cp949, ISO-8859-1, that
    does not fail to decode, and the thread's [load_csv] answers the same
    frame without an error signal.  The frame is rectangular, has as many
    rows as the one read, has no column labelled [Unnamed: 0], and keeps
    every other column. *)
Theorem load_csv_first_decodable (files : Files) (file_path : string)
    (pre post : list string) (enc : string) (df : DataFrame) :
  encodings = (pre ++ enc :: post)%list ->
  Forall (fun e => read_csv files file_path e = UnicodeDecodeError) pre ->
  read_csv files file_path enc = Read df -> wf_df df ->
  load_csv files file_path = Some (drop_unnamed df)
  /\ DataLoaderThread.load_csv files file_path = (Some (drop_unnamed df), [])
  /\ wf_df (drop_unnamed df)
  /\ ("Unnamed: 0" ∉ columns (drop_unnamed df))
  /\ length (rows (drop_unnamed df)) = length (rows df)
  /\ forall c, c ∈ columns df -> c <> "Unnamed: 0" -> c ∈ columns (drop_unnamed df).
Proof.
  intros Henc Hpre Hread Hwf.
  unfold load_csv, DataLoaderThread.load_csv. rewrite Henc.
  destruct (load_csv_from_app files file_path pre enc post df Hpre Hread) as [H1 H2].
  split; [exact H1|]. split; [exact H2|]. apply drop_unnamed_spec, Hwf.
Qed.

Lemma load_csv_first_decodable_witness :
  load_csv example_files "sales.csv" = Some (drop_unnamed sales)
  /\ DataLoaderThread.load_csv example_files "sales.csv" = (Some (drop_unnamed sales), [])
  /\ wf_df (drop_unnamed sales)
  /\ ("Unnamed: 0" ∉ columns (drop_unnamed sales))
  /\ length (rows (drop_unnamed sales)) = 2%nat
  /\ "price" ∈ columns (drop_unnamed sales).
Proof.
  destruct (load_csv_first_decodable example_files "sales.csv"
              ["utf-8-sig"; "utf-8"] ["ISO-8859-1"] "cp949" sales)
    as (H1 & H2 & H3 & H4 & H5 & H6).
  - reflexivity.
  - repeat constructor.
  - reflexivity.
  - repeat constructor.
  - split; [exact H1|]. split; [exact H2|]. split; [exact H3|]. split; [exact H4|].
    split; [exact H5|]. apply H6; [|discriminate].
    apply list_elem_of_further, list_elem_of_further, list_elem_of_here.
Defined.

(** An encoding that fails otherwise ends the loop: the file is not
    found under the first encoding, and the later ones are not tried. *)
Example load_csv_stops_at_other_errors :
  load_csv example_files "missing.csv" = None
  /\ DataLoaderThread.load_csv example_files "missing.csv"
     = (None, [DataLoaderThread.error DataLoaderThread.file_not_found]).
Proof. split; reflexivity. Qed.

(** ** The loader thread *)

Lemma only_errors_not_finished signals df :
  only_errors signals -> ~ In (DataLoaderThread.finished df) signals.
Proof.
  intros H Hin. unfold only_errors in H. rewrite List.Forall_forall in H.
  apply (H _ Hin).
Qed.

Lemma thread_load_csv_from files file_path encs :
  fst (DataLoaderThread.load_csv_from files file_path encs)
  = load_csv_from files file_path encs
  /\ only_errors (snd (DataLoaderThread.load_csv_from files file_path encs)).
Proof.
  induction encs as [|enc encs IH]; simpl.
  - split; [reflexivity|repeat constructor].
  - destruct (read_csv files file_path enc); simpl;
      first [exact IH | split; [reflexivity|repeat constructor]].
Qed.

Lemma thread_load_excel files file_path engine :
  fst (DataLoaderThread.load_excel files file_path engine)
  = load_excel files file_path engine
  /\ only_errors (snd (DataLoaderThread.load_excel files file_path engine)).
Proof.
  unfold DataLoaderThread.load_excel, load_excel.
  destruct (read_excel files file_path engine); simpl;
    (split; [reflexivity|repeat constructor]).
Qed.

Lemma thread_parse_custom_html_xls files html_content :
  fst (DataLoaderThread.parse_custom_html_xls files html_content)
  = parse_custom_html_xls files html_content
  /\ only_errors (snd (DataLoaderThread.parse_custom_html_xls files html_content)).
Proof.
  unfold DataLoaderThread.parse_custom_html_xls, parse_custom_html_xls.
  destruct (find_table files html_content) as [[[|[|first_td header_tds] rest]|]|];
    try (split; [reflexivity|repeat constructor]).
  destruct (frame_of_table _); simpl; (split; [reflexivity|repeat constructor]).
Qed.

Lemma thread_parse_html files html_content :
  fst (DataLoaderThread.parse_html files html_content) = None
  /\ only_errors (snd (DataLoaderThread.parse_html files html_content)).
Proof.
  unfold DataLoaderThread.parse_html.
  destruct (find_table files html_content); [|split; [reflexivity|repeat constructor]].
  destruct (read_html files html_content) as [[|df l]|];
    try (split; [reflexivity|repeat constructor]).
Qed.

Lemma in_report signals v df :
  only_errors signals ->
  In (DataLoaderThread.finished df) (signals ++ DataLoaderThread.report (DataLoaderThread.Bound v)) ->
  v = Some df.
Proof.
  intros He Hin. apply in_app_or in Hin as [Hin|Hin].
  - exfalso. exact (only_errors_not_finished _ _ He Hin).
  - destruct v as [d|]; simpl in Hin; destruct Hin as [H|[]]; congruence.
Qed.

Lemma only_errors_app l1 l2 : only_errors l1 -> only_errors l2 -> only_errors (l1 ++ l2).
Proof. apply Forall_app_2. Qed.

(** X19: the loader thread hands over a frame only for a CSV file and
    for an [.xls] file that is not HTML.  For [.xlsx] the local [df] is
    never assigned and reading it raises; for [.html] and for an [.xls]
    file in the custom HTML format the frame is replaced by the value of
    [clean_column_names], which is [None]: in these three cases [run]
    reports errors and nothing else, whatever the file holds.  When it
    does emit [finished], the frame is the one the loader of the
    application returns. *)
Theorem thread_run_finished (files : Files) (file_path file_ext : string) :
  (forall df,
     In (DataLoaderThread.finished df) (DataLoaderThread.run files file_path file_ext) ->
     (file_ext = ".csv" /\ load_csv files file_path = Some df)
     \/ (file_ext = ".xls"
         /\ (exists content, read_head files file_path = Some content
                             /\ contains "<html" (lower content) = false)
         /\ load_excel files file_path "xlrd" = Some df))
  /\ (file_ext = ".xlsx" \/ file_ext = ".html"
      \/ (file_ext = ".xls"
          /\ forall content, read_head files file_path = Some content ->
                             contains "<html" (lower content) = true) ->
      DataLoaderThread.run files file_path file_ext <> []
      /\ only_errors (DataLoaderThread.run files file_path file_ext)).
Proof.
  split.
  - intros df. unfold DataLoaderThread.run. intros Hin.
    case_bool_decide as Hcsv.
    + left. split; [exact Hcsv|].
      destruct (thread_load_csv_from files file_path encodings) as [Hf He].
      unfold DataLoaderThread.load_csv in Hin.
      destruct (DataLoaderThread.load_csv_from files file_path encodings) as [v signals].
      cbn [fst snd] in Hf, He. unfold load_csv. rewrite <- Hf. eapply in_report; eauto.
    + case_bool_decide as Hx.
      * case_bool_decide as Hxlsx; [simpl in Hin; destruct Hin as [H|[]]; discriminate|].
        assert (Hxls : file_ext = ".xls").
        { apply elem_of_cons in Hx as [Hx|Hx]; [contradiction|].
          apply list_elem_of_singleton in Hx. exact Hx. }
        right. split; [exact Hxls|].
        destruct (read_head files file_path) as [content|];
          [|simpl in Hin; destruct Hin as [H|[]]; discriminate].
        destruct (contains "<html" (lower content)) eqn:Hhtml.
        -- exfalso.
           destruct (read_text files file_path) as [html_content|];
             [|simpl in Hin; destruct Hin as [H|[]]; discriminate].
           destruct (thread_parse_custom_html_xls files html_content) as [_ He].
           destruct (DataLoaderThread.parse_custom_html_xls files html_content) as [v signals].
           cbn [fst snd] in He.
           assert (Hnone : In (DataLoaderThread.finished df)
                             (signals ++ DataLoaderThread.report (DataLoaderThread.Bound None))).
           { destruct v as [d|]; [|exact Hin].
             destruct (DataLoaderThread.clean_column_names d) as [d1 []]. exact Hin. }
           apply (in_report _ _ _ He) in Hnone. discriminate.
        -- split; [exists content; split; [reflexivity|exact Hhtml]|].
           destruct (thread_load_excel files file_path "xlrd") as [Hf He].
           destruct (DataLoaderThread.load_excel files file_path "xlrd") as [v signals].
           cbn [fst snd] in Hf, He. rewrite <- Hf. eapply in_report; eauto.
      * exfalso.
        case_bool_decide as Hhtml; [|simpl in Hin; destruct Hin as [H|[]]; discriminate].
        destruct (read_text_strict files file_path) as [content|];
          [|simpl in Hin; destruct Hin as [H|[]]; discriminate].
        destruct (thread_parse_html files content) as [Hf He].
        destruct (DataLoaderThread.parse_html files content) as [v signals].
        cbn [fst snd] in Hf, He. apply (in_report _ _ _ He) in Hin. congruence.
  - assert (Hone : forall m, [DataLoaderThread.error m] <> []
                             /\ only_errors [DataLoaderThread.error m]).
    { intros m. split; [discriminate|repeat constructor]. }
    assert (Hend : forall signals,
              only_errors signals ->
              (signals ++ DataLoaderThread.report (DataLoaderThread.Bound None))%list <> []
              /\ only_errors
                   (signals ++ DataLoaderThread.report (DataLoaderThread.Bound None))%list).
    { intros signals He. split.
      - destruct signals; discriminate.
      - apply only_errors_app; [exact He|repeat constructor]. }
    unfold DataLoaderThread.run. intros [->|[->|[-> Hhead]]].
    + apply Hone.
    + rewrite (bool_decide_eq_false_2 (".html" = ".csv")) by discriminate.
      rewrite (bool_decide_eq_false_2 (".html" ∈ [".xlsx"; ".xls"])).
      2:{ intros H. apply elem_of_cons in H as [H|H]; [discriminate|].
          apply list_elem_of_singleton in H. discriminate. }
      rewrite (bool_decide_eq_true_2 (".html" = ".html")) by reflexivity.
      destruct (read_text_strict files file_path) as [content|]; [|apply Hone].
      destruct (thread_parse_html files content) as [Hf He].
      destruct (DataLoaderThread.parse_html files content) as [v signals].
      cbn [fst snd] in Hf, He. subst v. apply Hend, He.
    + rewrite (bool_decide_eq_false_2 (".xls" = ".csv")) by discriminate.
      rewrite (bool_decide_eq_true_2 (".xls" ∈ [".xlsx"; ".xls"])).
      2:{ apply list_elem_of_further, list_elem_of_here. }
      rewrite (bool_decide_eq_false_2 (".xls" = ".xlsx")) by discriminate.
      destruct (read_head files file_path) as [content|]; [|apply Hone].
      rewrite (Hhead content eq_refl).
      destruct (read_text files file_path) as [html_content|]; [|apply Hone].
      destruct (thread_parse_custom_html_xls files html_content) as [_ He].
      destruct (DataLoaderThread.parse_custom_html_xls files html_content) as [v signals].
      cbn [fst snd] in He.
      destruct v as [d|]; [|apply Hend, He].
      destruct (DataLoaderThread.clean_column_names d) as [d1 []]. apply Hend, He.
Qed.

Lemma thread_run_finished_witness :
  ((".csv" = ".csv" /\ load_csv example_files "sales.csv" = Some (drop_unnamed sales))
   \/ (".csv" = ".xls"
       /\ (exists content, read_head example_files "sales.csv" = Some content
                           /\ contains "<html" (lower content) = false)
       /\ load_excel example_files "sales.csv" "xlrd" = Some (drop_unnamed sales)))
  /\ DataLoaderThread.run example_files "sheet.xls" ".xls" <> []
  /\ only_errors (DataLoaderThread.run example_files "sheet.xls" ".xls").
Proof.
  split.
  - apply (proj1 (thread_run_finished example_files "sales.csv" ".csv") (drop_unnamed sales)).
    left. reflexivity.
  - apply (proj2 (thread_run_finished example_files "sheet.xls" ".xls")).
    right. right. split; [reflexivity|].
    intros content H. vm_compute in H. injection H as <-. reflexivity.
Defined.

(** The application loads the custom HTML format; the thread reports a
    failure for the same file. *)
Example thread_fails_on_custom_html :
  DataLoaderThread.run example_files "sheet.xls" ".xls"
  = [DataLoaderThread.error DataLoaderThread.load_failed]
  /\ parse_custom_html_xls example_files "<HTML><table>...</table></HTML>"
     = Some (mkDataFrame ["name"; "price"; "memo"]
               [ [Str "pen"; Str "3"; Str ""]; [Str "ink"; Str "9"; Str "blue"] ]).
Proof. split; reflexivity. Qed.

(** ** One image: rewritten and logged, or left alone *)

Lemma has_char_replace_backslash s : has_char backslash (replace_backslash s) = false.
Proof.
  induction s as [|x s IH]; [reflexivity|]. simpl. rewrite IH, orb_false_r.
  apply bool_decide_eq_false. unfold backslash. case_bool_decide; [discriminate|assumption].
Qed.

Lemma process_base64_outcome env cfg index attr src st :
  img_outcome index attr st (process_base64 env cfg index attr src st).
Proof.
  unfold img_outcome, process_base64.
  destruct (split_once _ src) as [[header encoded]|]; [|img_unchanged].
  destruct (media_subtype header); [|img_unchanged].
  cbv zeta. destruct (b64decode_to_file env _ _);
    [img_rewritten; apply has_char_replace_backslash|img_unchanged].
Qed.

Lemma process_url_outcome env cfg index attr src st :
  img_outcome index attr st (process_url env cfg index attr src st).
Proof.
  unfold img_outcome, process_url.
  destruct (urlparse env src) as [[scheme p0]|]; [|img_unchanged].
  cbv zeta.
  destruct (urlparse env _) as [[sch path]|];
    [|destruct (bool_decide (scheme = "")); simpl; img_unchanged].
  destruct (bool_decide (os_path_basename env path = ""));
    [destruct (bool_decide (scheme = "")); simpl; img_unchanged|].
  destruct (download_images cfg); [destruct (urlretrieve env _ _)|];
    destruct (bool_decide (scheme = "")); simpl;
    first [img_rewritten; apply has_char_replace_backslash|img_unchanged].
Qed.

(** X20: each image of a cell is handled atomically.  Either its [src]
    attribute is left exactly as it was and no change of [src] is logged
    (every failure: a malformed data URI, a decoding error, a URL that
    does not parse, a fetch that fails; and a URL without a file name), or
    the attribute is replaced, the replacement holds no backslash, the
    change is the last thing logged for the image, and no error is
    reported for it. *)
Theorem process_img_atomic (env : Env) (cfg : Config) (index : QModelIndex)
    (attr : option string) (st : list worker_signal * nat) :
  exists extra,
    fst (snd (process_img env cfg index attr st)) = (fst st ++ extra)%list
    /\ ((fst (process_img env cfg index attr st) = attr
         /\ existsb is_src_changed extra = false)
        \/ (exists src new_src,
              fst (process_img env cfg index attr st) = Some new_src
              /\ List.last extra finished = log (src_changed index src new_src)
              /\ existsb is_error extra = false
              /\ has_char backslash new_src = false)).
Proof.
  change (img_outcome index attr st (process_img env cfg index attr st)).
  unfold process_img. destruct (String.prefix _ _);
    [apply process_base64_outcome|apply process_url_outcome].
Qed.

(** ** The markup of a cell after the images are processed *)

(** X21: processing the images of a cell changes nothing but [src]
    attributes: the soup keeps its nodes in number and order, every text
    node is as it was, every [img] element is still an [img] element; the
    signals emitted so far are kept, and what is added are log lines and
    error reports only. *)
Theorem process_imgs_keeps_markup (env : Env) (cfg : Config) (index : QModelIndex)
    (soup : list node) (st : list worker_signal * nat) :
  same_markup soup (fst (process_imgs env cfg index soup st))
  /\ has_img (fst (process_imgs env cfg index soup st)) = has_img soup
  /\ exists extra,
       fst (snd (process_imgs env cfg index soup st)) = (fst st ++ extra)%list
       /\ only_logs extra.
Proof.
  split; [|split; [|apply process_imgs_logs]].
  - revert st. induction soup as [|[s|attr] rest IH]; intros st; simpl.
    + constructor.
    + specialize (IH st). destruct (process_imgs env cfg index rest st) as [rest' st'].
      simpl in *. constructor; [reflexivity|exact IH].
    + destruct (process_img env cfg index attr st) as [attr' st1].
      specialize (IH st1). destruct (process_imgs env cfg index rest st1) as [rest' st2].
      simpl in *. constructor; [exact I|exact IH].
  - revert st. induction soup as [|[s|attr] rest IH]; intros st; simpl.
    + reflexivity.
    + specialize (IH st). destruct (process_imgs env cfg index rest st) as [rest' st'].
      simpl in *. exact IH.
    + destruct (process_img env cfg index attr st) as [attr' st1].
      destruct (process_imgs env cfg index rest st1) as [rest' st2]. reflexivity.
Qed.

(** ** Clearing cells without the history *)

Lemma cleared_by_refl w : wf_df (_df w) -> cleared_by [] w w.
Proof.
  intros Hwf. split; [exact Hwf|]. do 4 (split; [reflexivity|]). split.
  - exists []. split; [symmetry; apply app_nil_r|constructor].
  - intros r c _. rewrite bool_decide_eq_false_2 by apply not_elem_of_nil. reflexivity.
Qed.

Lemma cleared_by_trans l1 l2 w1 w2 w3 :
  cleared_by l1 w1 w2 -> cleared_by l2 w2 w3 -> cleared_by (l1 ++ l2) w1 w3.
Proof.
  intros (A1 & A2 & A3 & A4 & A5 & (s1 & A6 & A6') & A7)
         (B1 & B2 & B3 & B4 & B5 & (s2 & B6 & B6') & B7).
  split; [exact B1|]. split; [intros; rewrite B2; apply A2|].
  split; [congruence|]. split; [congruence|]. split; [congruence|]. split.
  - exists (s1 ++ s2)%list. split; [rewrite B6, A6, app_assoc; reflexivity|].
    apply Forall_app. split; assumption.
  - intros r c Hrc. rewrite B7 by (rewrite A2; exact Hrc). rewrite A7 by exact Hrc.
    destruct (bool_decide ((r, c) ∈ l2)) eqn:E2.
    + apply bool_decide_eq_true in E2.
      rewrite bool_decide_eq_true_2 by (apply elem_of_app; right; exact E2). reflexivity.
    + apply bool_decide_eq_false in E2.
      rewrite (bool_decide_ext ((r, c) ∈ (l1 ++ l2)%list) ((r, c) ∈ l1))
        by (rewrite elem_of_app; tauto).
      reflexivity.
Qed.

Lemma cleared_by_emit l w w' s :
  cleared_by l w w' -> Forall (fun x => x <> dataChangedSignal) s ->
  cleared_by l w (emit s w').
Proof.
  intros (A1 & A2 & A3 & A4 & A5 & (s1 & A6 & A6') & A7) Hs.
  split; [exact A1|]. split; [exact A2|]. split; [exact A3|]. split; [exact A4|].
  split; [exact A5|]. split; [|exact A7].
  exists (s1 ++ s)%list. split; [simpl; rewrite A6, app_assoc; reflexivity|].
  apply Forall_app. split; assumption.
Qed.

Lemma hasIndex_spec d r c :
  hasIndex d r c = true <->
  0 <= r /\ 0 <= c /\ r < Z.of_nat (length (rows d)) /\ c < Z.of_nat (length (columns d)).
Proof.
  unfold hasIndex, rowCount, columnCount.
  rewrite !andb_true_iff, !Z.leb_le, !Z.ltb_lt. tauto.
Qed.

Lemma clear_cell_cleared r c w :
  wf_df (_df w) -> hasIndex (_df w) r c = true ->
  exists w', clear_cell r c w = Ok tt w' /\ cleared_by [(r, c)] w w'.
Proof.
  intros Hwf Hrc. pose proof Hrc as Hh. apply hasIndex_spec in Hh as (H1 & H2 & H3 & H4).
  unfold clear_cell, rowCount, columnCount.
  replace (r <? Z.of_nat (length (rows (_df w)))) with true by (symmetry; apply Z.ltb_lt; lia).
  replace (c <? Z.of_nat (length (columns (_df w)))) with true by (symmetry; apply Z.ltb_lt; lia).
  simpl. unfold iloc_set_z, iloc_position.
  replace (0 <=? r) with true by (symmetry; apply Z.leb_le; lia).
  replace (0 <=? c) with true by (symmetry; apply Z.leb_le; lia).
  replace (r <? Z.of_nat (length (rows (_df w)))) with true by (symmetry; apply Z.ltb_lt; lia).
  replace (c <? Z.of_nat (length (columns (_df w)))) with true by (symmetry; apply Z.ltb_lt; lia).
  simpl.
  assert (Hb : in_bounds (_df w) (mkIndex r c) = true) by exact Hrc.
  destruct (iloc_set_is_Some (_df w) (Z.to_nat r) (Z.to_nat c) (Str "")
              (in_bounds_in_range _ _ Hb)) as [d' Hd].
  rewrite Hd. eexists. split; [reflexivity|].
  split; [simpl; eapply iloc_set_wf; eauto|].
  split.
  { intros a b. simpl. unfold hasIndex, rowCount, columnCount.
    rewrite (iloc_set_columns _ _ _ _ _ Hd), (iloc_set_rows_length _ _ _ _ _ Hd). reflexivity. }
  split; [reflexivity|]. split; [reflexivity|]. split; [reflexivity|]. split.
  { exists []. split; [symmetry; apply app_nil_r|constructor]. }
  intros r' c' Hrc'. simpl. unfold cell_at. simpl.
  apply hasIndex_spec in Hrc' as (G1 & G2 & G3 & G4).
  case_bool_decide as Hin.
  - apply list_elem_of_singleton in Hin. injection Hin as -> ->.
    eapply iloc_get_set_eq; eauto.
  - eapply iloc_get_set_ne; eauto. intros Heq. apply Hin.
    injection Heq as E1 E2. apply list_elem_of_singleton.
    f_equal; lia.
Qed.

Lemma clear_cells_cleared r cols : forall w,
  wf_df (_df w) -> Forall (fun c => hasIndex (_df w) r c = true) cols ->
  exists w', for_each (clear_cell r) cols w = Ok tt w'
             /\ cleared_by (map (pair r) cols) w w'.
Proof.
  induction cols as [|c cols IH]; intros w Hwf Hall.
  - exists w. split; [reflexivity|apply cleared_by_refl, Hwf].
  - inversion Hall as [|? ? Hc Hall']; subst.
    destruct (clear_cell_cleared r c w Hwf Hc) as (w1 & H1 & C1).
    destruct (IH w1) as (w' & H' & C').
    { apply C1. }
    { eapply Forall_impl; [exact Hall'|]. intros x Hx. cbv beta.
      destruct C1 as (_ & Hsh & _). rewrite Hsh. exact Hx. }
    exists w'. split; [cbn [for_each]; unfold bind; rewrite H1; exact H'|].
    exact (cleared_by_trans [(r, c)] _ _ _ _ C1 C').
Qed.

Lemma clear_range_cleared r rg w :
  wf_df (_df w) ->
  Forall (fun c => hasIndex (_df w) r c = true) (range (fst rg) (snd rg + 1)) ->
  exists w', clear_range r rg w = Ok tt w' /\ cleared_by (range_cells r rg) w w'.
Proof.
  intros Hwf Hall.
  destruct (clear_cells_cleared r _ w Hwf Hall) as (w1 & H1 & C1).
  unfold clear_range, bind. rewrite H1. eexists. split; [reflexivity|].
  apply cleared_by_emit; [exact C1|]. repeat constructor. discriminate.
Qed.

Lemma clear_ranges_cleared r rgs : forall w,
  wf_df (_df w) ->
  Forall (fun c => hasIndex (_df w) r c = true)
    (flat_map (fun rg => range (fst rg) (snd rg + 1)) rgs) ->
  exists w', for_each (clear_range r) rgs w = Ok tt w'
             /\ cleared_by (flat_map (range_cells r) rgs) w w'.
Proof.
  induction rgs as [|rg rgs IH]; intros w Hwf Hall.
  - exists w. split; [reflexivity|apply cleared_by_refl, Hwf].
  - simpl in Hall. apply Forall_app in Hall as [Hrg Hall'].
    destruct (clear_range_cleared r rg w Hwf Hrg) as (w1 & H1 & C1).
    destruct (IH w1) as (w' & H' & C').
    { apply C1. }
    { eapply Forall_impl; [exact Hall'|]. intros x Hx. cbv beta.
      destruct C1 as (_ & Hsh & _). rewrite Hsh. exact Hx. }
    exists w'. split; [cbn [for_each]; unfold bind; rewrite H1; exact H'|].
    exact (cleared_by_trans _ _ _ _ _ C1 C').
Qed.

(** *** The columns the ranges cover *)

Lemma in_range_list a b c : In c (range a b) <-> a <= c < b.
Proof.
  unfold range. rewrite in_map_iff. split.
  - intros (k & <- & Hk). apply in_seq in Hk. lia.
  - intros H. exists (Z.to_nat (c - a)). split; [lia|]. apply in_seq. lia.
Qed.

Lemma contiguous_ranges_cover cols : forall start end_ c,
  start <= end_ ->
  In c (flat_map (fun rg => range (fst rg) (snd rg + 1)) (contiguous_ranges start end_ cols))
  <-> (start <= c <= end_ \/ In c cols).
Proof.
  induction cols as [|col cols IH]; intros start end_ c Hse.
  - simpl. rewrite app_nil_r, in_range_list. intuition lia.
  - simpl. destruct (col =? end_ + 1) eqn:E.
    + apply Z.eqb_eq in E. rewrite IH by lia. intuition lia.
    + simpl. rewrite in_app_iff, in_range_list, IH by lia. simpl. intuition lia.
Qed.

Lemma in_insert_sorted x l c : In c (insert_sorted x l) <-> c = x \/ In c l.
Proof.
  induction l as [|y l IH]; simpl; [intuition|].
  destruct (x <=? y); simpl; [intuition|]. rewrite IH. intuition.
Qed.

Lemma in_sorted l c : In c (sorted l) <-> In c l.
Proof.
  induction l as [|x l IH]; simpl; [reflexivity|].
  rewrite in_insert_sorted, IH. intuition.
Qed.

Lemma row_columns (rc : Z * list Z) c :
  match sorted (snd rc) with
  | [] => False
  | c0 :: rest =>
      In c (flat_map (fun rg => range (fst rg) (snd rg + 1)) (contiguous_ranges c0 c0 rest))
  end <-> In c (snd rc).
Proof.
  rewrite <- (in_sorted (snd rc) c). destruct (sorted (snd rc)) as [|c0 rest]; [reflexivity|].
  rewrite contiguous_ranges_cover by lia. simpl. intuition lia.
Qed.

(** *** The rows of the dict *)

Lemma in_cells_of (acc : list (Z * list Z)) r c :
  In (r, c) (flat_map (fun rc => map (pair (fst rc)) (snd rc)) acc)
  <-> exists cols, In (r, cols) acc /\ In c cols.
Proof.
  rewrite in_flat_map. split.
  - intros ([r0 cols] & Hin & Hc). cbn [fst snd] in Hc.
    apply in_map_iff in Hc as (x & Hx & Hc). injection Hx as -> ->. eauto.
  - intros (cols & Hin & Hc). exists (r, cols). split; [exact Hin|].
    cbn [fst snd]. apply in_map. exact Hc.
Qed.

Lemma in_append_to r c acc rc :
  In rc (flat_map (fun rc => map (pair (fst rc)) (snd rc)) (append_to r c acc))
  <-> (In rc (flat_map (fun rc => map (pair (fst rc)) (snd rc)) acc) \/ rc = (r, c)).
Proof.
  induction acc as [|[r0 cols0] acc IH]; simpl.
  - intuition.
  - case_bool_decide as Hr.
    + subst r0. simpl. rewrite !in_app_iff, map_app, in_app_iff. simpl. intuition.
    + simpl. rewrite !in_app_iff, IH. tauto.
Qed.

Lemma in_group_fold sel : forall acc rc,
  In rc (flat_map (fun rc => map (pair (fst rc)) (snd rc))
           (fold_left (fun acc index => append_to (row index) (column index) acc) sel acc))
  <-> (In rc (flat_map (fun rc => map (pair (fst rc)) (snd rc)) acc)
       \/ exists i, In i sel /\ rc = (row i, column i)).
Proof.
  induction sel as [|i sel IH]; intros acc rc; simpl.
  - split; [auto|]. intros [H|(i & [] & _)]. exact H.
  - rewrite IH, in_append_to. split.
    + intros [[H|H]|(j & Hj & Hr)]; [auto|right; exists i; auto|right; exists j; auto].
    + intros [H|(j & [<-|Hj] & Hr)]; [auto|auto|right; exists j; auto].
Qed.

Lemma in_bulk_cells sel r c :
  In (r, c) (bulk_cells sel) <-> exists i, In i sel /\ row i = r /\ column i = c.
Proof.
  unfold bulk_cells. rewrite in_flat_map.
  transitivity (exists cols, In (r, cols) (group_by_row sel) /\ In c cols).
  - split.
    + intros ([r0 cols] & Hin & Hc). unfold row_cells in Hc. cbn [fst snd] in Hc.
      assert (r0 = r /\ In c cols) as [-> Hc'].
      { pose proof (row_columns (r0, cols) c) as Hrow. cbn [fst snd] in Hrow.
        destruct (sorted cols) as [|c0 rest]; [destruct Hc|].
        apply in_flat_map in Hc as (rg & Hrg & Hc). unfold range_cells in Hc.
        apply in_map_iff in Hc as (x & Hx & Hxr). injection Hx as -> ->.
        split; [reflexivity|]. apply Hrow. apply in_flat_map. eauto. }
      exists cols. auto.
    + intros (cols & Hin & Hc). exists (r, cols). split; [exact Hin|].
      unfold row_cells. cbn [fst snd].
      pose proof (row_columns (r, cols) c) as Hrow. cbn [fst snd] in Hrow.
      destruct (sorted cols) as [|c0 rest]; [apply Hrow, Hc|].
      apply Hrow in Hc. apply in_flat_map in Hc as (rg & Hrg & Hc).
      apply in_flat_map. exists rg. split; [exact Hrg|].
      unfold range_cells. apply in_map. exact Hc.
  - rewrite <- in_cells_of. unfold group_by_row. rewrite in_group_fold. simpl. split.
    + intros [[]|(i & Hi & E)]. injection E as -> ->. eauto.
    + intros (i & Hi & <- & <-). right. eauto.
Qed.

Lemma group_by_row_nonempty acc sel r cols :
  (forall r0 cols0, In (r0, cols0) acc -> cols0 <> []) ->
  In (r, cols) (fold_left (fun acc index => append_to (row index) (column index) acc) sel acc) ->
  cols <> [].
Proof.
  revert acc. induction sel as [|i sel IH]; intros acc Hacc Hin; simpl in Hin.
  - eapply Hacc; eauto.
  - eapply IH; [|exact Hin]. clear -Hacc. intros r0 cols0 H0.
    induction acc as [|[r1 cols1] acc IHa]; simpl in H0.
    + destruct H0 as [H0|[]]. injection H0 as <- <-. discriminate.
    + case_bool_decide.
      * destruct H0 as [H0|H0].
        -- injection H0 as <- <-. intros E. apply app_eq_nil in E as [_ E]. discriminate.
        -- eapply Hacc. right. exact H0.
      * destruct H0 as [H0|H0].
        -- injection H0 as <- <-. eapply Hacc. left. reflexivity.
        -- apply IHa; [|exact H0]. intros. eapply Hacc. right. eauto.
Qed.

Lemma sorted_nonempty l : l <> [] -> sorted l <> [].
Proof.
  intros Hl Hs. destruct l as [|x l]; [congruence|].
  assert (In x (sorted (x :: l))) by (apply in_sorted; left; reflexivity).
  rewrite Hs in H. destruct H.
Qed.

Lemma clear_rows_cleared groups : forall w,
  wf_df (_df w) ->
  Forall (fun rc => snd rc <> []) groups ->
  Forall (fun rc => Forall (fun c => hasIndex (_df w) (fst rc) c = true) (snd rc)) groups ->
  exists w', for_each clear_row groups w = Ok tt w'
             /\ cleared_by (flat_map row_cells groups) w w'.
Proof.
  induction groups as [|[r cols] groups IH]; intros w Hwf Hne Hall.
  - exists w. split; [reflexivity|apply cleared_by_refl, Hwf].
  - inversion Hne as [|? ? Hn Hne']; subst. inversion Hall as [|? ? Hr Hall']; subst.
    cbn [fst snd] in Hn, Hr.
    assert (H1 : exists w1, clear_row (r, cols) w = Ok tt w1
                            /\ cleared_by (row_cells (r, cols)) w w1).
    { unfold clear_row, row_cells. cbn [fst snd].
      pose proof (row_columns (r, cols)) as Hrow. cbn [fst snd] in Hrow.
      pose proof (sorted_nonempty cols Hn) as Hs.
      destruct (sorted cols) as [|c0 rest]; [congruence|].
      apply clear_ranges_cleared; [exact Hwf|].
      apply List.Forall_forall. intros c Hc. apply Hrow in Hc.
      rewrite List.Forall_forall in Hr. apply Hr, Hc. }
    destruct H1 as (w1 & H1 & C1).
    destruct (IH w1) as (w' & H' & C').
    { apply C1. }
    { exact Hne'. }
    { eapply Forall_impl; [exact Hall'|]. intros rc Hrc. cbv beta.
      eapply Forall_impl; [exact Hrc|]. intros c Hc. cbv beta.
      destruct C1 as (_ & Hsh & _). rewrite Hsh. exact Hc. }
    exists w'. split; [cbn [for_each]; unfold bind; rewrite H1; exact H'|].
    exact (cleared_by_trans _ _ _ _ _ C1 C').
Qed.

(** X22: the bulk clear (the path [clear_selected_cells] takes when the
    model has no undo stack) on a selection of cells of a table of text
    columns sets every selected cell to the empty string (the [str],
    where the delete command stores a missing value), leaves every other
    cell as it was, pushes nothing on the history, leaves the flag alone,
    and emits [dataChanged] signals only (never [dataChangedSignal]). *)
Theorem clear_selected_cells_bulk_clears (sel : list QModelIndex) (w : World) :
  wf_df (_df w) -> text_columns (_df w) = true ->
  Forall (fun i => in_bounds (_df w) i = true) sel ->
  exists w',
    clear_selected_cells_bulk sel w = Ok tt w'
    /\ wf_df (_df w')
    /\ undo_stack w' = undo_stack w
    /\ ignore_undo w' = ignore_undo w
    /\ (exists signals, emitted w' = (emitted w ++ signals)%list
                        /\ Forall (fun s => s <> dataChangedSignal) signals)
    /\ forall j, in_bounds (_df w) j = true ->
         cell_at (_df w') j
         = if bool_decide (j ∈ sel) then Some (Str "") else cell_at (_df w) j.
Proof.
  intros Hwf Htext Hall.
  assert (Hmain : exists w', for_each clear_row (group_by_row sel) w = Ok tt w'
                             /\ cleared_by (bulk_cells sel) w w').
  { apply clear_rows_cleared; [exact Hwf| |].
    - apply List.Forall_forall. intros [r cols] Hin. cbn [snd].
      eapply (group_by_row_nonempty [] sel r cols); [intros ? ? []|exact Hin].
    - apply List.Forall_forall. intros [r cols] Hin. cbn [fst snd].
      apply List.Forall_forall. intros c Hc.
      assert (He : exists cols0, In (r, cols0) (group_by_row sel) /\ In c cols0) by eauto.
      apply in_cells_of in He. unfold group_by_row in He.
      apply in_group_fold in He as [[]|(i & Hi & E)]. injection E as -> ->.
      rewrite List.Forall_forall in Hall. apply (Hall i Hi). }
  destruct Hmain as (w' & Hrun & (C1 & C2 & C3 & C4 & C5 & C6 & C7)).
  assert (Hcells : forall j, in_bounds (_df w) j = true ->
            cell_at (_df w') j
            = if bool_decide (j ∈ sel) then Some (Str "") else cell_at (_df w) j).
  { intros [r c] Hj. rewrite (C7 r c Hj).
    apply (f_equal (fun b : bool => if b then Some (Str "") else cell_at (_df w) (mkIndex r c))).
    apply bool_decide_ext. rewrite list_elem_of_In, in_bulk_cells, list_elem_of_In. split.
    - intros ([r' c'] & Hi & Hr & Hc). simpl in Hr, Hc. subst. exact Hi.
    - intros Hi. exists (mkIndex r c). auto. }
  destruct sel as [|i sel].
  - exists w. split; [reflexivity|]. split; [exact Hwf|].
    split; [reflexivity|]. split; [reflexivity|]. split.
    + exists []. split; [symmetry; apply app_nil_r|constructor].
    + intros j _. rewrite bool_decide_eq_false_2 by apply not_elem_of_nil. reflexivity.
  - exists w'. split; [unfold clear_selected_cells_bulk, try_except; rewrite Hrun; reflexivity|].
    split; [exact C1|]. split; [exact C3|]. split; [exact C4|]. split; [exact C6|exact Hcells].
Qed.

Lemma clear_selected_cells_bulk_clears_witness :
  exists w',
    clear_selected_cells_bulk [mkIndex 2 2; mkIndex 0 1; mkIndex 2 0; mkIndex 2 1]
      (loaded frame3x3) = Ok tt w'
    /\ undo_stack w' = undo_stack (loaded frame3x3)
    /\ cell_at (_df w') (mkIndex 2 0) = Some (Str "")
    /\ cell_at (_df w') (mkIndex 0 1) = Some (Str "")
    /\ cell_at (_df w') (mkIndex 0 0) = Some (Str "a0").
Proof.
  destruct (clear_selected_cells_bulk_clears
              [mkIndex 2 2; mkIndex 0 1; mkIndex 2 0; mkIndex 2 1] (loaded frame3x3))
    as (w' & H1 & H2 & H3 & H4 & H5 & H6).
  - exact wf_frame3x3.
  - reflexivity.
  - repeat constructor.
  - exists w'. split; [exact H1|]. split; [exact H3|].
    rewrite (H6 (mkIndex 2 0)), (H6 (mkIndex 0 1)), (H6 (mkIndex 0 0)) by reflexivity.
    repeat split.
Defined.

(** An invalid index in the selection (row and column -1) passes the
    bounds test of line 386, and [iloc] counts from the end: the bulk
    clear blanks the last cell of the table. *)
Example bulk_clear_invalid_index_hits_last_cell :
  exists w',
    clear_selected_cells_bulk [invalid_index] (loaded frame3x3) = Ok tt w'
    /\ rows (_df w')
       = [ [Str "a0"; Str "b0"; Str "c0"];
           [Str "a1"; NA;       Str ""  ];
           [Num 7;    Str "b2"; Str ""  ] ].
Proof. eexists. split; reflexivity. Qed.

(** ** What the cells hold after user actions *)

Lemma stored_normalised v : normalised (stored v).
Proof.
  destruct v as [|s|z|]; try (split; discriminate).
  unfold stored. destruct (bool_decide (s = "")) eqn:E1; [split; discriminate|].
  destruct (bool_decide (s = no_field_value)) eqn:E2; [split; discriminate|].
  apply bool_decide_eq_false in E1, E2. simpl. split; congruence.
Qed.

Lemma writes_normalised d l r c v :
  wf_df d ->
  (forall x, iloc_get d r c = Some x -> normalised x) ->
  iloc_get (writes d l) r c = Some v -> normalised v.
Proof.
  intros Hwf Hd Hg.
  assert (Hr : in_range d r c = true).
  { rewrite <- (writes_in_range l). eapply iloc_get_in_range; eauto. }
  rewrite get_writes in Hg by assumption.
  destruct (last_write l r c) as [x|]; [|auto].
  injection Hg as <-. apply stored_normalised.
Qed.

Lemma pushes_writes w w' : pushes w w' -> exists l, _df w' = writes (_df w) l.
Proof.
  induction 1 as [w|w cmd w' _ _ [l IH]].
  - exists []. reflexivity.
  - exists (redo_writes (_df w) cmd ++ l)%list.
    rewrite IH, pushed_df, writes_app. reflexivity.
Qed.

Lemma perform_writes fuel a w :
  steady w -> action_ok (_df w) a ->
  exists w' l, perform (S fuel) a w = Ok tt w' /\ _df w' = writes (_df w) l.
Proof.
  intros Hs Hok.
  assert (Hrec : records a ->
            exists w' l, perform (S fuel) a w = Ok tt w' /\ _df w' = writes (_df w) l).
  { intros Hrec.
    destruct (perform_pushes fuel a w (proj1 Hs) Hok Hrec) as (w' & H1 & Hp).
    destruct (pushes_writes _ _ Hp) as [l Hl]. eauto. }
  destruct a; try (apply Hrec; exact I).
  - change (perform (S fuel) UserUndo) with (undo (S fuel)).
    destruct Hs as (_ & Hst & _). unfold wf_stack in Hst.
    destruct (stack_index (undo_stack w)) as [|k] eqn:Hi.
    + exists w, []. split; [apply undo_at_bottom, Hi|reflexivity].
    + destruct (lookup_lt_is_Some_2 (command_list (undo_stack w)) k) as [cmd Hc]; [lia|].
      rewrite (undo_eq (S fuel) w k cmd Hi Hc). eexists. exists (undo_writes cmd).
      split; [reflexivity|]. simpl. rewrite flagged_steps_df. reflexivity.
  - change (perform (S fuel) UserRedo) with (redo (S fuel)).
    destruct (command_list (undo_stack w) !! stack_index (undo_stack w)) as [cmd|] eqn:Hc.
    + rewrite (redo_eq (S fuel) w cmd Hc). eexists. exists (redo_writes (_df w) cmd).
      split; [reflexivity|]. simpl. rewrite flagged_steps_df. reflexivity.
    + exists w, []. split; [apply redo_at_top, Hc|reflexivity].
Qed.

Lemma perform_list_writes fuel actions : forall w,
  steady w -> Forall (action_ok (_df w)) actions ->
  exists w' l, for_each (perform (S fuel)) actions w = Ok tt w' /\ _df w' = writes (_df w) l.
Proof.
  induction actions as [|a actions IH]; intros w Hs Hok.
  - exists w, []. split; reflexivity.
  - inversion Hok as [|? ? Ha Hok']; subst.
    destruct (perform_steady fuel a w Hs Ha) as (w1 & H1 & Hs1 & Hsh1 & _).
    destruct (perform_writes fuel a w Hs Ha) as (w1' & l1 & H1' & Hl1).
    rewrite H1 in H1'. injection H1' as <-.
    destruct (IH w1 Hs1) as (w' & l & H' & Hl).
    { eapply Forall_impl; [exact Hok'|]. intros b Hb. destruct b; simpl in *; auto.
      rewrite (same_shape_index_ok w w1); auto. }
    exists w', (l1 ++ l)%list. split; [cbn [for_each]; unfold bind; rewrite H1; exact H'|].
    rewrite Hl, Hl1, writes_app. reflexivity.
Qed.

(** X23: the user never puts an empty string or the "no field value"
    literal into the table.  If no cell of a loaded table holds one of
    the two (a table read from a CSV file has missing values where the
    file has nothing), then after any sequence of edits, deletes, pastes,
    front-space transformations, undos and redos no cell holds one: every
    value written goes through the normalisation of [setData]. *)
Theorem actions_keep_cells_normalised (fuel : nat) (d : DataFrame)
    (actions : list action) :
  wf_df d -> Forall (action_ok d) actions ->
  (forall r c x, iloc_get d r c = Some x -> normalised x) ->
  exists w,
    for_each (perform (S fuel)) actions (loaded d) = Ok tt w
    /\ forall r c v, iloc_get (_df w) r c = Some v -> normalised v.
Proof.
  intros Hwf Hok Hd.
  destruct (perform_list_writes fuel actions (loaded d) (steady_loaded d Hwf) Hok)
    as (w & l & Hrun & Hl).
  exists w. split; [exact Hrun|]. intros r c v Hg. rewrite Hl in Hg.
  eapply (writes_normalised d l r c v Hwf); eauto.
Qed.

Lemma actions_keep_cells_normalised_witness :
  exists w,
    for_each (perform 1)
      [ UserEdit (mkIndex 0 0) ""; UserPaste [mkIndex 0 0] no_field_value;
        UserClear [mkIndex 0 0]; UserUndo; UserUndo ]
      (loaded gallery) = Ok tt w
    /\ (forall v, iloc_get (_df w) 0 0 = Some v -> normalised v).
Proof.
  destruct (actions_keep_cells_normalised 0 gallery
      [ UserEdit (mkIndex 0 0) ""; UserPaste [mkIndex 0 0] no_field_value;
        UserClear [mkIndex 0 0]; UserUndo; UserUndo ]) as (w & H1 & H2).
  - repeat constructor.
  - repeat constructor.
  - intros r c x Hx.
    destruct r as [|[|[|[|[|[|r]]]]]]; destruct c as [|c]; try discriminate;
      injection Hx as <-; split; discriminate.
  - exists w. split; [exact H1|]. intros v. apply H2.
Defined.

(** ** Applying the mapping *)

Lemma positions_from_absent name cols : forall k,
  name ∉ cols -> positions_from k name cols = [].
Proof.
  induction cols as [|c cols IH]; intros k Hn; [reflexivity|].
  apply not_elem_of_cons in Hn as [Hc Hn]. simpl.
  rewrite bool_decide_eq_false_2 by congruence. simpl. apply IH, Hn.
Qed.

Lemma positions_from_unique name cols : forall k i,
  NoDup cols -> cols !! i = Some name -> positions_from k name cols = [(k + i)%nat].
Proof.
  induction cols as [|c cols IH]; intros k i Hnd Hi; [discriminate|].
  apply NoDup_cons in Hnd as [Hc Hnd]. simpl. destruct i as [|i]; simpl in Hi.
  - injection Hi as ->. rewrite bool_decide_eq_true_2 by reflexivity.
    rewrite (positions_from_absent name cols (S k) Hc). simpl. f_equal. lia.
  - rewrite bool_decide_eq_false_2.
    + simpl. rewrite (IH (S k) i Hnd Hi). f_equal. lia.
    + intros ->. apply Hc. eapply list_elem_of_lookup_2; eauto.
Qed.

Lemma column_positions_unique name cols i :
  NoDup cols -> cols !! i = Some name -> column_positions name cols = [i].
Proof. intros Hnd Hi. unfold column_positions. rewrite (positions_from_unique name cols 0 i); auto. Qed.

Lemma existsb_take_S {A} (f : A -> bool) (l : list A) j x :
  l !! j = Some x -> existsb f (take (S j) l) = existsb f (take j l) || f x.
Proof.
  intros H. rewrite (take_S_r l j x H), existsb_app. simpl. rewrite orb_false_r. reflexivity.
Qed.

Lemma map_column_step mapping df_source j t a b :
  NoDup (map fst mapping) -> NoDup (columns df_source) ->
  mapping !! j = Some (a, b) ->
  mapping_done mapping df_source j t ->
  exists t1, map_column df_source (Some t) (a, b) = Some t1
             /\ mapping_done mapping df_source (S j) t1.
Proof.
  intros Hkeys Hcols Hj (Hc & Hlen & Hn & Hcells).
  assert (Hjlt : (j < length mapping)%nat) by (eapply lookup_lt_Some; eauto).
  assert (Hpos : column_positions a (columns t) = [j]).
  { rewrite Hc. apply column_positions_unique; [exact Hkeys|].
    rewrite list_lookup_fmap, Hj. reflexivity. }
  unfold map_column. cbn [fst snd]. rewrite Hpos.
  pose proof (existsb_take_S (fun ab => is_mapped df_source (snd ab)) mapping j (a, b) Hj)
    as HexS. cbn [snd] in HexS.
  destruct (is_mapped df_source b) eqn:Hm.
  - (* a source column is copied *)
    assert (Hb : exists pos_b, columns df_source !! pos_b = Some b).
    { unfold is_mapped in Hm. apply andb_true_iff in Hm as [_ Hm].
      apply bool_decide_eq_true in Hm. apply list_elem_of_lookup_1, Hm. }
    destruct Hb as [pos_b Hb].
    pose proof (column_positions_unique b _ pos_b Hcols Hb) as Hpb. rewrite Hpb.
    set (vals := map (fun r => default NA (r !! pos_b)) (rows df_source)).
    assert (Hvals : forall r, (r < length (rows df_source))%nat ->
              vals !! r = Some (source_value df_source r b)).
    { intros r Hr. unfold vals, source_value. rewrite Hpb, list_lookup_fmap.
      destruct (lookup_lt_is_Some_2 (rows df_source) r Hr) as [row0 ->]. reflexivity. }
    assert (Hvlen : length vals = length (rows df_source)) by apply length_map.
    eexists. split; [reflexivity|]. rewrite orb_true_r in HexS.
    unfold mapping_done. rewrite HexS.
    unfold set_column_series.
    destruct (rows t) as [|row0 rows0] eqn:Hrt.
    + (* the target has no rows yet *)
      destruct vals as [|v vals'] eqn:Hv.
      * simpl. split; [exact Hc|]. split; [constructor|]. split; [simpl in Hvlen; lia|].
        intros r k ab row _ Hrow. destruct r; discriminate.
      * split; [exact Hc|]. split; [|split].
        -- cbn [rows]. apply List.Forall_forall. intros row Hin.
           apply in_map_iff in Hin as (x & <- & _).
           rewrite length_insert, length_replicate, Hc, length_map. reflexivity.
        -- cbn [rows]. rewrite length_map. exact Hvlen.
        -- intros r k ab row Hk Hrow. cbn [rows] in Hrow.
           rewrite list_lookup_fmap in Hrow.
           destruct ((v :: vals') !! r) as [x|] eqn:Hx; [|discriminate].
           injection Hrow as <-.
           assert (Hr : (r < length (rows df_source))%nat).
           { rewrite <- Hvlen. eapply lookup_lt_Some; eauto. }
           rewrite (Hvals r Hr) in Hx. injection Hx as <-.
           assert (Hklt : (k < length mapping)%nat) by (eapply lookup_lt_Some; eauto).
           assert (Hnone : existsb (fun ab => is_mapped df_source (snd ab)) (take j mapping)
                           = false).
           { destruct (existsb _ (take j mapping)); [|reflexivity].
             simpl in Hn. simpl in Hvlen. lia. }
           destruct (decide (k = j)) as [->|Hne].
           ++ rewrite Hj in Hk. injection Hk as <-. cbn [snd]. rewrite Hm.
              replace (j <? S j)%nat with true by (symmetry; apply Nat.ltb_lt; lia).
              simpl. apply list_lookup_insert_eq.
              rewrite length_replicate, Hc, length_map. exact Hjlt.
           ++ rewrite list_lookup_insert_ne by congruence.
              rewrite lookup_replicate_2 by (rewrite Hc, length_map; exact Hklt).
              f_equal. destruct (k <? S j)%nat eqn:Hlt; [|reflexivity].
              apply Nat.ltb_lt in Hlt.
              assert (Hin : In ab (take j mapping)).
              { apply list_elem_of_In. apply (list_elem_of_lookup_2 _ k).
                rewrite lookup_take_lt by lia. exact Hk. }
              destruct (is_mapped df_source (snd ab)) eqn:Hab; [|reflexivity].
              exfalso. assert (existsb (fun ab => is_mapped df_source (snd ab))
                                 (take j mapping) = true).
              { apply existsb_exists. exists ab. auto. }
              congruence.
    + (* the target has rows: the values are matched by label *)
      assert (Hex : existsb (fun ab => is_mapped df_source (snd ab)) (take j mapping) = true).
      { destruct (existsb _ (take j mapping)); [reflexivity|]. simpl in Hn. lia. }
      rewrite Hex in Hn. rewrite <- Hrt in *. clear Hrt row0 rows0.
      assert (Hgoal : mapping_done mapping df_source (S j)
                (mkDataFrame (columns t)
                   (imap (fun k r => <[j := default NA (vals !! k)]> r) (rows t)))).
      { unfold mapping_done. rewrite HexS. split; [exact Hc|]. split; [|split].
        - cbn [rows]. apply List.Forall_forall. intros row Hin.
          apply list_elem_of_In, list_elem_of_lookup_1 in Hin as [r Hr].
          rewrite list_lookup_imap in Hr.
          destruct (rows t !! r) as [row1|] eqn:Hr1; [|discriminate].
          injection Hr as <-. rewrite length_insert.
          rewrite List.Forall_forall in Hlen. apply Hlen.
          apply list_elem_of_In. eapply list_elem_of_lookup_2; eauto.
        - cbn [rows]. rewrite length_imap. exact Hn.
        - intros r k ab row Hk Hrow. cbn [rows] in Hrow.
          rewrite list_lookup_imap in Hrow.
          destruct (rows t !! r) as [row1|] eqn:Hr1; [|discriminate].
          injection Hrow as <-.
          assert (Hr : (r < length (rows df_source))%nat).
          { rewrite <- Hn. eapply lookup_lt_Some; eauto. }
          assert (Hl1 : length row1 = length mapping).
          { rewrite List.Forall_forall in Hlen. apply Hlen.
            apply list_elem_of_In. eapply list_elem_of_lookup_2; eauto. }
          destruct (decide (k = j)) as [->|Hne].
          + rewrite Hj in Hk. injection Hk as <-. cbn [snd]. rewrite Hm.
            replace (j <? S j)%nat with true by (symmetry; apply Nat.ltb_lt; lia).
            simpl. rewrite (Hvals r Hr). simpl. apply list_lookup_insert_eq. lia.
          + rewrite list_lookup_insert_ne by congruence.
            rewrite (Hcells r k ab row1 Hk Hr1). f_equal.
            replace (k <? S j)%nat with (k <? j)%nat; [reflexivity|].
            destruct (k <? j)%nat eqn:E1, (k <? S j)%nat eqn:E2; try reflexivity;
              [apply Nat.ltb_lt in E1; apply Nat.ltb_ge in E2; lia
              |apply Nat.ltb_ge in E1; apply Nat.ltb_lt in E2; lia]. }
      unfold mapping_done in Hgoal. rewrite HexS in Hgoal.
      destruct (rows t) as [|row0 rows0] eqn:Hrt; [|exact Hgoal].
      destruct vals; exact Hgoal.
  - (* no source column: the column is missing values *)
    eexists. split; [reflexivity|]. rewrite orb_false_r in HexS.
    unfold mapping_done. rewrite HexS.
    unfold set_column_scalar. split; [exact Hc|]. split; [|split].
    + cbn [rows]. apply List.Forall_forall. intros row Hin.
      apply in_map_iff in Hin as (x & <- & Hx). rewrite length_insert.
      rewrite List.Forall_forall in Hlen. apply Hlen, Hx.
    + cbn [rows]. rewrite length_map. exact Hn.
    + intros r k ab row Hk Hrow. cbn [rows] in Hrow. rewrite list_lookup_fmap in Hrow.
      destruct (rows t !! r) as [row1|] eqn:Hr1; [|discriminate].
      injection Hrow as <-.
      assert (Hl1 : length row1 = length mapping).
      { rewrite List.Forall_forall in Hlen. apply Hlen.
        apply list_elem_of_In. eapply list_elem_of_lookup_2; eauto. }
      destruct (decide (k = j)) as [->|Hne].
      * rewrite Hj in Hk. injection Hk as <-. cbn [snd]. rewrite Hm, andb_false_r.
        apply list_lookup_insert_eq. lia.
      * rewrite list_lookup_insert_ne by congruence.
        rewrite (Hcells r k ab row1 Hk Hr1). f_equal.
        replace (k <? S j)%nat with (k <? j)%nat; [reflexivity|].
        destruct (k <? j)%nat eqn:E1, (k <? S j)%nat eqn:E2; try reflexivity;
          [apply Nat.ltb_lt in E1; apply Nat.ltb_ge in E2; lia
          |apply Nat.ltb_ge in E1; apply Nat.ltb_lt in E2; lia].
Qed.

Lemma apply_mapping_loop mapping df_source :
  NoDup (map fst mapping) -> NoDup (columns df_source) ->
  forall rest j t,
    drop j mapping = rest -> mapping_done mapping df_source j t ->
    exists t', fold_left (map_column df_source) rest (Some t) = Some t'
               /\ mapping_done mapping df_source (length mapping) t'.
Proof.
  intros Hkeys Hcols rest. induction rest as [|[a b] rest IH]; intros j t Hdrop Hdone.
  - exists t. split; [reflexivity|].
    assert (Hj : (length mapping <= j)%nat).
    { destruct (Nat.le_gt_cases (length mapping) j) as [H|H]; [exact H|].
      destruct (lookup_lt_is_Some_2 mapping j H) as [x Hx].
      rewrite (drop_S mapping x j Hx) in Hdrop. discriminate. }
    destruct Hdone as (Hc & Hlen & Hn & Hcells).
    split; [exact Hc|]. split; [exact Hlen|]. split.
    + rewrite Hn. rewrite !take_ge by lia. reflexivity.
    + intros r k ab row Hk Hrow. rewrite (Hcells r k ab row Hk Hrow).
      pose proof (lookup_lt_Some _ _ _ Hk) as Hklt.
      replace (k <? j)%nat with true by (symmetry; apply Nat.ltb_lt; lia).
      replace (k <? length mapping)%nat with true by (symmetry; apply Nat.ltb_lt; lia).
      reflexivity.
  - assert (Hj : mapping !! j = Some (a, b)).
    { pose proof (lookup_drop mapping j 0) as H. rewrite Hdrop, Nat.add_0_r in H.
      symmetry. exact H. }
    assert (Hrest : drop (S j) mapping = rest).
    { rewrite (drop_S mapping (a, b) j Hj) in Hdrop. injection Hdrop as ->. reflexivity. }
    destruct (map_column_step mapping df_source j t a b Hkeys Hcols Hj Hdone)
      as (t1 & H1 & Hdone1).
    cbn [fold_left]. rewrite H1. apply (IH (S j) t1 Hrest Hdone1).
Qed.

(** X24: the frame [create_a_file] builds from the mapping.  With the
    columns of the table labelled distinctly, the loop of lines 1816-1825
    ends without an exception, and the target frame has the keys of the
    mapping as its columns, in their order; it is rectangular; it has the
    rows of the table when at least one key is mapped to an existing
    column, and no row at all otherwise; a key mapped to an existing
    column [b] holds, row by row, the values of column [b]; every other
    key holds missing values. *)
Theorem apply_mapping_copies_columns (mapping : list (string * string))
    (df_source : DataFrame) :
  NoDup (map fst mapping) -> NoDup (columns df_source) -> wf_df df_source ->
  exists df_target,
    apply_mapping mapping df_source = Some df_target
    /\ columns df_target = map fst mapping
    /\ wf_df df_target
    /\ length (rows df_target)
       = (if existsb (fun ab => is_mapped df_source (snd ab)) mapping
          then length (rows df_source) else 0%nat)
    /\ forall k a b r,
         mapping !! k = Some (a, b) -> (r < length (rows df_target))%nat ->
         if is_mapped df_source b
         then exists pos_b, columns df_source !! pos_b = Some b
                            /\ iloc_get df_target r k = iloc_get df_source r pos_b
         else iloc_get df_target r k = Some NA.
Proof.
  intros Hkeys Hcols Hwf.
  destruct (apply_mapping_loop mapping df_source Hkeys Hcols mapping 0
              (mkDataFrame (map fst mapping) [])) as (t & Hrun & Hdone).
  { reflexivity. }
  { split; [reflexivity|]. split; [constructor|]. split; [reflexivity|].
    intros r k ab row _ Hrow. destruct r; discriminate. }
  destruct Hdone as (Hc & Hlen & Hn & Hcells). rewrite take_ge in Hn by lia.
  exists t. split; [exact Hrun|]. split; [exact Hc|]. split; [|split; [exact Hn|]].
  - unfold wf_df. rewrite Hc, length_map. exact Hlen.
  - intros k a b r Hk Hr.
    pose proof (lookup_lt_Some _ _ _ Hk) as Hklt.
    destruct (lookup_lt_is_Some_2 (rows t) r Hr) as [row Hrow].
    pose proof (Hcells r k (a, b) row Hk Hrow) as Hcell. cbn [snd] in Hcell.
    replace (k <? length mapping)%nat with true in Hcell
      by (symmetry; apply Nat.ltb_lt; lia).
    assert (Hget : iloc_get t r k = row !! k).
    { unfold iloc_get, in_range. rewrite Hc, length_map.
      replace (r <? length (rows t))%nat with true by (symmetry; apply Nat.ltb_lt; lia).
      replace (k <? length mapping)%nat with true by (symmetry; apply Nat.ltb_lt; lia).
      simpl. rewrite Hrow. reflexivity. }
    rewrite Hget, Hcell. simpl.
    destruct (is_mapped df_source b) eqn:Hm; [|reflexivity].
    assert (Hrn : (r < length (rows df_source))%nat).
    { destruct (existsb _ mapping); [lia|]. rewrite Hn in Hr. lia. }
    unfold is_mapped in Hm. apply andb_true_iff in Hm as [_ Hm].
    apply bool_decide_eq_true, list_elem_of_lookup_1 in Hm as [pos_b Hb].
    exists pos_b. split; [exact Hb|].
    unfold source_value. rewrite (column_positions_unique b _ pos_b Hcols Hb).
    pose proof (lookup_lt_Some _ _ _ Hb) as Hpb.
    unfold iloc_get, in_range.
    replace (r <? length (rows df_source))%nat with true by (symmetry; apply Nat.ltb_lt; lia).
    replace (pos_b <? length (columns df_source))%nat with true
      by (symmetry; apply Nat.ltb_lt; lia).
    simpl. destruct (lookup_lt_is_Some_2 (rows df_source) r Hrn) as [row_s Hrs].
    rewrite Hrs. simpl.
    assert (Hls : length row_s = length (columns df_source)).
    { unfold wf_df in Hwf. rewrite List.Forall_forall in Hwf. apply Hwf.
      apply list_elem_of_In. eapply list_elem_of_lookup_2; eauto. }
    destruct (lookup_lt_is_Some_2 row_s pos_b) as [v Hv]; [lia|].
    rewrite Hv. reflexivity.
Qed.

Lemma apply_mapping_copies_columns_witness :
  exists df_target,
    apply_mapping [("product", "name"); ("stock", ""); ("cost", "price"); ("note", "memo")]
      sales = Some df_target
    /\ columns df_target = ["product"; "stock"; "cost"; "note"]
    /\ length (rows df_target) = 2%nat
    /\ iloc_get df_target 1 0 = Some (Str "ink")
    /\ iloc_get df_target 1 1 = Some NA
    /\ iloc_get df_target 1 3 = Some NA.
Proof.
  destruct (apply_mapping_copies_columns
              [("product", "name"); ("stock", ""); ("cost", "price"); ("note", "memo")] sales)
    as (t & H1 & H2 & H3 & H4 & H5).
  - apply (bool_decide_eq_true_1 (NoDup ["product"; "stock"; "cost"; "note"])).
    vm_compute. reflexivity.
  - apply (bool_decide_eq_true_1 (NoDup ["Unnamed: 0"; "name"; "price"])).
    vm_compute. reflexivity.
  - repeat constructor.
  - exists t. split; [exact H1|]. split; [exact H2|]. split; [exact H4|].
    assert (Hr : (1 < length (rows t))%nat) by (rewrite H4; simpl; lia).
    pose proof (H5 0%nat "product" "name" 1%nat eq_refl Hr) as A.
    pose proof (H5 1%nat "stock" "" 1%nat eq_refl Hr) as B.
    pose proof (H5 3%nat "note" "memo" 1%nat eq_refl Hr) as C.
    change (is_mapped sales "name") with true in A.
    change (is_mapped sales "") with false in B.
    change (is_mapped sales "memo") with false in C.
    destruct A as (pos_b & Hp & A).
    destruct pos_b as [|[|[|pos_b]]]; try discriminate.
    split; [exact A|]. split; [exact B|exact C].
Defined.

(** No key mapped: the file written has a header and no rows. *)
Example apply_mapping_nothing_mapped :
  apply_mapping [("product", ""); ("stock", "absent")] sales
  = Some (mkDataFrame ["product"; "stock"] []).
Proof. reflexivity. Qed.

(** ** Copy, then paste *)

Lemma split_no_sep sep s : has_char sep s = false -> split sep s = [s].
Proof.
  induction s as [|a s IH]; [reflexivity|]. simpl. intros H.
  apply orb_false_iff in H as [Ha Hs]. rewrite Ha, (IH Hs). reflexivity.
Qed.

Lemma split_append sep s1 s2 :
  has_char sep s1 = false ->
  split sep (s1 ++ String sep s2) = s1 :: split sep s2.
Proof.
  induction s1 as [|a s1 IH]; simpl; intros H.
  - rewrite bool_decide_eq_true_2 by reflexivity. reflexivity.
  - apply orb_false_iff in H as [Ha Hs]. rewrite Ha, (IH Hs). reflexivity.
Qed.

Lemma join_cons sep x y l :
  join sep (x :: y :: l) = x ++ String sep (join sep (y :: l)).
Proof. reflexivity. Qed.

Lemma split_join sep l :
  l <> [] -> Forall (fun s => has_char sep s = false) l ->
  split sep (join sep l) = l.
Proof.
  induction l as [|x l IH]; [congruence|]. intros _ Hall.
  inversion Hall as [|? ? Hx Hl]; subst. destruct l as [|y l].
  - apply split_no_sep, Hx.
  - rewrite join_cons, split_append by assumption. f_equal. apply IH; [discriminate|exact Hl].
Qed.

Lemma has_char_append a s1 s2 :
  has_char a (s1 ++ s2) = has_char a s1 || has_char a s2.
Proof.
  induction s1 as [|x s1 IH]; [reflexivity|]. simpl. rewrite IH, orb_assoc. reflexivity.
Qed.

Lemma has_char_join a sep l :
  a <> sep -> Forall (fun s => has_char a s = false) l -> has_char a (join sep l) = false.
Proof.
  intros Hne. induction l as [|x l IH]; [reflexivity|]. intros Hall.
  inversion Hall as [|? ? Hx Hl]; subst. destruct l as [|y l]; [exact Hx|].
  rewrite join_cons, has_char_append, Hx. simpl.
  rewrite (IH Hl), orb_false_r. apply bool_decide_eq_false. congruence.
Qed.

Lemma skip_space_app_low x sep r :
  skip_space x = None -> x <> "" -> low sep = true ->
  skip_space (x ++ String sep r) = None.
Proof.
  intros H Hx Hs. destruct x as [|a [|b [|c x3]]]; [congruence| | |].
  - simpl in *. destruct (is_space a); [discriminate|].
    rewrite (is_space2_low_r a sep Hs).
    destruct r as [|c r]; [reflexivity|]. rewrite (is_space3_low_2 a sep c Hs). reflexivity.
  - simpl in *. destruct (is_space a); [discriminate|].
    destruct (is_space2 a b); [discriminate|].
    rewrite (is_space3_low_3 a b sep Hs). reflexivity.
  - change (String a (String b (String c x3)) ++ String sep r)
      with (String a (String b (String c (x3 ++ String sep r)))).
    simpl in *. destruct (is_space a); [discriminate|].
    destruct (is_space2 a b); [discriminate|].
    destruct (is_space3 a b c); [discriminate|reflexivity].
Qed.

Lemma low_not_blank sep v : low sep = true -> is_space sep = false -> lstrip (String sep v) <> "".
Proof.
  intros Hs He. rewrite lstrip_fixed; [discriminate|].
  simpl. rewrite He. destruct v as [|b v]; [reflexivity|].
  rewrite (is_space2_low_l sep b Hs). destruct v as [|c v]; [reflexivity|].
  rewrite (is_space3_low_1 sep b c Hs). reflexivity.
Qed.

(** White space does not reach across an ASCII byte. *)
Lemma lstrip_blank_app_low sep v u :
  low sep = true -> lstrip (u ++ String sep v) = "" -> lstrip v = "".
Proof.
  intros Hs. induction u as [u IH] using string_length_ind. intros H.
  destruct u as [|a [|b [|c u]]].
  - change ("" ++ String sep v) with (String sep v) in H.
    destruct (is_space sep) eqn:He.
    + rewrite lstrip_cons_space in H by exact He. exact H.
    + exfalso. exact (low_not_blank sep v Hs He H).
  - rewrite lstrip_eq in H. simpl skip_space in H.
    destruct (is_space a); [apply (IH ""); [simpl; lia|exact H]|].
    rewrite (is_space2_low_r a sep Hs) in H.
    destruct v as [|c v]; [discriminate|].
    rewrite (is_space3_low_2 a sep c Hs) in H. discriminate.
  - rewrite lstrip_eq in H. simpl skip_space in H.
    destruct (is_space a); [apply (IH (String b "")); [simpl; lia|exact H]|].
    destruct (is_space2 a b); [apply (IH ""); [simpl; lia|exact H]|].
    rewrite (is_space3_low_3 a b sep Hs) in H. discriminate.
  - rewrite lstrip_eq in H. simpl skip_space in H.
    destruct (is_space a); [apply (IH (String b (String c u))); [simpl; lia|exact H]|].
    destruct (is_space2 a b); [apply (IH (String c u)); [simpl; lia|exact H]|].
    destruct (is_space3 a b c); [apply (IH u); [simpl; lia|exact H]|discriminate].
Qed.

Lemma rstrip_app_low sep v u :
  low sep = true -> v <> "" -> rstrip v = v ->
  rstrip (u ++ String sep v) = u ++ String sep v.
Proof.
  intros Hs Hv Hr.
  assert (Hnb : forall u', lstrip (u' ++ String sep v) <> "").
  { intros u' H. apply lstrip_blank_app_low in H; [|exact Hs].
    apply rstrip_blank in H. congruence. }
  induction u as [|a u IH].
  - change ("" ++ String sep v) with (String sep v).
    rewrite rstrip_cons, bool_decide_eq_false_2 by exact (Hnb ""). rewrite Hr. reflexivity.
  - change (String a u ++ String sep v) with (String a (u ++ String sep v)).
    rewrite rstrip_cons, bool_decide_eq_false_2 by exact (Hnb (String a u)).
    rewrite IH. reflexivity.
Qed.

Lemma join_ends sep l :
  low sep = true -> l <> [] ->
  Forall (fun s => s <> "" /\ strip s = s) l ->
  join sep l <> "" /\ strip (join sep l) = join sep l.
Proof.
  intros Hs. induction l as [|x l IH]; [congruence|]. intros _ Hall.
  inversion Hall as [|? ? (Hx & Hf) Hrest]; subst. destruct l as [|y l].
  - auto.
  - destruct (IH ltac:(discriminate) Hrest) as (Jn & Jf).
    apply strip_fixed_inv in Hf as [Hl _]. apply strip_fixed_inv in Jf as [_ Jr].
    rewrite join_cons. split; [destruct x; [congruence|discriminate]|].
    apply strip_fixed.
    + apply lstrip_fixed, skip_space_app_low; [apply lstrip_fixed_inv, Hl|exact Hx|exact Hs].
    + apply rstrip_app_low; assumption.
Qed.

Lemma filter_all {A} (P : A -> Prop) `{forall x, Decision (P x)} (l : list A) :
  Forall P l -> filter P l = l.
Proof.
  induction 1 as [|x l Hx _ IH]; [reflexivity|].
  rewrite filter_cons_True by exact Hx. rewrite IH. reflexivity.
Qed.

(** The text of a copy, parsed as a paste parses it, is the rows of
    texts the copy joined. *)
Lemma parse_clipboard_join rows :
  rows <> [] -> Forall (fun r => r <> [] /\ Forall pastable r) rows ->
  parse_clipboard (join newline (map (join tab) rows)) = rows.
Proof.
  intros Hne Hall.
  assert (Hlines : Forall (fun line => line <> "" /\ strip line = line)
                     (map (join tab) rows)).
  { apply List.Forall_forall. intros line Hin. apply in_map_iff in Hin as (r & <- & Hr).
    rewrite List.Forall_forall in Hall. destruct (Hall r Hr) as [Hrn Hp].
    apply join_ends; [reflexivity|exact Hrn|]. eapply Forall_impl; [exact Hp|].
    intros s (A & B & _). auto. }
  assert (Hnl : Forall (fun line => has_char newline line = false) (map (join tab) rows)).
  { apply List.Forall_forall. intros line Hin. apply in_map_iff in Hin as (r & <- & Hr).
    rewrite List.Forall_forall in Hall. destruct (Hall r Hr) as [Hrn Hp].
    apply has_char_join; [discriminate|]. eapply Forall_impl; [exact Hp|].
    intros s (_ & _ & _ & E). exact E. }
  assert (Hmn : map (join tab) rows <> []) by (destruct rows; [congruence|discriminate]).
  destruct (join_ends newline _ eq_refl Hmn Hlines) as (Tn & Tf).
  unfold parse_clipboard. rewrite Tf.
  rewrite (split_join newline _ Hmn Hnl).
  rewrite filter_all.
  - rewrite map_map. rewrite <- (map_id rows) at 2. apply map_ext_in.
    intros r Hr. rewrite List.Forall_forall in Hall. destruct (Hall r Hr) as [Hrn Hp].
    apply split_join; [exact Hrn|]. eapply Forall_impl; [exact Hp|].
    intros s (_ & _ & E & _). exact E.
  - eapply Forall_impl; [exact Hlines|]. intros line (A & B).
    rewrite B. exact A.
Qed.

Lemma dict_put_nonempty {V} k (v : V) d : dict_put k v d <> [].
Proof. destruct d as [|[k' v'] d]; simpl; [discriminate|]. case_bool_decide; discriminate. Qed.

Lemma in_dict_put {V} k (v : V) d kv :
  In kv (dict_put k v d) -> kv = (k, v) \/ In kv d.
Proof.
  induction d as [|[k' v'] d IH]; simpl.
  - intuition.
  - case_bool_decide as Hk; simpl.
    + subst k'. intuition.
    + intros [H|H]; [auto|]. destruct (IH H); auto.
Qed.

Lemma dict_get_In {V} k (d : list (Z * V)) :
  In k (map fst d) -> exists v, dict_get k d = Some v /\ In (k, v) d.
Proof.
  induction d as [|[k' v'] d IH]; simpl; [intros []|].
  case_bool_decide as Hk.
  - subst k'. intros _. exists v'. auto.
  - intros [H|H]; [simpl in H; congruence|]. destruct (IH H) as (v & Hg & Hin). eauto.
Qed.

Lemma collect_rows_nonempty w indexes : forall acc rows,
  collect_rows w indexes acc = Some rows ->
  Forall (fun kv => snd kv <> []) acc ->
  Forall (fun kv => snd kv <> []) rows /\ (indexes <> [] \/ acc <> [] -> rows <> []).
Proof.
  induction indexes as [|i indexes IH]; intros acc rows H Hacc; simpl in H.
  - injection H as <-. split; [exact Hacc|]. intros [Hn|Hn]; congruence.
  - destruct (data i w) as [v w'|e w'|]; try discriminate.
    destruct (IH _ _ H) as [H1 H2].
    + apply List.Forall_forall. intros kv Hin. apply in_dict_put in Hin as [->|Hin].
      * apply dict_put_nonempty.
      * rewrite List.Forall_forall in Hacc. apply Hacc, Hin.
    + split; [exact H1|]. intros _. apply H2. right. apply dict_put_nonempty.
Qed.

Lemma rows_data_nonempty rows :
  rows <> [] -> Forall (fun kv => snd kv <> []) rows ->
  rows_data rows <> [] /\ Forall (fun r => r <> []) (rows_data rows).
Proof.
  intros Hne Hall. unfold rows_data. split.
  - assert (Hs : sorted (map fst rows) <> []).
    { apply sorted_nonempty. destruct rows; [congruence|discriminate]. }
    destruct (sorted (map fst rows)); [congruence|discriminate].
  - apply List.Forall_forall. intros r Hin. apply in_map_iff in Hin as (k & <- & Hk).
    apply (proj1 (in_sorted _ _)) in Hk. destruct (dict_get_In k rows Hk) as (inner & -> & Hin).
    simpl. rewrite List.Forall_forall in Hall. specialize (Hall _ Hin). simpl in Hall.
    assert (Hs : sorted (map fst inner) <> []).
    { apply sorted_nonempty. destruct inner; [congruence|discriminate]. }
    destruct (sorted (map fst inner)); [congruence|discriminate].
Qed.

Lemma str_items_nonempty l k : str_items l = Some k -> l <> [] -> k <> [].
Proof.
  unfold str_items. intros H Hl. apply length_mapM in H.
  destruct k; [|discriminate]. destruct l; [congruence|discriminate].
Qed.

Lemma copied_rows_nonempty sel w rows :
  sel <> [] -> copied_rows sel w = Some rows ->
  rows <> [] /\ Forall (fun r => r <> []) rows.
Proof.
  intros Hsel H. unfold copied_rows in H.
  destruct (collect_rows w (sorted_indexes sel) []) as [d|] eqn:Hc; [|discriminate].
  destruct (collect_rows_nonempty w _ _ _ Hc) as [H1 H2]; [constructor|].
  assert (Hd : d <> []).
  { apply H2. left. destruct sel as [|i sel]; [congruence|].
    simpl. intros E. destruct (sorted_indexes sel); simpl in E; [discriminate|].
    destruct (index_le i q); discriminate. }
  destruct (rows_data_nonempty d Hd H1) as [R1 R2].
  apply mapM_Some in H. split.
  - destruct H; [congruence|discriminate].
  - clear R1. induction H as [|x y l k Hxy _ IH]; [constructor|].
    inversion R2 as [|? ? Hx Hl]; subst.
    constructor; [eapply str_items_nonempty; eauto|apply IH, Hl].
Qed.

(** X25: what is copied can be pasted back.  When every text a copy
    puts on the clipboard is not empty, has no white space at either end
    and holds no tab and no line feed, the clipboard text of
    [copy_selected_cells], parsed as [paste_clipboard_data] parses it,
    gives back the rows of texts the copy joined: as many rows, as many
    cells in each, the same texts. *)
Theorem copy_then_parse (sel : list QModelIndex) (w : World) (rows : list (list string)) :
  sel <> [] -> copied_rows sel w = Some rows -> Forall (Forall pastable) rows ->
  exists clipboard_text,
    copy_selected_cells sel w = copied clipboard_text
    /\ clipboard_text = join newline (map (join tab) rows)
    /\ rows <> []
    /\ parse_clipboard clipboard_text = rows.
Proof.
  intros Hsel Hrows Hp.
  destruct (copied_rows_nonempty sel w rows Hsel Hrows) as [Hne Hall].
  exists (join newline (map (join tab) rows)).
  split; [|split; [reflexivity|split; [exact Hne|]]].
  - unfold copy_selected_cells, copied_rows in *. destruct sel; [congruence|].
    destruct (collect_rows w _ []); [|discriminate]. rewrite Hrows. reflexivity.
  - apply parse_clipboard_join; [exact Hne|].
    apply List.Forall_forall. intros r Hr. rewrite List.Forall_forall in Hall, Hp. auto.
Qed.

Lemma copy_then_parse_witness :
  exists clipboard_text,
    copy_selected_cells [mkIndex 2 1; mkIndex 0 1; mkIndex 0 0; mkIndex 2 0] (loaded frame3x3)
    = copied clipboard_text
    /\ clipboard_text = join newline (map (join tab) [["a0"; "b0"]; ["7"; "b2"]])
    /\ [["a0"; "b0"]; ["7"; "b2"]] <> []
    /\ parse_clipboard clipboard_text = [["a0"; "b0"]; ["7"; "b2"]].
Proof.
  apply (copy_then_parse [mkIndex 2 1; mkIndex 0 1; mkIndex 0 0; mkIndex 2 0]
           (loaded frame3x3) [["a0"; "b0"]; ["7"; "b2"]]).
  - discriminate.
  - reflexivity.
  - repeat constructor; discriminate.
Defined.

(** A blank cell at the corner of the block does not survive: the copy
    of a blank cell and a word is parsed as the word alone, which a paste
    takes for a single value. *)
Example copy_blank_corner_is_lost :
  copy_selected_cells [mkIndex 1 1; mkIndex 1 0] (loaded frame3x3)
  = copied (String "a" (String "1" (String tab "")))
  /\ copied_rows [mkIndex 1 1; mkIndex 1 0] (loaded frame3x3) = Some [["a1"; ""]]
  /\ parse_clipboard (String "a" (String "1" (String tab ""))) = [["a1"]].
Proof. repeat split. Qed.

(** ** A mapping that was reset *)

Lemma reset_mapping_loop df_source keys rest : forall j,
  NoDup keys -> drop j keys = map fst rest ->
  Forall (fun ab => snd ab = "") rest ->
  fold_left (map_column df_source) rest (Some (mkDataFrame keys []))
  = Some (mkDataFrame keys []).
Proof.
  induction rest as [|[a b] rest IH]; intros j Hnd Hdrop Hall; [reflexivity|].
  inversion Hall as [|? ? Hb Hrest]; subst. simpl in Hb. subst b.
  assert (Hj : keys !! j = Some a).
  { pose proof (lookup_drop keys j 0) as H. rewrite Hdrop, Nat.add_0_r in H.
    symmetry. exact H. }
  cbn [fold_left]. unfold map_column at 2. cbn [fst snd columns].
  rewrite (column_positions_unique a keys j Hnd Hj).
  change (is_mapped df_source "") with false. cbv iota.
  unfold set_column_scalar. cbn [columns rows map].
  apply (IH (S j) Hnd); [|exact Hrest].
  rewrite (drop_S keys a j Hj) in Hdrop. simpl in Hdrop. injection Hdrop as ->. reflexivity.
Qed.

(** X26: after "reset mapping" the file that [create_a_file] writes has
    a header and nothing else: every key is mapped to the empty string,
    so every column is assigned a scalar on a frame without rows, and no
    row of the table is copied, whatever the table holds. *)
Theorem reset_mapping_gives_header_only (mapping : list (string * string))
    (df_source : DataFrame) :
  NoDup (map fst mapping) ->
  apply_mapping (reset_mapping mapping) df_source
  = Some (mkDataFrame (map fst mapping) []).
Proof.
  intros Hnd. unfold apply_mapping, reset_mapping.
  rewrite map_map. cbn [fst].
  apply (reset_mapping_loop df_source (map fst mapping) _ 0 Hnd).
  - rewrite map_map. reflexivity.
  - apply List.Forall_forall. intros ab Hin. apply in_map_iff in Hin as (x & <- & _).
    reflexivity.
Qed.

Lemma reset_mapping_gives_header_only_witness :
  apply_mapping (reset_mapping [("product", "name"); ("cost", "price")]) sales
  = Some (mkDataFrame (map fst [("product", "name"); ("cost", "price")]) []).
Proof.
  apply (reset_mapping_gives_header_only [("product", "name"); ("cost", "price")] sales).
  apply (bool_decide_eq_true_1 (NoDup ["product"; "cost"])). vm_compute. reflexivity.
Defined.

(** ** The history holds the last fifty commands *)

Lemma stack_record_full cmd s :
  stack_index s = length (command_list s) ->
  (length (command_list s) <= undo_limit s)%nat -> (0 < undo_limit s)%nat ->
  command_list (stack_record cmd s)
  = drop (length (command_list s) + 1 - undo_limit s) (command_list s ++ [cmd])
  /\ stack_index (stack_record cmd s) = length (command_list (stack_record cmd s))
  /\ (length (command_list (stack_record cmd s)) <= undo_limit s)%nat
  /\ undo_limit (stack_record cmd s) = undo_limit s.
Proof.
  intros Hi Hl Hpos. unfold stack_record. rewrite Hi, take_ge by lia. cbv zeta.
  rewrite length_app. cbn [length].
  replace (0 <? undo_limit s)%nat with true by (symmetry; apply Nat.ltb_lt; lia).
  cbn [andb].
  destruct (undo_limit s <? length (command_list s) + 1)%nat eqn:E.
  - apply Nat.ltb_lt in E. cbn [command_list stack_index undo_limit].
    rewrite length_drop, length_app. cbn [length]. repeat split; lia.
  - apply Nat.ltb_ge in E. cbn [command_list stack_index undo_limit].
    replace (length (command_list s) + 1 - undo_limit s)%nat with 0%nat by lia.
    rewrite !drop_0, length_app. cbn [length]. repeat split; lia.
Qed.

Lemma push_all_keeps_last fuel cmds : forall w,
  stack_index (undo_stack w) = length (command_list (undo_stack w)) ->
  (length (command_list (undo_stack w)) <= undo_limit (undo_stack w))%nat ->
  (0 < undo_limit (undo_stack w))%nat ->
  exists w',
    for_each (push fuel) cmds w = Ok tt w'
    /\ command_list (undo_stack w')
       = drop (length (command_list (undo_stack w)) + length cmds
               - undo_limit (undo_stack w))
           (command_list (undo_stack w) ++ cmds)
    /\ stack_index (undo_stack w') = length (command_list (undo_stack w')).
Proof.
  induction cmds as [|cmd cmds IH]; intros w Hi Hl Hpos.
  - exists w. split; [reflexivity|]. split; [|exact Hi].
    rewrite app_nil_r. replace (_ + _ - _)%nat with 0%nat by (simpl; lia).
    rewrite drop_0. reflexivity.
  - destruct (stack_record_full cmd (undo_stack w) Hi Hl Hpos) as (R1 & R2 & R3 & R4).
    destruct (IH (pushed cmd w)) as (w' & Hrun & Hlist & Hidx).
    { rewrite pushed_undo_stack. exact R2. }
    { rewrite pushed_undo_stack, R4. exact R3. }
    { rewrite pushed_undo_stack, R4. exact Hpos. }
    exists w'. split; [cbn [for_each]; unfold bind; rewrite push_eq; exact Hrun|].
    split; [|exact Hidx].
    rewrite Hlist, pushed_undo_stack, R4, R1.
    rewrite length_drop, length_app. cbn [length].
    rewrite <- drop_app_le by (rewrite length_app; cbn [length]; lia).
    rewrite drop_drop, <- app_assoc. cbn [app]. f_equal. lia.
Qed.

(** X27: the history holds the last fifty commands.  On a freshly
    loaded table, after any number of commands were pushed, the list of
    the stack is the list of the commands pushed without all but its
    last fifty, and the position is at its end: a fifty-first command
    drops the first for good. *)
Theorem history_holds_last_fifty (fuel : nat) (d : DataFrame) (cmds : list Command) :
  exists w,
    for_each (push fuel) cmds (loaded d) = Ok tt w
    /\ command_list (undo_stack w) = drop (length cmds - 50) cmds
    /\ stack_index (undo_stack w) = length (command_list (undo_stack w))
    /\ (length (command_list (undo_stack w)) <= 50)%nat.
Proof.
  destruct (push_all_keeps_last fuel cmds (loaded d)) as (w & Hrun & Hlist & Hidx);
    [reflexivity|simpl; lia|simpl; lia|].
  exists w. split; [exact Hrun|]. simpl in Hlist.
  split; [exact Hlist|]. split; [exact Hidx|].
  rewrite Hlist, length_drop. lia.
Qed.

(** ** The loaders of the thread and of the application *)

Lemma thread_load_csv_from_signals files file_path encs :
  snd (DataLoaderThread.load_csv_from files file_path encs) = []
  <-> load_csv_from files file_path encs <> None.
Proof.
  induction encs as [|enc encs IH]; simpl.
  - split; [discriminate|congruence].
  - destruct (read_csv files file_path enc); simpl;
      first [exact IH | split; [discriminate|congruence] | split; [discriminate|reflexivity]].
Qed.

(** X28: the loaders of the thread answer what the loaders of the
    application answer, for CSV files, Excel files and the custom HTML
    format alike, and they emit an error signal exactly when the answer
    is [None]; they never emit [finished] themselves. *)
Theorem thread_loaders_agree (files : Files) (file_path engine html_content : string) :
  (fst (DataLoaderThread.load_csv files file_path) = load_csv files file_path
   /\ (snd (DataLoaderThread.load_csv files file_path) = []
       <-> load_csv files file_path <> None)
   /\ only_errors (snd (DataLoaderThread.load_csv files file_path)))
  /\ (fst (DataLoaderThread.load_excel files file_path engine)
      = load_excel files file_path engine
      /\ (snd (DataLoaderThread.load_excel files file_path engine) = []
          <-> load_excel files file_path engine <> None)
      /\ only_errors (snd (DataLoaderThread.load_excel files file_path engine)))
  /\ (fst (DataLoaderThread.parse_custom_html_xls files html_content)
      = parse_custom_html_xls files html_content
      /\ (snd (DataLoaderThread.parse_custom_html_xls files html_content) = []
          <-> parse_custom_html_xls files html_content <> None)
      /\ only_errors (snd (DataLoaderThread.parse_custom_html_xls files html_content))).
Proof.
  split; [|split].
  - unfold DataLoaderThread.load_csv, load_csv.
    destruct (thread_load_csv_from files file_path encodings) as [H1 H2].
    split; [exact H1|]. split; [apply thread_load_csv_from_signals|exact H2].
  - destruct (thread_load_excel files file_path engine) as [H1 H2].
    split; [exact H1|]. split; [|exact H2].
    unfold DataLoaderThread.load_excel, load_excel.
    destruct (read_excel files file_path engine); simpl;
      (split; [try discriminate; congruence|try discriminate; try reflexivity; congruence]).
  - destruct (thread_parse_custom_html_xls files html_content) as [H1 H2].
    split; [exact H1|]. split; [|exact H2].
    unfold DataLoaderThread.parse_custom_html_xls, parse_custom_html_xls.
    destruct (find_table files html_content) as [[[|[|first_td header_tds] rest]|]|];
      try (split; [discriminate|simpl; congruence]).
    destruct (frame_of_table _); simpl;
      (split; [try discriminate; congruence|try discriminate; try reflexivity; congruence]).
Qed.

(** ** Edits that change nothing and are recorded all the same *)

(** X29: two edits that leave the text of a cell as it is are recorded
    as changes.  On a cell that holds the empty string (a short row of
    the custom HTML format, a bulk clear), committing an empty text; and
    on a cell that holds a missing value, committing the "no field value"
    literal: [setData] answers [True] and pushes an [EditCellCommand],
    the cell ends up holding a missing value, and [data] shows the same
    blank text before and after. *)
Theorem unchanged_text_is_recorded (fuel : nat) (i : QModelIndex) (old : value)
    (text : string) (w : World) :
  ready w -> in_bounds (_df w) i = true -> cell_at (_df w) i = Some old ->
  (old = Str "" /\ text = "") \/ (old = NA /\ text = no_field_value) ->
  exists w1,
    setData (S fuel) i (Str text) w = Ok true w1
    /\ undo_stack w1
       = stack_record (EditCellCommand i old (new_value_of (Str text))) (undo_stack w)
    /\ cell_at (_df w1) i = Some NA
    /\ data i w = Ok (Str "") w
    /\ data i w1 = Ok (Str "") w1.
Proof.
  intros (Hwf & Hf & Hm) Hb Hc Hcase. pose proof (in_bounds_valid _ _ Hb) as Hv.
  assert (Hd : values_differ old (new_value_of (Str text)) = true)
    by (destruct Hcase as [[-> ->]|[-> ->]]; reflexivity).
  assert (Hs : stored (new_value_of (Str text)) = NA)
    by (destruct Hcase as [[-> ->]|[-> ->]]; reflexivity).
  assert (Ho : display_of old = "") by (destruct Hcase as [[-> _]|[-> _]]; reflexivity).
  exists (pushed (EditCellCommand i old (new_value_of (Str text))) w).
  assert (Hc1 : cell_at (_df (pushed (EditCellCommand i old (new_value_of (Str text))) w)) i
                = Some NA).
  { rewrite pushed_df. simpl redo_writes.
    rewrite cell_at_own_write by assumption. rewrite Hs. reflexivity. }
  split; [rewrite (setData_result fuel i _ w old Hb Hc), Hf, Hd, Hm; reflexivity|].
  split; [apply pushed_undo_stack|]. split; [exact Hc1|]. split.
  - rewrite (data_cell w i old Hv Hc), Ho. reflexivity.
  - rewrite (data_cell _ i NA Hv Hc1). reflexivity.
Qed.

Lemma unchanged_text_is_recorded_witness :
  exists w1,
    setData 1 (mkIndex 1 1) (Str no_field_value) (loaded frame3x3) = Ok true w1
    /\ undo_stack w1
       = stack_record (EditCellCommand (mkIndex 1 1) NA (new_value_of (Str no_field_value)))
           (undo_stack (loaded frame3x3))
    /\ cell_at (_df w1) (mkIndex 1 1) = Some NA
    /\ data (mkIndex 1 1) (loaded frame3x3) = Ok (Str "") (loaded frame3x3)
    /\ data (mkIndex 1 1) w1 = Ok (Str "") w1.
Proof.
  apply (unchanged_text_is_recorded 0 (mkIndex 1 1) NA no_field_value (loaded frame3x3)).
  - repeat split. exact wf_frame3x3.
  - reflexivity.
  - reflexivity.
  - right. split; reflexivity.
Defined.

(** The first case is within reach of a file: the short row of the
    custom HTML format loads a cell that holds the empty string. *)
Example short_row_loads_empty_string :
  exists df w1,
    parse_custom_html_xls example_files "<HTML><table>...</table></HTML>" = Some df
    /\ cell_at df (mkIndex 0 2) = Some (Str "")
    /\ setData 1 (mkIndex 0 2) (Str "") (loaded (clean_column_names df)) = Ok true w1
    /\ length (command_list (undo_stack w1)) = 1%nat.
Proof. eexists. eexists. repeat split. Qed.
